(** * Firmware crypto and catalog engine of the OTA server

    A shallow embedding of [server/core/crypto.py] (class [CryptoManager]) and
    [server/core/firmware_manager.py] (class [FirmwareManager]), followed by
    the properties established about them.

    Conventions of the embedding.
    - A Python [bytes]/[bytearray] value is a [list Z]; every element a
      Python program can put there lies in [0, 256).
    - A Python [str] is the list of the bytes of its UTF-8 encoding
      ([list ascii]); for ASCII text one character is one element.  The
      character classes of the built-ins (decimal digit, white space) are
      those of ASCII text: properties that depend on the class of a
      character of a file name are stated for names with [isascii].
    - A Python [int] is a [Z].
    - A raised exception is the [Raise] case of [result].
    - [os.urandom], the clock and storage faults are explicit inputs. *)

From Stdlib Require Import ZArith List Bool Ascii Lia Permutation Sorted.
From Stdlib Require String.
Import ListNotations String.StringSyntax.
Delimit Scope string_scope with string.

Local Open Scope Z_scope.

(* ================================================================== *)
(** * Part I: the program *)
(* ================================================================== *)

(** ** Python values and built-ins used by the program *)

Module Py.

Definition bytes := list Z.
Definition str := list ascii.

(** A string literal. *)
Definition s (x : String.string) : str := String.list_ascii_of_string x.
Arguments s x%_string.

Inductive exn : Type :=
| ValueError
| StructError
| FileNotFoundError
| OSError.

Inductive result (A : Type) : Type :=
| Ok (a : A)
| Raise (e : exn).
Arguments Ok {A} a.
Arguments Raise {A} e.

Definition bind {A B} (r : result A) (f : A -> result B) : result B :=
  match r with
  | Ok a => f a
  | Raise e => Raise e
  end.

Definition is_byte (b : Z) : Prop := 0 <= b < 256.

Definition code (c : ascii) : Z := Z.of_N (N_of_ascii c).

(** [str.encode('utf-8')]: the text already is its UTF-8 byte sequence. *)
Definition encode_utf8 (t : str) : bytes := map code t.

Definition str_eqb (a b : str) : bool :=
  if list_eq_dec ascii_dec a b then true else false.

(** [str.isascii()]: every character is below 128.  On such text the
    digits of [int()] and of the pattern class [\d] are the ten ASCII
    digits, and white space is the ASCII white space below; outside
    ASCII Python's classes are wider (every Unicode decimal digit, every
    Unicode space), so what depends on them is stated for ASCII text. *)
Definition isascii (t : str) : bool :=
  forallb (fun c => code c <? 128) t.

(** ASCII decimal digit, and the class of ASCII white space that
    [int()], [str.strip()] and [bytes.fromhex] skip. *)
Definition is_digit (c : ascii) : bool :=
  (48 <=? code c) && (code c <=? 57).

Definition is_space (c : ascii) : bool :=
  (code c =? 32) || ((9 <=? code c) && (code c <=? 13)).

Definition hexval (c : ascii) : option Z :=
  let n := code c in
  if (48 <=? n) && (n <=? 57) then Some (n - 48)
  else if (97 <=? n) && (n <=? 102) then Some (n - 87)
  else if (65 <=? n) && (n <=? 70) then Some (n - 55)
  else None.

(** [bytes.fromhex]: two adjacent hex digits per byte, white space
    allowed between bytes; anything else raises [ValueError] ([None]). *)
Fixpoint fromhex (t : str) : option bytes :=
  match t with
  | [] => Some []
  | c :: t' =>
      if is_space c then fromhex t'
      else match hexval c, t' with
           | Some h, d :: t'' =>
               match hexval d with
               | Some l =>
                   match fromhex t'' with
                   | Some r => Some (16 * h + l :: r)
                   | None => None
                   end
               | None => None
               end
           | _, _ => None
           end
  end.

Definition hexdigit (n : Z) : ascii :=
  ascii_of_N (Z.to_N (if n <? 10 then 48 + n else 87 + n)).

(** [bytes.hex()]: two lower-case hex digits per byte. *)
Definition hex (b : bytes) : str :=
  flat_map (fun x => [hexdigit (x / 16); hexdigit (x mod 16)]) b.

(** [str.lstrip(chars)] for a one-character set. *)
Fixpoint lstrip (ch : ascii) (t : str) : str :=
  match t with
  | c :: t' => if Ascii.eqb c ch then lstrip ch t' else t
  | [] => []
  end.

(** [str.split(sep)] for a one-character separator: never empty. *)
Fixpoint split (sep : ascii) (t : str) : list str :=
  match t with
  | [] => [[]]
  | c :: t' =>
      if Ascii.eqb c sep then [] :: split sep t'
      else match split sep t' with
           | w :: ws => (c :: w) :: ws
           | [] => [[c]]
           end
  end.

(** [sep.join(parts)]. *)
Fixpoint join (sep : ascii) (parts : list str) : str :=
  match parts with
  | [] => []
  | [w] => w
  | w :: ws => w ++ sep :: join sep ws
  end.

(** The digits of [int()]'s argument after the sign: ASCII digits, single
    underscores allowed between digits.  [acc] is the value so far and
    [prev_digit] tells whether the previous character was a digit. *)
Fixpoint int_digits (t : str) (acc : Z) (prev_digit : bool) : option Z :=
  match t with
  | [] => if prev_digit then Some acc else None
  | c :: t' =>
      if is_digit c then int_digits t' (10 * acc + (code c - 48)) true
      else if Ascii.eqb c "_" then
             if prev_digit then int_digits t' acc false else None
      else None
  end.

Definition strip (t : str) : str :=
  let fix drop (u : str) : str :=
    match u with
    | c :: u' => if is_space c then drop u' else u
    | [] => []
    end in
  rev (drop (rev (drop t))).

(** [sys.get_int_max_str_digits()]: the interpreter's default limit
    on the number of digits [int()] converts. *)
Definition int_max_str_digits : Z := 4300.

(** [int(text)] in base 10; [None] stands for [ValueError], which is
    also what a text with more digits than the limit gets (leading
    zeros count; sign, underscores and white space do not). *)
Definition int (t : str) : option Z :=
  if int_max_str_digits <? Z.of_nat (length (filter is_digit t))
  then None
  else
    match strip t with
    | c :: t' =>
        if Ascii.eqb c "-" then option_map Z.opp (int_digits t' 0 false)
        else if Ascii.eqb c "+" then int_digits t' 0 false
        else int_digits (c :: t') 0 false
    | [] => None
    end.

(** [str(n)] for an integer. *)
Fixpoint dec_digits (fuel : nat) (n : Z) (acc : str) : str :=
  match fuel with
  | O => acc
  | S f =>
      let acc' := ascii_of_N (Z.to_N (48 + n mod 10)) :: acc in
      if n / 10 =? 0 then acc' else dec_digits f (n / 10) acc'
  end.

Definition str_of_int (n : Z) : str :=
  if n <? 0 then "-"%char :: dec_digits (S (Z.to_nat (Z.log2 (- n)))) (- n) []
  else dec_digits (S (Z.to_nat (Z.log2 n))) n [].

(** [struct.pack('<I', n)] and [struct.pack('<H', n)]: little-endian
    unsigned; out of range raises [struct.error]. *)
Definition le_bytes (w : nat) (n : Z) : bytes :=
  map (fun i => Z.land (Z.shiftr n (8 * Z.of_nat i)) 255) (seq 0 w).

Definition pack_I (n : Z) : result bytes :=
  if (0 <=? n) && (n <=? 4294967295) then Ok (le_bytes 4 n)
  else Raise StructError.

Definition pack_H (n : Z) : result bytes :=
  if (0 <=? n) && (n <=? 65535) then Ok (le_bytes 2 n)
  else Raise StructError.

(** Lexicographic comparison of sequences (tuples, strings). *)
Fixpoint lex_compare {A} (cmp : A -> A -> comparison) (a b : list A)
  : comparison :=
  match a, b with
  | [], [] => Eq
  | [], _ :: _ => Lt
  | _ :: _, [] => Gt
  | x :: a', y :: b' =>
      match cmp x y with
      | Eq => lex_compare cmp a' b'
      | c => c
      end
  end.

Definition str_compare : str -> str -> comparison :=
  lex_compare (fun x y => Z.compare (code x) (code y)).

(** A [dict] with string keys: insertion ordered, one entry per key. *)
Definition dict (V : Type) := list (str * V).

Fixpoint dict_get {V} (d : dict V) (k : str) : option V :=
  match d with
  | [] => None
  | (k', v) :: d' => if str_eqb k' k then Some v else dict_get d' k
  end.

(** [d[k] = v]: an existing key keeps its position. *)
Fixpoint dict_set {V} (d : dict V) (k : str) (v : V) : dict V :=
  match d with
  | [] => [(k, v)]
  | (k', v') :: d' =>
      if str_eqb k' k then (k', v) :: d' else (k', v') :: dict_set d' k v
  end.

(** [del d[k]]. *)
Fixpoint dict_del {V} (d : dict V) (k : str) : dict V :=
  match d with
  | [] => []
  | (k', v') :: d' =>
      if str_eqb k' k then d' else (k', v') :: dict_del d' k
  end.

(** [d.update(e)]. *)
Definition dict_update {V} (d e : dict V) : dict V :=
  fold_left (fun acc kv => dict_set acc (fst kv) (snd kv)) e d.

(** [a[i] = v] on a [bytearray]; the program only uses indices below
    the length (out of range Python raises [IndexError], here the
    array is returned as it is). *)
Fixpoint set_item (a : bytes) (i : nat) (v : Z) : bytes :=
  match a, i with
  | [], _ => []
  | _ :: a', O => v :: a'
  | x :: a', S j => x :: set_item a' j v
  end.

(** [a[lo:hi] = v] for [lo <= hi <= len(a)]. *)
Definition set_slice (a : bytes) (lo hi : nat) (v : bytes) : bytes :=
  firstn lo a ++ v ++ skipn hi a.

(** The state of the operating system's random source: [os.urandom n]
    returns the next [n] bytes. *)
Record entropy : Type := { source : nat -> Z; consumed : nat }.

Definition urandom (n : nat) (g : entropy) : bytes * entropy :=
  (map (fun i => Z.land (source g i) 255) (seq (consumed g) n),
   {| source := source g; consumed := (consumed g + n)%nat |}).

End Py.

(** ** [server/core/crypto.py] *)

Module Crypto.
Import Py.

Inductive EncryptionType : Type :=
| NONE
| XOR
| AES_128_CBC
| AES_256_CBC.

Definition value (a : EncryptionType) : str :=
  match a with
  | NONE => s "none"
  | XOR => s "xor"
  | AES_128_CBC => s "aes-128-cbc"
  | AES_256_CBC => s "aes-256-cbc"
  end.

(** Values stored in the metadata dictionaries. *)
Inductive any : Type :=
| AStr (t : str)
| AInt (n : Z)
| ABool (b : bool).

(** [if x:] on an optional string or byte string. *)
Definition truthy {A} (x : option (list A)) : bool :=
  match x with
  | Some (_ :: _) => true
  | _ => false
  end.

(** *** [_calculate_crc32_stm32] *)

Definition crc32_table : list Z := [
  0x00000000; 0x77073096; 0xee0e612c; 0x990951ba; 0x076dc419; 0x706af48f;
  0xe963a535; 0x9e6495a3; 0x0edb8832; 0x79dcb8a4; 0xe0d5e91e; 0x97d2d988;
  0x09b64c2b; 0x7eb17cbd; 0xe7b82d07; 0x90bf1d91; 0x1db71064; 0x6ab020f2;
  0xf3b97148; 0x84be41de; 0x1adad47d; 0x6ddde4eb; 0xf4d4b551; 0x83d385c7;
  0x136c9856; 0x646ba8c0; 0xfd62f97a; 0x8a65c9ec; 0x14015c4f; 0x63066cd9;
  0xfa0f3d63; 0x8d080df5; 0x3b6e20c8; 0x4c69105e; 0xd56041e4; 0xa2677172;
  0x3c03e4d1; 0x4b04d447; 0xd20d85fd; 0xa50ab56b; 0x35b5a8fa; 0x42b2986c;
  0xdbbbc9d6; 0xacbcf940; 0x32d86ce3; 0x45df5c75; 0xdcd60dcf; 0xabd13d59;
  0x26d930ac; 0x51de003a; 0xc8d75180; 0xbfd06116; 0x21b4f4b5; 0x56b3c423;
  0xcfba9599; 0xb8bda50f; 0x2802b89e; 0x5f058808; 0xc60cd9b2; 0xb10be924;
  0x2f6f7c87; 0x58684c11; 0xc1611dab; 0xb6662d3d; 0x76dc4190; 0x01db7106;
  0x98d220bc; 0xefd5102a; 0x71b18589; 0x06b6b51f; 0x9fbfe4a5; 0xe8b8d433;
  0x7807c9a2; 0x0f00f934; 0x9609a88e; 0xe10e9818; 0x7f6a0dbb; 0x086d3d2d;
  0x91646c97; 0xe6635c01; 0x6b6b51f4; 0x1c6c6162; 0x856530d8; 0xf262004e;
  0x6c0695ed; 0x1b01a57b; 0x8208f4c1; 0xf50fc457; 0x65b0d9c6; 0x12b7e950;
  0x8bbeb8ea; 0xfcb9887c; 0x62dd1ddf; 0x15da2d49; 0x8cd37cf3; 0xfbd44c65;
  0x4db26158; 0x3ab551ce; 0xa3bc0074; 0xd4bb30e2; 0x4adfa541; 0x3dd895d7;
  0xa4d1c46d; 0xd3d6f4fb; 0x4369e96a; 0x346ed9fc; 0xad678846; 0xda60b8d0;
  0x44042d73; 0x33031de5; 0xaa0a4c5f; 0xdd0d7cc9; 0x5005713c; 0x270241aa;
  0xbe0b1010; 0xc90c2086; 0x5768b525; 0x206f85b3; 0xb966d409; 0xce61e49f;
  0x5edef90e; 0x29d9c998; 0xb0d09822; 0xc7d7a8b4; 0x59b33d17; 0x2eb40d81;
  0xb7bd5c3b; 0xc0ba6cad; 0xedb88320; 0x9abfb3b6; 0x03b6e20c; 0x74b1d29a;
  0xead54739; 0x9dd277af; 0x04db2615; 0x73dc1683; 0xe3630b12; 0x94643b84;
  0x0d6d6a3e; 0x7a6a5aa8; 0xe40ecf0b; 0x9309ff9d; 0x0a00ae27; 0x7d079eb1;
  0xf00f9344; 0x8708a3d2; 0x1e01f268; 0x6906c2fe; 0xf762575d; 0x806567cb;
  0x196c3671; 0x6e6b06e7; 0xfed41b76; 0x89d32be0; 0x10da7a5a; 0x67dd4acc;
  0xf9b9df6f; 0x8ebeeff9; 0x17b7be43; 0x60b08ed5; 0xd6d6a3e8; 0xa1d1937e;
  0x38d8c2c4; 0x4fdff252; 0xd1bb67f1; 0xa6bc5767; 0x3fb506dd; 0x48b2364b;
  0xd80d2bda; 0xaf0a1b4c; 0x36034af6; 0x41047a60; 0xdf60efc3; 0xa867df55;
  0x316e8eef; 0x4669be79; 0xcb61b38c; 0xbc66831a; 0x256fd2a0; 0x5268e236;
  0xcc0c7795; 0xbb0b4703; 0x220216b9; 0x5505262f; 0xc5ba3bbe; 0xb2bd0b28;
  0x2bb45a92; 0x5cb36a04; 0xc2d7ffa7; 0xb5d0cf31; 0x2cd99e8b; 0x5bdeae1d;
  0x9b64c2b0; 0xec63f226; 0x756aa39c; 0x026d930a; 0x9c0906a9; 0xeb0e363f;
  0x72076785; 0x05005713; 0x95bf4a82; 0xe2b87a14; 0x7bb12bae; 0x0cb61b38;
  0x92d28e9b; 0xe5d5be0d; 0x7cdcefb7; 0x0bdbdf21; 0x86d3d2d4; 0xf1d4e242;
  0x68ddb3f8; 0x1fda836e; 0x81be16cd; 0xf6b9265b; 0x6fb077e1; 0x18b74777;
  0x88085ae6; 0xff0f6a70; 0x66063bca; 0x11010b5c; 0x8f659eff; 0xf862ae69;
  0x616bffd3; 0x166ccf45; 0xa00ae278; 0xd70dd2ee; 0x4e048354; 0x3903b3c2;
  0xa7672661; 0xd06016f7; 0x4969474d; 0x3e6e77db; 0xaed16a4a; 0xd9d65adc;
  0x40df0b66; 0x37d83bf0; 0xa9bcae53; 0xdebb9ec5; 0x47b2cf7f; 0x30b5ffe9;
  0xbdbdf21c; 0xcabac28a; 0x53b39330; 0x24b4a3a6; 0xbad03605; 0xcdd70693;
  0x54de5729; 0x23d967bf; 0xb3667a2e; 0xc4614ab8; 0x5d681b02; 0x2a6f2b94;
  0xb40bbe37; 0xc30c8ea1; 0x5a05df1b; 0x2d02ef8d  ].

(** One iteration of [for byte in data]. *)
Definition crc_update (crc byte : Z) : Z :=
  Z.lxor (nth (Z.to_nat (Z.land (Z.lxor crc byte) 0xFF)) crc32_table 0)
         (Z.shiftr crc 8).

Definition _calculate_crc32_stm32 (data : bytes) : Z :=
  let crc := fold_left crc_update data 0xFFFFFFFF in
  Z.land (Z.lnot crc) 0xFFFFFFFF.

(** *** [_xor_encrypt], [_xor_decrypt] *)

Definition _xor_encrypt (data key : bytes) : bytes :=
  match key with
  | [] => data
  | _ :: _ =>
      let key_len := length key in
      fold_left
        (fun result ib =>
           result ++ [Z.lxor (snd ib) (nth (fst ib mod key_len) key 0)])
        (combine (seq 0 (length data)) data) []
  end.

Definition _xor_decrypt (encrypted_data key : bytes) : bytes :=
  _xor_encrypt encrypted_data key.

(** *** [_derive_aes_key_stm32_compatible] *)

Definition default_salt : list Z := [0x05D8FF35; 0x3132564E].

(** The special case at the top: a 32-character hexadecimal password. *)
Definition raw_hex_key (password : str) : option bytes :=
  if (length password =? 32)%nat then
    match fromhex password with
    | Some key_bytes =>
        if (length key_bytes =? 16)%nat then Some key_bytes else None
    | None => None
    end
  else None.

(** [for i in range(min(2, len(salt)))]. *)
Definition mix_salt (temp_key : bytes) (salt : list Z) : bytes :=
  fold_left
    (fun t i =>
       let salt_word := nth i salt 0 in
       let t := set_item t (24 + i * 4)
                  (Z.land (Z.shiftr salt_word 0) 0xFF) in
       let t := set_item t (24 + i * 4 + 1)
                  (Z.land (Z.shiftr salt_word 8) 0xFF) in
       let t := set_item t (24 + i * 4 + 2)
                  (Z.land (Z.shiftr salt_word 16) 0xFF) in
       set_item t (24 + i * 4 + 3)
         (Z.land (Z.shiftr salt_word 24) 0xFF))
    (seq 0 (Nat.min 2 (length salt))) temp_key.

(** The body of [for round_num in range(10)]; the state is
    [(key, temp_key)]. *)
Definition strengthen (st : bytes * bytes) (round_num : nat)
  : bytes * bytes :=
  let '(key, temp_key) := st in
  let key :=
    fold_left
      (fun key i =>
         let key :=
           set_item key i
             (Z.lxor (Z.lxor (nth i temp_key 0) (nth (i + 16) temp_key 0))
                     (Z.land (Z.of_nat round_num) 0xFF)) in
         set_item key i
           (Z.lxor (nth i key 0)
                   (Z.land (Z.of_nat (i + round_num)) 0xFF)))
      (seq 0 16) key in
  let temp_key := set_slice temp_key 0 16 key in
  let temp_key := set_slice temp_key 16 32 key in
  (key, temp_key).

Definition _derive_aes_key_stm32_compatible
  (password : str) (salt : option (list Z)) : bytes :=
  match raw_hex_key password with
  | Some key_bytes => key_bytes
  | None =>
      let salt := match salt with Some l => l | None => default_salt end in
      let temp_key := repeat 0 32 in
      let password_bytes := encode_utf8 password in
      let pwd_len := Nat.min (length password_bytes) 24 in
      let temp_key :=
        set_slice temp_key 0 pwd_len (firstn pwd_len password_bytes) in
      let temp_key := mix_salt temp_key salt in
      let key := repeat 0 16 in
      fst (fold_left strengthen (seq 0 10) (key, temp_key))
  end.

(** *** [_parse_firmware_version] *)

(** [[int(x) for x in parts]]: the first failure raises. *)
Fixpoint ints (parts : list str) : option (list Z) :=
  match parts with
  | [] => Some []
  | p :: ps =>
      match int p with
      | Some n =>
          match ints ps with
          | Some ns => Some (n :: ns)
          | None => None
          end
      | None => None
      end
  end.

(** [while len(parts) < 4: parts.append(0)]. *)
Definition pad4 (parts : list Z) : list Z :=
  parts ++ repeat 0 (4 - length parts).

Definition _parse_firmware_version (version_str : option str) : list Z :=
  if truthy version_str then
    match version_str with
    | Some v =>
        let clean_version := lstrip "v" v in
        match ints (split "." clean_version) with
        | Some parts => firstn 4 (pad4 parts)
        | None => [1; 0; 0; 1]
        end
    | None => [1; 0; 0; 1]
    end
  else [1; 0; 0; 1].

Section Primitives.

(** The primitives of [hashlib] and of the [cryptography] package:
    digests, the raw AES-CBC transformation of a padded message, and
    PBKDF2-HMAC-SHA256 (salt, iterations, length, password). *)
Variable md5 sha1 sha256 : bytes -> bytes.
Variable aes_cbc : bytes -> bytes -> bytes -> bytes.
Variable pbkdf2 : bytes -> Z -> nat -> bytes -> bytes.

(** [calculate_checksum]; the algorithm name is already lower-cased. *)
Definition calculate_checksum (data : bytes) (algorithm : str)
  : result str :=
  if str_eqb algorithm (s "md5") then Ok (hex (md5 data))
  else if str_eqb algorithm (s "sha1") then Ok (hex (sha1 data))
  else if str_eqb algorithm (s "sha256") then Ok (hex (sha256 data))
  else Raise ValueError.

(** [generate_key] *)
Definition generate_key (algorithm : EncryptionType)
  (password : option str) (g : entropy) : bytes * entropy :=
  match algorithm with
  | NONE => ([], g)
  | XOR =>
      match password with
      | Some (c :: p) => (firstn 32 (encode_utf8 (c :: p)), g)
      | _ => urandom 16 g
      end
  | AES_128_CBC =>
      match password with
      | Some (c :: p) =>
          (_derive_aes_key_stm32_compatible (c :: p) None, g)
      | _ => urandom 16 g
      end
  | AES_256_CBC =>
      match password with
      | Some (c :: p) =>
          let salt := encode_utf8 (s "openload_salt_32_bytes_long!") in
          (pbkdf2 salt 100000 32%nat (encode_utf8 (c :: p)), g)
      | _ => urandom 32 g
      end
  end.

(** [padding.PKCS7(128).padder()]. *)
Definition pkcs7_pad (data : bytes) : bytes :=
  let n := (16 - length data mod 16)%nat in
  data ++ repeat (Z.of_nat n) n.

(** [Cipher(algorithms.AES(key), modes.CBC(iv)).encryptor()]:
    [algorithms.AES] rejects a key that is not 128, 192 or 256 bits. *)
Definition cbc_encryptor (key iv padded_data : bytes) : result bytes :=
  if ((length key =? 16) || (length key =? 24) || (length key =? 32))%nat
  then Ok (aes_cbc key iv padded_data)
  else Raise ValueError.

(** [_aes_encrypt] *)
Definition _aes_encrypt (data key : bytes) (g : entropy)
  : result ((bytes * bytes) * entropy) :=
  let '(iv, g) := urandom 16 g in
  let padded_data := pkcs7_pad data in
  bind (cbc_encryptor key iv padded_data) (fun encrypted_data =>
  Ok ((encrypted_data, iv), g)).

(** [_aes_encrypt_stm32_format] *)
Definition _aes_encrypt_stm32_format (data key : bytes)
  (password : option str) (firmware_version : option str) (g : entropy)
  : result ((bytes * dict any) * entropy) :=
  let '(iv, g) := urandom 16 g in
  let padded_data := pkcs7_pad data in
  bind (cbc_encryptor key iv padded_data) (fun encrypted_data =>
  let firmware_crc32 := _calculate_crc32_stm32 data in
  let encrypted_crc32 := _calculate_crc32_stm32 encrypted_data in
  let key_hash := md5 key in
  bind (pack_I 0x41455331) (fun header =>
  bind (pack_I 0x01) (fun b => let header := header ++ b in
  bind (pack_I (Z.of_nat (length data))) (fun b =>
    let header := header ++ b in
  bind (pack_I (Z.of_nat (length encrypted_data))) (fun b =>
    let header := header ++ b in
  bind (pack_I firmware_crc32) (fun b => let header := header ++ b in
  bind (pack_I encrypted_crc32) (fun b => let header := header ++ b in
  let header := header ++ iv in
  let header := header ++ key_hash in
  match _parse_firmware_version firmware_version with
  | [major; minor; patch; build] =>
      bind (pack_H major) (fun b1 =>
      bind (pack_H minor) (fun b2 =>
      bind (pack_H patch) (fun b3 =>
      bind (pack_H build) (fun b4 =>
      let header := header ++ b1 ++ b2 ++ b3 ++ b4 in
      let complete_firmware := header ++ encrypted_data in
      Ok ((complete_firmware,
           [(s "algorithm", AStr (s "aes-128-cbc"));
            (s "key_length", AInt (Z.of_nat (length key)));
            (s "iv", AStr (hex iv));
            (s "block_size", AInt 16);
            (s "firmware_size", AInt (Z.of_nat (length data)));
            (s "encrypted_size",
              AInt (Z.of_nat (length encrypted_data)));
            (s "header_size", AInt (Z.of_nat (length header)))]),
          g)))))
  | _ => Raise ValueError
  end))))))).

(** [encrypt_firmware] *)
Definition encrypt_firmware (data : bytes) (algorithm : EncryptionType)
  (key : option bytes) (password : option str)
  (firmware_version : option str) (g : entropy)
  : result ((bytes * dict any) * entropy) :=
  match algorithm with
  | NONE => Ok ((data, [(s "algorithm", AStr (value algorithm))]), g)
  | _ =>
      let '(key, g) :=
        match key with
        | None => generate_key algorithm password g
        | Some k => (k, g)
        end in
      match algorithm with
      | XOR =>
          Ok ((_xor_encrypt data key,
               [(s "algorithm", AStr (value algorithm));
                (s "key_length", AInt (Z.of_nat (length key)))]), g)
      | AES_128_CBC =>
          _aes_encrypt_stm32_format data key password firmware_version g
      | _ =>
          bind (_aes_encrypt data key g) (fun r =>
          let '((encrypted_data, iv), g) := r in
          Ok ((encrypted_data,
               [(s "algorithm", AStr (value algorithm));
                (s "key_length", AInt (Z.of_nat (length key)));
                (s "iv", AStr (hex iv));
                (s "block_size", AInt 16)]), g))
      end
  end.

(** [padding.PKCS7(128).unpadder()]: invalid padding raises. *)
Definition pkcs7_unpad (padded : bytes) : result bytes :=
  match rev padded with
  | [] => Raise ValueError
  | n :: _ =>
      let k := Z.to_nat n in
      if (1 <=? n) && (n <=? 16) && (k <=? length padded)%nat
         && forallb (Z.eqb n) (skipn (length padded - k) padded)
      then Ok (firstn (length padded - k) padded)
      else Raise ValueError
  end.

Variable aes_cbc_inv : bytes -> bytes -> bytes -> bytes.

(** [_aes_decrypt] *)
Definition _aes_decrypt (encrypted_data key iv : bytes) : result bytes :=
  if ((length key =? 16) || (length key =? 24) || (length key =? 32))%nat
  then pkcs7_unpad (aes_cbc_inv key iv encrypted_data)
  else Raise ValueError.

(** [decrypt_firmware] *)
Definition decrypt_firmware (encrypted_data : bytes)
  (algorithm : EncryptionType) (key : bytes)
  (metadata : option (dict any)) : result bytes :=
  match algorithm with
  | NONE => Ok encrypted_data
  | XOR => Ok (_xor_decrypt encrypted_data key)
  | _ =>
      match metadata with
      | Some ((_ :: _) as m) =>
          match dict_get m (s "iv") with
          | Some (AStr h) =>
              match fromhex h with
              | Some iv => _aes_decrypt encrypted_data key iv
              | None => Raise ValueError
              end
          | _ => Raise ValueError
          end
      | _ => Raise ValueError
      end
  end.

End Primitives.

End Crypto.

(** ** The regular expressions of [_extract_version_from_filename] *)

Module Regex.
Import Py.

(** The patterns are sequences of one-character classes under a
    quantifier, with one capturing group; [re.search] is the leftmost
    match of a greedy backtracking matcher. *)
Inductive quantifier : Type :=
| One
| Optional
| Plus
| Exactly (n : nat).

Record atom : Type := { class : ascii -> bool; quant : quantifier }.

(** [before] stands in front of the group, [group1] is inside it. *)
Record pattern : Type := { before : list atom; group1 : list atom }.

Definition orelse {A} (a b : option A) : option A :=
  match a with
  | Some x => Some x
  | None => b
  end.

(** The matchers take the continuation [k] that matches the rest of
    the pattern; [None] makes the caller backtrack. *)
Definition one {A} (p : ascii -> bool) (k : str -> option A) (t : str)
  : option A :=
  match t with
  | c :: t' => if p c then k t' else None
  | [] => None
  end.

Fixpoint star {A} (p : ascii -> bool) (k : str -> option A) (t : str)
  : option A :=
  match t with
  | c :: t' => if p c then orelse (star p k t') (k t) else k t
  | [] => k []
  end.

Fixpoint exactly {A} (n : nat) (p : ascii -> bool) (k : str -> option A)
  (t : str) : option A :=
  match n with
  | O => k t
  | S m => one p (exactly m p k) t
  end.

Fixpoint match_atoms {A} (atoms : list atom) (k : str -> option A)
  (t : str) : option A :=
  match atoms with
  | [] => k t
  | a :: atoms' =>
      let k' := match_atoms atoms' k in
      match quant a with
      | One => one (class a) k' t
      | Optional => orelse (one (class a) k' t) (k' t)
      | Plus => one (class a) (star (class a) k') t
      | Exactly n => exactly n (class a) k' t
      end
  end.

(** A match starting at the head of [t]; the result is [group(1)]. *)
Definition match_here (p : pattern) (t : str) : option str :=
  match_atoms (before p)
    (fun tg =>
       match_atoms (group1 p)
         (fun rest => Some (firstn (length tg - length rest) tg)) tg)
    t.

(** [re.search(p, t).group(1)], [None] when there is no match. *)
Fixpoint search (p : pattern) (t : str) : option str :=
  match match_here p t with
  | Some g => Some g
  | None =>
      match t with
      | [] => None
      | _ :: t' => search p t'
      end
  end.

Definition chr (c : ascii) : ascii -> bool := Ascii.eqb c.

(** [v] under [re.IGNORECASE]. *)
Definition v_nocase (c : ascii) : bool := Ascii.eqb c "v" || Ascii.eqb c "V".

(** [\d+] on ASCII text, where [\d] is [[0-9]]. *)
Definition digits : atom := {| class := is_digit; quant := Plus |}.
Definition dot : atom := {| class := chr "."; quant := One |}.
Definition opt_v : atom := {| class := v_nocase; quant := Optional |}.

End Regex.

(** ** [server/core/firmware_manager.py] *)

Module FirmwareManager.
Import Py Crypto Regex.

Record FirmwareInfo : Type := {
  id : str;
  filename : str;
  original_filename : str;
  version : str;
  size : Z;
  checksum : str;
  upload_time : str;
  target_device : str;
  is_encrypted : bool;
  encryption_algorithm : str;
  encryption_metadata : dict any;
  metadata : dict any
}.

(** The manager: the in-memory catalog [firmwares], the files of
    [upload_dir] by name, and the content of [metadata.json] ([None]
    while the file does not exist). *)
Record manager : Type := {
  firmwares : dict FirmwareInfo;
  files : dict bytes;
  metadata_file : option (dict FirmwareInfo)
}.

(** What [open(path, 'wb')] followed by [write] can do: succeed, fail to
    open (the file is left alone), or fail after the file was truncated
    and [n] bytes were written. *)
Inductive write_outcome : Type :=
| Written
| OpenFailed
| WriteFailed (n : nat).

Definition _save_metadata (m : manager) : manager :=
  {| firmwares := firmwares m;
     files := files m;
     metadata_file := Some (firmwares m) |}.

(** *** Versions *)

(** The [while len(parts) < 4] loop of [_normalize_version]; it runs
    [4 - len(parts)] times. *)
Fixpoint fill_parts (now : Z) (n : nat) (parts : list str) : list str :=
  match n with
  | O => parts
  | S n' =>
      if (length parts =? 3)%nat
      then fill_parts now n' (parts ++ [str_of_int (now mod 10000)])
      else fill_parts now n' (parts ++ [s "0"])
  end.

Definition _normalize_version (now : Z) (version : str) : str :=
  let parts := split "." version in
  let parts := fill_parts now (4 - length parts) parts in
  let parts := firstn 4 parts in
  join "." parts.

(** The four patterns, in the order of the list [patterns]. *)
Definition pattern4 : pattern :=
  {| before := [opt_v];
     group1 := [digits; dot; digits; dot; digits; dot; digits] |}.
Definition pattern3 : pattern :=
  {| before := [opt_v]; group1 := [digits; dot; digits; dot; digits] |}.
Definition pattern2 : pattern :=
  {| before := [opt_v]; group1 := [digits; dot; digits] |}.
Definition pattern1 : pattern :=
  {| before := [opt_v]; group1 := [digits] |}.

Definition patterns : list pattern :=
  [pattern4; pattern3; pattern2; pattern1].

Definition timestamp_pattern : pattern :=
  {| before := [];
     group1 := [{| class := is_digit; quant := Exactly 8 |}] |}.

(** [for pattern in patterns: ... return] *)
Fixpoint first_match (now : Z) (ps : list pattern) (filename : str)
  : option str :=
  match ps with
  | [] => None
  | p :: ps' =>
      match search p filename with
      | Some version => Some (_normalize_version now version)
      | None => first_match now ps' filename
      end
  end.

Definition _extract_version_from_filename (now : Z) (filename : str)
  : str :=
  match first_match now patterns filename with
  | Some version => version
  | None =>
      match search timestamp_pattern filename with
      | Some timestamp => s "1.0.0." ++ timestamp
      | None => s "1.0.0.0"
      end
  end.

(** [version_tuple] inside [_compare_versions]. *)
Definition version_tuple (version : str) : list Z :=
  match ints (split "." (lstrip "v" version)) with
  | Some t => t
  | None => [0; 0; 0; 0]
  end.

Definition _compare_versions (version1 version2 : str) : Z :=
  let v1_tuple := version_tuple version1 in
  let v2_tuple := version_tuple version2 in
  match lex_compare Z.compare v1_tuple v2_tuple with
  | Gt => 1
  | Lt => -1
  | Eq => 0
  end.

(** *** Listing *)

(** [version_sort_key] inside [list_firmwares]. *)
Definition version_sort_key (firmware : FirmwareInfo) : list Z * str :=
  match ints (split "." (lstrip "v" (version firmware))) with
  | Some parts => (firstn 4 (pad4 parts), upload_time firmware)
  | None => ([0; 0; 0; 0], upload_time firmware)
  end.

(** Comparison of two sort keys, as Python compares tuples. *)
Definition key_compare (a b : list Z * str) : comparison :=
  match lex_compare Z.compare (fst a) (fst b) with
  | Eq => str_compare (snd a) (snd b)
  | c => c
  end.

(** [list.sort(key=version_sort_key, reverse=True)].  Python's sort is
    stable, also when reversed: elements with equal keys keep their
    order.  A stable insertion sort produces the same list. *)
Fixpoint insert_desc (x : FirmwareInfo) (l : list FirmwareInfo)
  : list FirmwareInfo :=
  match l with
  | [] => [x]
  | y :: l' =>
      match key_compare (version_sort_key y) (version_sort_key x) with
      | Gt => y :: insert_desc x l'
      | _ => x :: l
      end
  end.

Definition sort_reverse (l : list FirmwareInfo) : list FirmwareInfo :=
  fold_right insert_desc [] l.

Definition list_firmwares (m : manager) (target_device_filter : option str)
  (encrypted_only : option bool) : list FirmwareInfo :=
  let firmwares := map snd (firmwares m) in
  let firmwares :=
    if truthy target_device_filter then
      match target_device_filter with
      | Some d => filter (fun fw => str_eqb (target_device fw) d) firmwares
      | None => firmwares
      end
    else firmwares in
  let firmwares :=
    match encrypted_only with
    | Some e => filter (fun fw => Bool.eqb (is_encrypted fw) e) firmwares
    | None => firmwares
    end in
  sort_reverse firmwares.

Definition get_latest_version_firmware (m : manager)
  (target_device_filter : option str) : option FirmwareInfo :=
  match list_firmwares m target_device_filter None with
  | [] => None
  | first :: rest =>
      Some (fold_left
              (fun latest_firmware firmware =>
                 if _compare_versions (version firmware)
                      (version latest_firmware) >? 0
                 then firmware else latest_firmware)
              rest first)
  end.

(** *** Files and lookups *)

(** [Path.stem]: the name without its last suffix. *)
Definition stem (name : str) : str :=
  let fix last_dot (t : str) (i : nat) (found : option nat) : option nat :=
    match t with
    | [] => found
    | c :: t' =>
        last_dot t' (S i) (if Ascii.eqb c "." then Some i else found)
    end in
  match last_dot name O None with
  | Some i =>
      if (0 <? i)%nat && (i <? length name - 1)%nat
      then firstn i name else name
  | None => name
  end.

Definition get_firmware (m : manager) (firmware_id : str)
  : option FirmwareInfo :=
  dict_get (firmwares m) firmware_id.

Definition get_firmware_by_filename (m : manager) (name : str)
  : option FirmwareInfo :=
  find (fun fw => str_eqb (filename fw) name
                  || str_eqb (original_filename fw) name)
       (map snd (firmwares m)).

(** [get_firmware_path]: the name of the file inside [upload_dir]. *)
Definition get_firmware_path (m : manager) (firmware_id : str)
  : option str :=
  match get_firmware m firmware_id with
  | Some firmware => Some (filename firmware)
  | None => None
  end.

(** [read_firmware_content]; [read_ok] tells whether [f.read()]
    succeeds on an existing file. *)
Definition read_firmware_content (m : manager) (read_ok : bool)
  (firmware_id : str) : option bytes :=
  match get_firmware_path m firmware_id with
  | Some file_path =>
      match dict_get (files m) file_path with
      | Some content => if read_ok then Some content else None
      | None => None
      end
  | None => None
  end.

(** [with open(file_path, 'wb') as f: f.write(data)]. *)
Definition write_file (fs : dict bytes) (file_path : str) (data : bytes)
  (w : write_outcome) : result (dict bytes) :=
  match w with
  | Written => Ok (dict_set fs file_path data)
  | OpenFailed => Raise OSError
  | WriteFailed _ => Raise OSError
  end.

(** The files left behind by [write_file], also when it raises. *)
Definition files_after_write (fs : dict bytes) (file_path : str)
  (data : bytes) (w : write_outcome) : dict bytes :=
  match w with
  | Written => dict_set fs file_path data
  | OpenFailed => fs
  | WriteFailed n => dict_set fs file_path (firstn n data)
  end.

Section Primitives.

Variable md5 : bytes -> bytes.
Variable aes_cbc : bytes -> bytes -> bytes -> bytes.
Variable pbkdf2 : bytes -> Z -> nat -> bytes -> bytes.

(** [crypto_manager.calculate_checksum(content)]: with the default
    algorithm ['md5'] the call takes the first branch. *)
Definition checksum_of (content : bytes) : str := hex (md5 content).

(** *** [add_firmware]

    [file_path] is the name of a file of [upload_dir]; [now] is
    [int(time.time())] and [now_iso] is [datetime.now().isoformat()]. *)
Definition add_firmware (m : manager) (file_path original_filename : str)
  (version : option str) (target_device : str)
  (metadata : option (dict any)) (now : Z) (now_iso : str)
  : result (FirmwareInfo * manager) :=
  match dict_get (files m) file_path with
  | None => Raise FileNotFoundError
  | Some content =>
      let checksum := checksum_of content in
      let firmware_id :=
        s "fw_" ++ str_of_int now ++ s "_" ++ stem file_path in
      let version :=
        match version with
        | Some (c :: v) => c :: v
        | _ => _extract_version_from_filename now original_filename
        end in
      let firmware :=
        {| id := firmware_id;
           filename := file_path;
           original_filename := original_filename;
           version := version;
           size := Z.of_nat (length content);
           checksum := checksum;
           upload_time := now_iso;
           target_device := target_device;
           is_encrypted := false;
           encryption_algorithm := s "none";
           encryption_metadata := [];
           metadata := match metadata with Some d => d | None => [] end
        |} in
      let m :=
        {| firmwares := dict_set (firmwares m) firmware_id firmware;
           files := files m;
           metadata_file := metadata_file m |} in
      Ok (firmware, _save_metadata m)
  end.

(** *** [remove_firmware] *)
Definition remove_firmware (m : manager) (firmware_id : str)
  : bool * manager :=
  match dict_get (firmwares m) firmware_id with
  | None => (false, m)
  | Some firmware =>
      let m :=
        {| firmwares := dict_del (firmwares m) firmware_id;
           files := dict_del (files m) (filename firmware);
           metadata_file := metadata_file m |} in
      (true, _save_metadata m)
  end.

(** *** [encrypt_firmware]

    The [try] body; an exception makes the method return [False].
    The second component is the manager as the call leaves it. *)
Definition encrypt_firmware_body (m : manager) (firmware_id : str)
  (algorithm : EncryptionType) (password : option str)
  (key : option bytes) (read_ok : bool) (w : write_outcome)
  (g : entropy) : result bool * manager * entropy :=
  match get_firmware m firmware_id with
  | None => (Raise ValueError, m, g)
  | Some firmware =>
      match read_firmware_content m read_ok firmware_id with
      | None | Some [] => (Raise ValueError, m, g)
      | Some content =>
          if is_encrypted firmware then (Ok true, m, g)
          else
            let firmware_version := version firmware in
            match Crypto.encrypt_firmware md5 aes_cbc pbkdf2 content
                    algorithm key password (Some firmware_version) g with
            | Raise e => (Raise e, m, g)
            | Ok ((encrypted_content, new_metadata), g) =>
                let file_path := filename firmware in
                match write_file (files m) file_path
                        encrypted_content w with
                | Raise e =>
                    (Raise e,
                     {| firmwares := firmwares m;
                        files := files_after_write (files m) file_path
                                   encrypted_content w;
                        metadata_file := metadata_file m |}, g)
                | Ok fs =>
                    let em :=
                      dict_update (encryption_metadata firmware)
                        new_metadata in
                    let em :=
                      if truthy password then
                        match password with
                        | Some p => dict_set em (s "password") (AStr p)
                        | None => em
                        end
                      else if truthy key then
                        match key with
                        | Some k =>
                            dict_set em (s "password") (AStr (hex k))
                        | None => em
                        end
                      else em in
                    let firmware :=
                      {| id := id firmware;
                         filename := filename firmware;
                         original_filename := original_filename firmware;
                         version := version firmware;
                         size := Z.of_nat (length encrypted_content);
                         checksum := checksum_of encrypted_content;
                         upload_time := upload_time firmware;
                         target_device := target_device firmware;
                         is_encrypted := true;
                         encryption_algorithm := value algorithm;
                         encryption_metadata := em;
                         metadata := metadata firmware |} in
                    let m :=
                      {| firmwares :=
                           dict_set (firmwares m) firmware_id firmware;
                         files := fs;
                         metadata_file := metadata_file m |} in
                    (Ok true, _save_metadata m, g)
                end
            end
      end
  end.

Definition encrypt_firmware (m : manager) (firmware_id : str)
  (algorithm : EncryptionType) (password : option str)
  (key : option bytes) (read_ok : bool) (w : write_outcome)
  (g : entropy) : bool * manager * entropy :=
  match encrypt_firmware_body m firmware_id algorithm password key
          read_ok w g with
  | (Ok b, m', g') => (b, m', g')
  | (Raise _, m', g') => (false, m', g')
  end.

(** *** Start-up: [_create_firmware_from_file],
    [_scan_existing_files], [_load_metadata]

    [now] gives [int(time.time())] and [ctime_iso] the creation time
    of a file, at the moment the file is visited; [scan_time] is
    [datetime.now().isoformat()]. *)
Definition _create_firmware_from_file (m : manager) (name : str)
  (now : Z) (ctime_iso scan_time : str) : result FirmwareInfo :=
  match dict_get (files m) name with
  | None => Raise FileNotFoundError
  | Some content =>
      let checksum := checksum_of content in
      let firmware_id :=
        s "fw_" ++ str_of_int now ++ s "_" ++ stem name in
      let version := _extract_version_from_filename now name in
      Ok {| id := firmware_id;
            filename := name;
            original_filename := name;
            version := version;
            size := Z.of_nat (length content);
            checksum := checksum;
            upload_time := ctime_iso;
            target_device := s "STM32F103ZET6";
            is_encrypted := false;
            encryption_algorithm := s "none";
            encryption_metadata := [];
            metadata := [(s "scanned", ABool true);
                         (s "scan_time", AStr scan_time)] |}
  end.

(** [name] matches [*.bin]. *)
Definition is_bin (name : str) : bool :=
  match rev name with
  | n :: i :: b :: d :: _ =>
      Ascii.eqb n "n" && Ascii.eqb i "i" && Ascii.eqb b "b"
      && Ascii.eqb d "."
  | _ => false
  end.

Definition _scan_existing_files (m : manager) (now : str -> Z)
  (ctime_iso : str -> str) (scan_time : str) : manager :=
  let m :=
    fold_left
      (fun m name =>
         if str_eqb name (s "metadata.json") then m
         else
           match _create_firmware_from_file m name (now name)
                   (ctime_iso name) scan_time with
           | Ok firmware =>
               {| firmwares :=
                    dict_set (firmwares m) (id firmware) firmware;
                  files := files m;
                  metadata_file := metadata_file m |}
           | Raise _ => m
           end)
      (filter is_bin (map fst (files m))) m in
  match firmwares m with
  | [] => m
  | _ :: _ => _save_metadata m
  end.

(** [__init__] and [_load_metadata] on the files a previous run left:
    the catalog is read back from [metadata.json] when it exists. *)
Definition _load_metadata (fs : dict bytes)
  (sidecar : option (dict FirmwareInfo)) (now : str -> Z)
  (ctime_iso : str -> str) (scan_time : str) : manager :=
  match sidecar with
  | Some data =>
      {| firmwares :=
           fold_left (fun acc kv => dict_set acc (fst kv) (snd kv))
             data [];
         files := fs;
         metadata_file := sidecar |}
  | None =>
      _scan_existing_files
        {| firmwares := []; files := fs; metadata_file := None |}
        now ctime_iso scan_time
  end.

End Primitives.

End FirmwareManager.

(** ** Reference definitions the program is compared with *)

Module Reference.
Import Py Crypto Regex FirmwareManager.

(** The reflected CRC-32 of polynomial [0xEDB88320], bit by bit: the
    register is shifted right once per bit and the polynomial is added
    when the bit shifted out is set. *)
Definition crc_shift (c : Z) : Z :=
  if Z.odd c then Z.lxor (Z.shiftr c 1) 0xEDB88320 else Z.shiftr c 1.

Definition crc_byte (crc b : Z) : Z := Nat.iter 8 crc_shift (Z.lxor crc b).

Definition crc32_reflected (data : bytes) : Z :=
  Z.lxor (fold_left crc_byte data 0xFFFFFFFF) 0xFFFFFFFF.

(** The XOR key stream from position [i] on. *)
Fixpoint xor_from (key : bytes) (i : nat) (data : bytes) : bytes :=
  match data with
  | [] => []
  | b :: d =>
      Z.lxor b (nth (i mod length key) key 0) :: xor_from key (S i) d
  end.

(** The embedded-compatible key derivation, as the design describes
    it.  A password of exactly 32 hexadecimal characters is the key
    itself. *)
Definition is_hex (c : ascii) : bool :=
  match hexval c with
  | Some _ => true
  | None => false
  end.

Definition hex32 (password : str) : bool :=
  (length password =? 32)%nat && forallb is_hex password.

Fixpoint decode_pairs (t : str) : bytes :=
  match t with
  | a :: b :: r =>
      match hexval a, hexval b with
      | Some h, Some l => 16 * h + l :: decode_pairs r
      | _, _ => []
      end
  | _ => []
  end.

(** Bytes 0-23: the password bytes cut to 24 and padded with zeros;
    bytes 24-31: the two 32-bit constants, little-endian. *)
Definition kdf_scratch (password : str) : bytes :=
  let pw := firstn 24 (encode_utf8 password) in
  pw ++ repeat 0 (24 - length pw)
     ++ le_bytes 4 0x05D8FF35 ++ le_bytes 4 0x3132564E.

(** The candidate key of one round. *)
Definition kdf_candidate (round : nat) (scratch : bytes) : bytes :=
  map (fun i =>
         Z.lxor
           (Z.lxor (Z.lxor (nth i scratch 0) (nth (i + 16) scratch 0))
                   (Z.land (Z.of_nat round) 0xFF))
           (Z.land (Z.of_nat (i + round)) 0xFF))
      (seq 0 16).

(** After a round both halves of the scratch buffer are the candidate. *)
Definition kdf_round (scratch : bytes) (round : nat) : bytes :=
  kdf_candidate round scratch ++ kdf_candidate round scratch.

Definition kdf_embedded (password : str) : bytes :=
  if hex32 password then decode_pairs password
  else firstn 16 (fold_left kdf_round (seq 0 10) (kdf_scratch password)).

(** The key every password that is not 32 hexadecimal characters
    derives: [key[i] = 9 XOR ((i + 9) & 0xFF)]. *)
Definition kdf_fixed_key : bytes :=
  map (fun i => Z.lxor 9 (Z.land (Z.of_nat i + 9) 0xFF)) (seq 0 16).

(** The 64-byte header of the AES-128 image, field by field:
    magic, header version, firmware size, encrypted size, CRC-32 of the
    plaintext, CRC-32 of the ciphertext, IV, key hash, version. *)
Definition uint16 (n : Z) : Prop := 0 <= n <= 65535.

Definition stm32_header (data encrypted_data iv key_hash : bytes)
  (fw_version : list Z) : bytes :=
  le_bytes 4 0x41455331 ++ le_bytes 4 1
  ++ le_bytes 4 (Z.of_nat (length data))
  ++ le_bytes 4 (Z.of_nat (length encrypted_data))
  ++ le_bytes 4 (_calculate_crc32_stm32 data)
  ++ le_bytes 4 (_calculate_crc32_stm32 encrypted_data)
  ++ iv ++ key_hash ++ flat_map (le_bytes 2) fw_version.

(** Stand-ins for the external primitives, for evaluating the program:
    a digest of 16 zero bytes and a cipher that returns its input. *)
Definition zero_digest (_ : bytes) : bytes := repeat 0 16.
Definition null_cipher (_ _ data : bytes) : bytes := data.
Definition null_kdf (_ : bytes) (_ : Z) (_ : nat) (p : bytes) : bytes := p.
Definition zero_entropy : entropy :=
  {| source := fun _ => 0; consumed := 0 |}.

(** The words a sequence of atoms matches. *)
Definition atom_lang (a : atom) (w : str) : Prop :=
  match quant a with
  | One => exists c, w = [c] /\ class a c = true
  | Optional => w = [] \/ exists c, w = [c] /\ class a c = true
  | Plus => w <> [] /\ forallb (class a) w = true
  | Exactly n => length w = n /\ forallb (class a) w = true
  end.

Fixpoint atoms_lang (atoms : list atom) (w : str) : Prop :=
  match atoms with
  | [] => w = []
  | a :: atoms' =>
      exists w1 w2,
        w = w1 ++ w2 /\ atom_lang a w1 /\ atoms_lang atoms' w2
  end.

(** A non-empty run of decimal digits, and a version of exactly four
    such runs separated by dots. *)
Definition numeric (w : str) : bool :=
  match w with
  | [] => false
  | _ :: _ => forallb is_digit w
  end.

Definition four_components (v : str) : bool :=
  match split "." v with
  | [a; b; c; d] => numeric a && numeric b && numeric c && numeric d
  | _ => false
  end.

(** The order of [list_firmwares]: [x] may stand before [y]. *)
Definition key_ge (x y : FirmwareInfo) : Prop :=
  key_compare (version_sort_key x) (version_sort_key y) <> Lt.

(** Sample records and managers. *)
Definition sample_record (name ver time : str) (encrypted : bool)
  : FirmwareInfo :=
  {| id := s "fw_1_" ++ name;
     filename := name ++ s ".bin";
     original_filename := name ++ s ".bin";
     version := ver;
     size := 3;
     checksum := [];
     upload_time := time;
     target_device := s "STM32F103ZET6";
     is_encrypted := encrypted;
     encryption_algorithm := if encrypted then s "xor" else s "none";
     encryption_metadata := [];
     metadata := [] |}.

Definition manager_of (records : list FirmwareInfo)
  (fs : dict bytes) : manager :=
  {| firmwares := map (fun r => (id r, r)) records;
     files := fs;
     metadata_file := Some (map (fun r => (id r, r)) records) |}.

Definition short_version : FirmwareInfo :=
  sample_record (s "a") (s "1.2") (s "2024-01-02T00:00:00") false.
Definition long_version : FirmwareInfo :=
  sample_record (s "b") (s "1.2.0.0") (s "2024-01-01T00:00:00") false.

Definition encrypted_without_file : manager :=
  manager_of
    [sample_record (s "a") (s "1.0.0.0") (s "2024-01-01T00:00:00") true]
    [].

Definition plain_with_file : manager :=
  manager_of
    [sample_record (s "a") (s "1.0.0.0") (s "2024-01-01T00:00:00") false]
    [(s "a.bin", [1; 2; 3])].

(** The catalog invariants: one entry per id, stored under its id. *)
Definition ids_unique (d : dict FirmwareInfo) : Prop :=
  NoDup (map fst d) /\ Forall (fun kv => id (snd kv) = fst kv) d.

Definition versions_four (d : dict FirmwareInfo) : Prop :=
  Forall (fun kv => four_components (version (snd kv)) = true) d.

Definition empty_manager (fs : dict bytes) : manager :=
  {| firmwares := []; files := fs; metadata_file := None |}.

(** A property of all entries, in memory and in the sidecar. *)
Definition catalog_all (E : str * FirmwareInfo -> Prop) (m : manager)
  : Prop :=
  Forall E (firmwares m)
  /\ match metadata_file m with
     | Some d => Forall E d
     | None => True
     end.

Definition catalog_nodup (m : manager) : Prop :=
  NoDup (map fst (firmwares m))
  /\ match metadata_file m with
     | Some d => NoDup (map fst d)
     | None => True
     end.

Definition stored_under_id (kv : str * FirmwareInfo) : Prop :=
  id (snd kv) = fst kv.

Definition version_four (kv : str * FirmwareInfo) : Prop :=
  four_components (version (snd kv)) = true.

(** The operations on a catalog, with the inputs each one takes from
    its caller and from the environment.  [Restart] builds a new manager
    on the files and the sidecar the previous one left. *)
Inductive operation : Type :=
| Add (file_path original_filename : str) (version : option str)
    (target_device : str) (metadata : option (dict any))
    (now : Z) (now_iso : str)
| Remove (firmware_id : str)
| Encrypt (firmware_id : str) (algorithm : EncryptionType)
    (password : option str) (key : option bytes)
    (read_ok : bool) (w : write_outcome) (g : entropy)
| Restart (now : str -> Z) (ctime_iso : str -> str) (scan_time : str).

Definition perform (md5 : bytes -> bytes)
  (aes_cbc : bytes -> bytes -> bytes -> bytes)
  (pbkdf2 : bytes -> Z -> nat -> bytes -> bytes)
  (m : manager) (op : operation) : manager :=
  match op with
  | Add file_path original_filename version target_device metadata
      now now_iso =>
      match add_firmware md5 m file_path original_filename version
              target_device metadata now now_iso with
      | Ok (_, m') => m'
      | Raise _ => m
      end
  | Remove firmware_id => snd (remove_firmware m firmware_id)
  | Encrypt firmware_id algorithm password key read_ok w g =>
      snd (fst (encrypt_firmware md5 aes_cbc pbkdf2 m firmware_id
                  algorithm password key read_ok w g))
  | Restart now ctime_iso scan_time =>
      _load_metadata md5 (files m) (metadata_file m) now ctime_iso
        scan_time
  end.

(** An explicit version, when one is passed, has four numeric
    components. *)
Definition explicit_version_ok (op : operation) : Prop :=
  match op with
  | Add _ _ (Some (c :: v)) _ _ _ _ => four_components (c :: v) = true
  | _ => True
  end.

(** The file name an add infers the version from, when it is passed
    none, is ASCII text. *)
Definition inferred_from_ascii (op : operation) : Prop :=
  match op with
  | Add _ _ (Some (_ :: _)) _ _ _ _ => True
  | Add _ original_filename _ _ _ _ _ => isascii original_filename = true
  | _ => True
  end.

(** The names of the files of a directory are ASCII text. *)
Definition ascii_names (fs : dict bytes) : Prop :=
  Forall (fun name => isascii name = true) (map fst fs).

End Reference.

(** ** Further definitions used by the properties of Part II *)

Module Checks.
Import Py Crypto Regex FirmwareManager Reference.

(** The two filters of [list_firmwares] as one predicate. *)
Definition selected (target_device_filter : option str)
  (encrypted_only : option bool) (fw : FirmwareInfo) : bool :=
  (if truthy target_device_filter then
     match target_device_filter with
     | Some d => str_eqb (target_device fw) d
     | None => true
     end
   else true)
  && match encrypted_only with
     | Some e => Bool.eqb (is_encrypted fw) e
     | None => true
     end.

(** A version of four numeric components, with or without leading [v]. *)
Definition well_formed_version (v : str) : bool :=
  four_components (lstrip "v" v).

(** No component has more digits than [int] converts. *)
Definition within_int_limit (v : str) : bool :=
  forallb (fun w => Z.of_nat (length w) <=? int_max_str_digits)
    (split "." (lstrip "v" v)).

Definition two_releases : manager :=
  manager_of
    [sample_record (s "a") (s "1.0.0.0") (s "2024-01-01T00:00:00") false;
     sample_record (s "b") (s "v1.2.0.0") (s "2024-01-02T00:00:00") false]
    [].

Definition dated_release : manager :=
  manager_of
    [sample_record (s "a") (s "20240902.0.0.1234")
       (s "2024-09-02T00:00:00") false]
    [(s "a.bin", [1; 2; 3])].

(** A component without a dot. *)
Definition no_dot (w : str) : bool :=
  forallb (fun c => negb (Ascii.eqb c ".")) w.

(** What start-up knows about the records it creates. *)
Definition scanned_entry (kv : str * FirmwareInfo) : Prop :=
  id (snd kv) = fst kv
  /\ is_encrypted (snd kv) = false
  /\ original_filename (snd kv) = filename (snd kv)
  /\ target_device (snd kv) = s "STM32F103ZET6".

(** The key lengths [get_supported_algorithms] lists: 1 to 32 bytes for
    XOR, 16 for AES-128, 32 for AES-256, no key for no encryption. *)
Definition key_length_allowed (algorithm : EncryptionType) (n : nat)
  : Prop :=
  match algorithm with
  | NONE => n = 0%nat
  | XOR => (1 <= n <= 32)%nat
  | AES_128_CBC => n = 16%nat
  | AES_256_CBC => n = 32%nat
  end.

End Checks.

(** ** [server/services/firmware_service.py] *)

Module Services.
Import Py Crypto Regex FirmwareManager.

(** The search loop of [get_firmware_by_version]: the version asked for
    gets a leading [v] unless it has one, and the first listed record
    with exactly that version is the match. *)
Definition matching_firmware (m : manager) (version : str)
  (target_device_filter : option str) : option FirmwareInfo :=
  let firmwares := list_firmwares m target_device_filter None in
  let version :=
    match version with
    | c :: _ => if Ascii.eqb c "v" then version else "v"%char :: version
    | [] => "v"%char :: version
    end in
  find (fun firmware => str_eqb (FirmwareManager.version firmware) version)
    firmwares.

End Services.

(* ================================================================== *)
(** * Part II: properties *)
(* ================================================================== *)

(** ** Lists and loops *)

Section LoopFacts.
Import Py.

Lemma fold_left_append {A B} (f : A -> B) (l : list A) (acc : list B) :
  fold_left (fun r x => r ++ [f x]) l acc = acc ++ map f l.
Proof.
  revert acc; induction l as [|x l IH]; intros acc; simpl.
  - now rewrite app_nil_r.
  - rewrite IH, <- app_assoc. reflexivity.
Qed.

Lemma set_item_length (a : bytes) (i : nat) (v : Z) :
  length (set_item a i v) = length a.
Proof.
  revert i; induction a as [|x a IH]; intros [|i]; simpl; auto.
Qed.

Lemma nth_set_item_same (a : bytes) (i : nat) (v d : Z) :
  (i < length a)%nat -> nth i (set_item a i v) d = v.
Proof.
  revert i; induction a as [|x a IH]; intros [|i] H; simpl in *;
    try lia; auto.
  apply IH; lia.
Qed.

Lemma set_item_twice (a : bytes) (i : nat) (v w : Z) :
  set_item (set_item a i v) i w = set_item a i w.
Proof.
  revert i; induction a as [|x a IH]; intros [|i]; simpl; auto.
  now rewrite IH.
Qed.

Lemma set_item_middle (done rest : bytes) (r v : Z) :
  set_item (done ++ r :: rest) (length done) v = (done ++ [v]) ++ rest.
Proof.
  induction done as [|x done IHd]; simpl; [reflexivity|].
  now rewrite IHd.
Qed.

(** A loop that writes position [i] at step [i] builds [map f]. *)
Lemma fill_loop (F : bytes -> nat -> bytes) (f : nat -> Z) (n : nat) :
  (forall a i, (i < length a)%nat -> F a i = set_item a i (f i)) ->
  forall (done rest : bytes),
    length rest = n ->
    fold_left F (seq (length done) n) (done ++ rest)
    = done ++ map f (seq (length done) n).
Proof.
  intros HF.
  induction n as [|n IH]; intros done rest Hlen; cbn [seq fold_left map].
  - destruct rest; [reflexivity | discriminate].
  - destruct rest as [|r rest]; [discriminate|].
    rewrite HF by (rewrite length_app; simpl; lia).
    rewrite set_item_middle.
    replace (S (length done)) with (length (done ++ [f (length done)]))
      by (rewrite length_app; simpl; lia).
    rewrite IH by (simpl in Hlen; lia).
    rewrite <- app_assoc. reflexivity.
Qed.

Lemma skipn_repeat {A} (x : A) (n m : nat) :
  skipn n (repeat x m) = repeat x (m - n).
Proof.
  revert n; induction m as [|m IH]; intros [|n]; simpl; auto.
Qed.

End LoopFacts.

(** ** XOR cipher *)

Section XorCipher.
Import Py Crypto Reference.

Lemma enumerate_stream (K : bytes) (data : bytes) :
  forall i,
    map (fun ib : nat * Z =>
           Z.lxor (snd ib) (nth (fst ib mod length K) K 0))
        (combine (seq i (length data)) data)
    = xor_from K i data.
Proof.
  induction data as [|b d IH]; intros i.
  - reflexivity.
  - cbn [length seq combine map xor_from fst snd]. now rewrite IH.
Qed.

Lemma xor_encrypt_stream (data key : bytes) :
  key <> [] -> _xor_encrypt data key = xor_from key 0 data.
Proof.
  intros Hk. unfold _xor_encrypt.
  destruct key as [|k0 key]; [congruence|].
  rewrite fold_left_append. cbn [app].
  apply enumerate_stream.
Qed.

Lemma xor_from_involutive (key : bytes) (i : nat) (data : bytes) :
  xor_from key i (xor_from key i data) = data.
Proof.
  revert i; induction data as [|b d IH]; intros i; simpl.
  - reflexivity.
  - rewrite IH, Z.lxor_assoc, Z.lxor_nilpotent, Z.lxor_0_r. reflexivity.
Qed.

Lemma xor_from_length (key : bytes) (i : nat) (data : bytes) :
  length (xor_from key i data) = length data.
Proof.
  revert i; induction data as [|b d IH]; intros i; simpl; auto.
Qed.

Lemma xor_from_nth (key : bytes) (data : bytes) :
  forall i j, (j < length data)%nat ->
    nth j (xor_from key i data) 0
    = Z.lxor (nth j data 0) (nth ((i + j) mod length key) key 0).
Proof.
  induction data as [|b d IH]; intros i j Hj; simpl in *; [lia|].
  destruct j as [|j].
  - now rewrite Nat.add_0_r.
  - rewrite IH by lia. do 3 f_equal. lia.
Qed.

(** C10.  XOR encryption followed by XOR decryption under the same key
    returns the data, for every byte string and every key (the empty
    key included, which leaves the data as it is); the output has the
    length of the input and, for a non-empty key, its [i]-th byte is
    [data[i] XOR key[i mod len(key)]]; decryption is the same function;
    and the two hold through [encrypt_firmware] and [decrypt_firmware]
    with the algorithm XOR. *)
Theorem xor_encrypt_decrypt_roundtrip :
  forall (D K : bytes),
    _xor_decrypt (_xor_encrypt D K) K = D
    /\ length (_xor_encrypt D K) = length D
    /\ (forall i, K <> [] -> (i < length D)%nat ->
          nth i (_xor_encrypt D K) 0
          = Z.lxor (nth i D 0) (nth (i mod length K) K 0))
    /\ (forall C, _xor_decrypt C K = _xor_encrypt C K)
    /\ (forall md5 aes pbkdf2 aes_inv pw ver g meta,
          exists info,
            encrypt_firmware md5 aes pbkdf2 D XOR (Some K) pw ver g
            = Ok ((_xor_encrypt D K, info), g)
            /\ decrypt_firmware aes_inv (_xor_encrypt D K) XOR K meta
               = Ok D).
Proof.
  intros D K.
  assert (Hrt : _xor_decrypt (_xor_encrypt D K) K = D).
  { unfold _xor_decrypt. destruct K as [|k K]; [reflexivity|].
    rewrite !xor_encrypt_stream by discriminate.
    apply xor_from_involutive. }
  split; [exact Hrt|]. split; [|split; [|split]].
  - destruct K as [|k K]; [reflexivity|].
    rewrite xor_encrypt_stream by discriminate. apply xor_from_length.
  - intros i HK Hi. rewrite xor_encrypt_stream by exact HK.
    now rewrite xor_from_nth.
  - reflexivity.
  - intros. eexists. split; [reflexivity|].
    unfold decrypt_firmware. now rewrite Hrt.
Qed.

Lemma xor_encrypt_decrypt_roundtrip_witness :
  _xor_decrypt (_xor_encrypt [1; 2; 3; 4; 5] [255; 1]) [255; 1]
  = [1; 2; 3; 4; 5]
  /\ nth 2 (_xor_encrypt [1; 2; 3; 4; 5] [255; 1]) 0
     = Z.lxor (nth 2 [1; 2; 3; 4; 5] 0)
         (nth (2 mod length [255; 1]) [255; 1] 0).
Proof.
  destruct (xor_encrypt_decrypt_roundtrip [1; 2; 3; 4; 5] [255; 1])
    as (H1 & _ & H3 & _).
  split; [exact H1|]. apply H3; [discriminate | simpl; lia].
Defined.

End XorCipher.

(** ** CRC-32 *)

Section Crc32.
Import Py Crypto Reference.

Lemma crc32_table_generated :
  crc32_table
  = map (fun i => Nat.iter 8 crc_shift (Z.of_nat i)) (seq 0 256).
Proof. vm_compute. reflexivity. Qed.

Lemma crc32_table_range :
  forallb (fun t => (0 <=? t) && (t <? 2 ^ 32)) crc32_table = true.
Proof. vm_compute. reflexivity. Qed.

Lemma crc_shift_lxor (a b : Z) :
  crc_shift (Z.lxor a b) = Z.lxor (crc_shift a) (crc_shift b).
Proof.
  unfold crc_shift.
  rewrite <- !Z.bit0_odd, Z.lxor_spec, Z.shiftr_lxor.
  set (P := 0xEDB88320).
  destruct (Z.testbit a 0), (Z.testbit b 0); cbn [xorb].
  - rewrite (Z.lxor_comm (Z.shiftr b 1) P), Z.lxor_assoc,
      <- (Z.lxor_assoc P P), Z.lxor_nilpotent, Z.lxor_0_l.
    reflexivity.
  - rewrite !Z.lxor_assoc. f_equal. apply Z.lxor_comm.
  - now rewrite Z.lxor_assoc.
  - reflexivity.
Qed.

Lemma iter_crc_shift_lxor (n : nat) (a b : Z) :
  Nat.iter n crc_shift (Z.lxor a b)
  = Z.lxor (Nat.iter n crc_shift a) (Nat.iter n crc_shift b).
Proof.
  induction n as [|n IH]; [reflexivity|].
  now rewrite !Nat.iter_succ, IH, crc_shift_lxor.
Qed.

Lemma crc_shift_shiftl (h : Z) (n : nat) :
  crc_shift (Z.shiftl h (Z.of_nat (S n))) = Z.shiftl h (Z.of_nat n).
Proof.
  unfold crc_shift.
  rewrite <- Z.bit0_odd, Z.shiftl_spec_low by lia.
  rewrite Z.shiftr_shiftl_l by lia. f_equal. lia.
Qed.

Lemma iter_crc_shift_shiftl (n : nat) (h : Z) :
  Nat.iter n crc_shift (Z.shiftl h (Z.of_nat n)) = h.
Proof.
  induction n as [|n IH].
  - apply Z.shiftl_0_r.
  - rewrite Nat.iter_succ_r, crc_shift_shiftl. exact IH.
Qed.

Lemma split_low_byte (x : Z) :
  x = Z.lxor (Z.land x 255) (Z.shiftl (Z.shiftr x 8) 8).
Proof.
  apply Z.bits_inj'. intros n Hn.
  change 255 with (Z.ones 8).
  rewrite Z.lxor_spec, Z.land_spec.
  destruct (Z.lt_ge_cases n 8) as [Hlt|Hge].
  - rewrite Z.ones_spec_low, Z.shiftl_spec_low by lia.
    now rewrite andb_true_r, xorb_false_r.
  - rewrite Z.ones_spec_high, Z.shiftl_spec, Z.shiftr_spec by lia.
    rewrite andb_false_r, xorb_false_l. f_equal. lia.
Qed.

Lemma low_byte_range (x : Z) : 0 <= Z.land x 255 < 256.
Proof.
  change 255 with (Z.ones 8). rewrite Z.land_ones by lia.
  apply Z.mod_pos_bound. lia.
Qed.

Lemma table_lookup (i : Z) :
  0 <= i < 256 ->
  nth (Z.to_nat i) crc32_table 0 = Nat.iter 8 crc_shift i.
Proof.
  intros Hi. rewrite crc32_table_generated.
  change 0 with ((fun i => Nat.iter 8 crc_shift (Z.of_nat i)) 0%nat) at 1.
  rewrite map_nth, seq_nth by lia.
  now rewrite Nat.add_0_l, Z2Nat.id by lia.
Qed.

(** The table step is eight bit steps. *)
Lemma crc_update_is_crc_byte (crc b : Z) :
  is_byte b -> crc_update crc b = crc_byte crc b.
Proof.
  intros Hb. unfold crc_update, crc_byte.
  set (x := Z.lxor crc b).
  rewrite table_lookup by apply low_byte_range.
  assert (Hs : Z.shiftr crc 8 = Z.shiftr x 8).
  { unfold x. rewrite Z.shiftr_lxor.
    replace (Z.shiftr b 8) with 0; [now rewrite Z.lxor_0_r|].
    rewrite Z.shiftr_div_pow2 by lia. symmetry. apply Z.div_small.
    unfold is_byte in Hb. change (2 ^ 8) with 256. lia. }
  rewrite Hs. symmetry.
  etransitivity; [apply f_equal; exact (split_low_byte x)|].
  rewrite iter_crc_shift_lxor.
  pose proof (iter_crc_shift_shiftl 8 (Z.shiftr x 8)) as H8.
  change (Z.of_nat 8) with 8 in H8. now rewrite H8.
Qed.

Lemma lxor_range (n a b : Z) :
  0 <= n -> 0 <= a < 2 ^ n -> 0 <= b < 2 ^ n -> 0 <= Z.lxor a b < 2 ^ n.
Proof.
  intros Hn Ha Hb. split; [apply Z.lxor_nonneg; lia|].
  destruct (Z.eq_dec (Z.lxor a b) 0) as [->|Hne];
    [apply Z.pow_pos_nonneg; lia|].
  assert (Hpos : 0 < Z.lxor a b)
    by (assert (0 <= Z.lxor a b) by (apply Z.lxor_nonneg; lia); lia).
  assert (Hn0 : 0 < n).
  { destruct (Z.eq_dec n 0) as [->|]; [|lia].
    change (2 ^ 0) with 1 in Ha, Hb.
    assert (a = 0) by lia. assert (b = 0) by lia. subst.
    now elim Hne. }
  apply Z.log2_lt_pow2; [exact Hpos|].
  eapply Z.le_lt_trans; [apply Z.log2_lxor; lia|].
  apply Z.max_lub_lt.
  - destruct (Z.eq_dec a 0) as [->|]; [simpl; lia|].
    apply Z.log2_lt_pow2; lia.
  - destruct (Z.eq_dec b 0) as [->|]; [simpl; lia|].
    apply Z.log2_lt_pow2; lia.
Qed.

Lemma crc_update_range (crc b : Z) :
  0 <= crc < 2 ^ 32 -> 0 <= crc_update crc b < 2 ^ 32.
Proof.
  intros Hc. unfold crc_update. apply lxor_range; [lia| |].
  - pose proof crc32_table_range as HT.
    rewrite forallb_forall in HT.
    destruct (nth_in_or_default
                (Z.to_nat (Z.land (Z.lxor crc b) 255)) crc32_table 0)
      as [Hin | ->]; [|lia].
    apply HT in Hin. lia.
  - rewrite Z.shiftr_div_pow2 by lia. split.
    + apply Z.div_pos; lia.
    + apply Z.div_lt_upper_bound; lia.
Qed.

Lemma crc_register_range (data : bytes) (crc : Z) :
  0 <= crc < 2 ^ 32 -> 0 <= fold_left crc_update data crc < 2 ^ 32.
Proof.
  revert crc; induction data as [|b d IH]; intros crc Hc; simpl.
  - exact Hc.
  - apply IH, crc_update_range, Hc.
Qed.

Lemma invert_register (c : Z) :
  0 <= c < 2 ^ 32 -> Z.land (Z.lnot c) 0xFFFFFFFF = Z.lxor c 0xFFFFFFFF.
Proof.
  intros Hc. apply Z.bits_inj'. intros n Hn.
  change 0xFFFFFFFF with (Z.ones 32).
  rewrite Z.land_spec, Z.lxor_spec, Z.lnot_spec by lia.
  destruct (Z.lt_ge_cases n 32) as [Hlt|Hge].
  - rewrite Z.ones_spec_low by lia.
    now rewrite andb_true_r, xorb_true_r.
  - rewrite Z.ones_spec_high by lia.
    rewrite andb_false_r, xorb_false_r.
    symmetry. destruct (Z.eq_dec c 0) as [->|Hne];
      [apply Z.bits_0|].
    apply Z.bits_above_log2; [lia|].
    assert (Z.log2 c < 32) by (apply Z.log2_lt_pow2; lia). lia.
Qed.

Lemma fold_crc_update_reference (data : bytes) (crc : Z) :
  Forall is_byte data ->
  fold_left crc_update data crc = fold_left crc_byte data crc.
Proof.
  intros H; revert crc; induction H as [|b d Hb Hd IH]; intros crc; simpl.
  - reflexivity.
  - now rewrite crc_update_is_crc_byte, IH.
Qed.

(** C3.  [_calculate_crc32_stm32] is the reflected CRC-32 of polynomial
    [0xEDB88320]: its table is the table of that polynomial, and on
    every byte string its result is the one of the bit-by-bit algorithm
    started at [0xFFFFFFFF], fed one byte at a time and inverted at the
    end; the result is a 32-bit value; the CRC of the empty string is
    [0] and the CRC of ["123456789"] is [0xCBF43926]. *)
Theorem crc32_stm32_is_reflected_crc32 :
  crc32_table = map (fun i => Nat.iter 8 crc_shift (Z.of_nat i)) (seq 0 256)
  /\ (forall data : bytes,
        Forall is_byte data ->
        _calculate_crc32_stm32 data = crc32_reflected data
        /\ 0 <= _calculate_crc32_stm32 data < 2 ^ 32)
  /\ _calculate_crc32_stm32 [] = 0x00000000
  /\ _calculate_crc32_stm32 (encode_utf8 (s "123456789")) = 0xCBF43926.
Proof.
  split; [exact crc32_table_generated|].
  split; [|split; vm_compute; reflexivity].
  intros data Hdata.
  assert (Hr : 0 <= fold_left crc_update data 0xFFFFFFFF < 2 ^ 32)
    by (apply crc_register_range; lia).
  unfold _calculate_crc32_stm32, crc32_reflected.
  rewrite invert_register by exact Hr.
  split.
  - now rewrite fold_crc_update_reference.
  - apply lxor_range; [lia | exact Hr | lia].
Qed.

Lemma crc32_stm32_is_reflected_crc32_witness :
  Forall is_byte [0; 255; 17]
  /\ _calculate_crc32_stm32 [0; 255; 17] = crc32_reflected [0; 255; 17].
Proof.
  assert (H : Forall is_byte [0; 255; 17])
    by (repeat constructor; unfold is_byte; lia).
  split; [exact H|].
  destruct crc32_stm32_is_reflected_crc32 as (_ & Hall & _).
  exact (proj1 (Hall [0; 255; 17] H)).
Defined.

End Crc32.

(** ** Key derivation *)

Section KeyDerivation.
Import Py Crypto Reference.

Lemma is_space_not_hex (c : ascii) : is_space c = true -> hexval c = None.
Proof.
  unfold is_space, hexval. intros H.
  destruct ((48 <=? code c) && (code c <=? 57)) eqn:E1;
    [lia|].
  destruct ((97 <=? code c) && (code c <=? 102)) eqn:E2; [lia|].
  destruct ((65 <=? code c) && (code c <=? 70)) eqn:E3; [lia|].
  reflexivity.
Qed.

(** Decoding consumes two characters per byte, more where white space
    is skipped. *)
Lemma fromhex_length (n : nat) :
  forall t kb,
    (length t <= n)%nat -> fromhex t = Some kb ->
    (2 * length kb <= length t)%nat
    /\ ((2 * length kb = length t)%nat ->
        forallb is_hex t = true /\ kb = decode_pairs t).
Proof.
  induction n as [|n IH]; intros t kb Hn H.
  - destruct t; [|simpl in Hn; lia]. simpl in H. injection H as <-.
    simpl. auto.
  - destruct t as [|c t]; [simpl in H; injection H as <-; simpl; auto|].
    simpl in H. destruct (is_space c) eqn:Hsp.
    + apply IH in H; [|simpl in Hn; lia]. destruct H as [Hle _].
      simpl. split; [lia|]. intros Heq. lia.
    + destruct (hexval c) as [h|] eqn:Hc; [|discriminate].
      destruct t as [|d t]; [discriminate|].
      destruct (hexval d) as [l|] eqn:Hd; [|discriminate].
      destruct (fromhex t) as [r|] eqn:Hr; [|discriminate].
      injection H as <-.
      apply IH in Hr; [|simpl in Hn; lia]. destruct Hr as [Hle Hex].
      cbn [length]. split; [lia|]. intros Heq.
      destruct Hex as [Hall ->]; [lia|].
      cbn [forallb decode_pairs]. unfold is_hex at 1 2.
      rewrite Hc, Hd, Hall. auto.
Qed.

Lemma fromhex_all_hex (n : nat) :
  forall t,
    (length t = 2 * n)%nat -> forallb is_hex t = true ->
    fromhex t = Some (decode_pairs t) /\ length (decode_pairs t) = n.
Proof.
  induction n as [|n IH]; intros t Hlen Hall.
  - destruct t; [simpl; auto | simpl in Hlen; lia].
  - destruct t as [|c [|d t]]; try (simpl in Hlen; lia).
    cbn [forallb] in Hall.
    apply andb_prop in Hall as [Hc Hall].
    apply andb_prop in Hall as [Hd Hall].
    unfold is_hex in Hc, Hd.
    destruct (hexval c) as [h|] eqn:Ec; [|discriminate].
    destruct (hexval d) as [l|] eqn:Ed; [|discriminate].
    destruct (IH t) as [Hf Hl]; [simpl in Hlen; lia | exact Hall |].
    cbn [fromhex decode_pairs]. rewrite Ec, Ed, Hf.
    destruct (is_space c) eqn:Hsp.
    + apply is_space_not_hex in Hsp. congruence.
    + split; [reflexivity | simpl; lia].
Qed.

(** The special case of the program is the one of the design. *)
Lemma raw_hex_key_spec (password : str) :
  raw_hex_key password
  = if hex32 password then Some (decode_pairs password) else None.
Proof.
  unfold raw_hex_key, hex32.
  destruct (length password =? 32)%nat eqn:Hlen; [|reflexivity].
  apply Nat.eqb_eq in Hlen. cbn [andb].
  destruct (forallb is_hex password) eqn:Hall.
  - destruct (fromhex_all_hex 16 password) as [-> Hl]; [lia | exact Hall|].
    now rewrite Hl.
  - destruct (fromhex password) as [kb|] eqn:Hf; [|reflexivity].
    destruct (length kb =? 16)%nat eqn:Hk; [|reflexivity].
    apply Nat.eqb_eq in Hk.
    destruct (fromhex_length (length password) password kb
                (le_n _) Hf) as [_ Hex].
    destruct Hex as [Hall' _]; [lia|]. congruence.
Qed.

Lemma set_item_app_r (a b : bytes) (j : nat) (v : Z) :
  set_item (a ++ b) (length a + j) v = a ++ set_item b j v.
Proof.
  induction a as [|x a IH]; simpl; [reflexivity|]. now rewrite IH.
Qed.

Lemma set_item_app_at (a b : bytes) (j i : nat) (v : Z) :
  i = (length a + j)%nat -> set_item (a ++ b) i v = a ++ set_item b j v.
Proof. intros ->. apply set_item_app_r. Qed.

(** The buffer after the password copy and the salt loop. *)
Lemma temp_key_is_scratch (password : str) :
  let password_bytes := encode_utf8 password in
  let pwd_len := Nat.min (length password_bytes) 24 in
  mix_salt (set_slice (repeat 0 32) 0 pwd_len
              (firstn pwd_len password_bytes)) default_salt
  = kdf_scratch password.
Proof.
  intros pb pl. unfold kdf_scratch. fold pb.
  set (pw := firstn 24 pb).
  assert (Hpw : firstn pl pb = pw).
  { unfold pl, pw. destruct (Nat.le_ge_cases (length pb) 24) as [H|H].
    - rewrite Nat.min_l by exact H.
      now rewrite !firstn_all2 by lia.
    - now rewrite Nat.min_r by exact H. }
  assert (Hlen : length pw = pl)
    by (unfold pw, pl; rewrite length_firstn; lia).
  assert (Hpl : (pl <= 24)%nat) by (unfold pl; lia).
  unfold set_slice. rewrite Hpw. cbn [firstn app].
  replace (skipn pl (repeat 0 32))
    with (repeat 0 (24 - pl) ++ repeat 0 8).
  2:{ rewrite skipn_repeat, <- repeat_app. f_equal. lia. }
  rewrite Hlen, app_assoc.
  set (A := pw ++ repeat 0 (24 - pl)).
  assert (HA : length A = 24%nat)
    by (unfold A; rewrite length_app, repeat_length; lia).
  unfold mix_salt, default_salt.
  cbn [length Nat.min seq fold_left nth].
  cbn [Nat.mul Nat.add].
  rewrite (set_item_app_at A _ 0 24) by lia.
  rewrite (set_item_app_at A _ 1 25) by lia.
  rewrite (set_item_app_at A _ 2 26) by lia.
  rewrite (set_item_app_at A _ 3 27) by lia.
  rewrite (set_item_app_at A _ 4 28) by lia.
  rewrite (set_item_app_at A _ 5 29) by lia.
  rewrite (set_item_app_at A _ 6 30) by lia.
  rewrite (set_item_app_at A _ 7 31) by lia.
  unfold A. rewrite <- app_assoc. reflexivity.
Qed.

Lemma kdf_candidate_length (r : nat) (t : bytes) :
  length (kdf_candidate r t) = 16%nat.
Proof. unfold kdf_candidate. now rewrite length_map, length_seq. Qed.

(** One pass of the round loop is one round of the design. *)
Lemma strengthen_is_kdf_round (key temp_key : bytes) (r : nat) :
  length key = 16%nat -> length temp_key = 32%nat ->
  strengthen (key, temp_key) r
  = (kdf_candidate r temp_key, kdf_round temp_key r).
Proof.
  intros Hk Ht. unfold strengthen.
  pose proof (fill_loop
    (fun key i =>
       let key :=
         set_item key i
           (Z.lxor (Z.lxor (nth i temp_key 0) (nth (i + 16) temp_key 0))
                   (Z.land (Z.of_nat r) 0xFF)) in
       set_item key i
         (Z.lxor (nth i key 0) (Z.land (Z.of_nat (i + r)) 0xFF)))
    (fun i =>
       Z.lxor
         (Z.lxor (Z.lxor (nth i temp_key 0) (nth (i + 16) temp_key 0))
                 (Z.land (Z.of_nat r) 0xFF))
         (Z.land (Z.of_nat (i + r)) 0xFF))
    16) as Hloop.
  specialize (Hloop
    ltac:(intros a i Hi; cbv beta zeta;
          rewrite nth_set_item_same by exact Hi;
          apply set_item_twice)
    [] key Hk).
  cbn [length app] in Hloop. rewrite Hloop.
  fold (kdf_candidate r temp_key).
  set (k := kdf_candidate r temp_key).
  assert (Hlen : length k = 16%nat) by apply kdf_candidate_length.
  f_equal. unfold set_slice, kdf_round. fold k.
  rewrite firstn_O. cbn [app].
  rewrite firstn_app, Hlen, Nat.sub_diag, firstn_O, app_nil_r.
  rewrite firstn_all2 by lia.
  rewrite skipn_all2; [now rewrite app_nil_r|].
  rewrite length_app, length_skipn. lia.
Qed.

Lemma kdf_round_length (t : bytes) (r : nat) :
  length (kdf_round t r) = 32%nat.
Proof.
  unfold kdf_round. now rewrite length_app, !kdf_candidate_length.
Qed.

Lemma kdf_round_firstn (t : bytes) (r : nat) :
  firstn 16 (kdf_round t r) = kdf_candidate r t.
Proof.
  unfold kdf_round.
  rewrite firstn_app, kdf_candidate_length, Nat.sub_diag.
  rewrite firstn_O, app_nil_r.
  apply firstn_all2. rewrite kdf_candidate_length. lia.
Qed.

Lemma strengthen_rounds (rounds : list nat) :
  forall key temp_key,
    length key = 16%nat -> length temp_key = 32%nat ->
    fold_left strengthen rounds (key, temp_key)
    = (match rounds with
       | [] => key
       | _ :: _ => firstn 16 (fold_left kdf_round rounds temp_key)
       end,
       fold_left kdf_round rounds temp_key).
Proof.
  induction rounds as [|r rounds IH]; intros key t Hk Ht.
  - reflexivity.
  - change (fold_left strengthen (r :: rounds) (key, t))
      with (fold_left strengthen rounds (strengthen (key, t) r)).
    change (fold_left kdf_round (r :: rounds) t)
      with (fold_left kdf_round rounds (kdf_round t r)).
    rewrite strengthen_is_kdf_round by assumption.
    rewrite IH by (apply kdf_candidate_length || apply kdf_round_length).
    destruct rounds as [|r' rounds]; [|reflexivity].
    change (fold_left kdf_round [] (kdf_round t r)) with (kdf_round t r).
    now rewrite kdf_round_firstn.
Qed.

Lemma le_bytes_length (w : nat) (n : Z) : length (le_bytes w n) = w.
Proof. unfold le_bytes. now rewrite length_map, length_seq. Qed.

Lemma kdf_scratch_length (password : str) :
  length (kdf_scratch password) = 32%nat.
Proof.
  unfold kdf_scratch.
  rewrite !length_app, repeat_length, !le_bytes_length, length_firstn.
  lia.
Qed.

(** The program computes the derivation of the design, for every
    password. *)
Lemma derive_is_kdf_embedded (password : str) :
  _derive_aes_key_stm32_compatible password None = kdf_embedded password.
Proof.
  unfold _derive_aes_key_stm32_compatible, kdf_embedded.
  rewrite raw_hex_key_spec.
  destruct (hex32 password); [reflexivity|].
  rewrite temp_key_is_scratch.
  rewrite strengthen_rounds;
    [reflexivity | apply repeat_length | apply kdf_scratch_length].
Qed.

(** From the second round on the two halves of the buffer cancel. *)
Lemma kdf_candidate_of_equal_halves (k : bytes) (r : nat) :
  length k = 16%nat ->
  kdf_candidate r (k ++ k)
  = map (fun i =>
           Z.lxor (Z.land (Z.of_nat r) 0xFF)
                  (Z.land (Z.of_nat (i + r)) 0xFF))
        (seq 0 16).
Proof.
  intros Hk. unfold kdf_candidate. apply map_ext_in.
  intros i Hi. apply in_seq in Hi.
  rewrite app_nth1 by lia.
  rewrite app_nth2 by lia.
  replace (i + 16 - length k)%nat with i by lia.
  now rewrite Z.lxor_nilpotent, Z.lxor_0_l.
Qed.

Lemma kdf_rounds_fixed (t : bytes) :
  firstn 16 (fold_left kdf_round (seq 0 10) t) = kdf_fixed_key.
Proof.
  change (seq 0 10) with (seq 0 9 ++ [9%nat]).
  rewrite fold_left_app. cbn [fold_left].
  rewrite kdf_round_firstn.
  change (seq 0 9) with (seq 0 8 ++ [8%nat]).
  rewrite fold_left_app. cbn [fold_left].
  unfold kdf_round at 1.
  rewrite kdf_candidate_of_equal_halves by apply kdf_candidate_length.
  reflexivity.
Qed.



(** C4.  Two passwords of which neither is 32 hexadecimal characters
    derive the same AES-128 key: from the second round on the two
    halves of the buffer are equal, so the key of the last round is
    [key[i] = 9 XOR ((i + 9) & 0xFF)] whatever the password. *)
Theorem derived_key_independent_of_password :
  forall (pbkdf2 : bytes -> Z -> nat -> bytes -> bytes)
         (p1 p2 : str) (g1 g2 : entropy),
    hex32 p1 = false -> hex32 p2 = false ->
    _derive_aes_key_stm32_compatible p1 None = kdf_fixed_key
    /\ _derive_aes_key_stm32_compatible p1 None
       = _derive_aes_key_stm32_compatible p2 None
    /\ (p1 <> [] -> p2 <> [] ->
        fst (generate_key pbkdf2 AES_128_CBC (Some p1) g1)
        = fst (generate_key pbkdf2 AES_128_CBC (Some p2) g2)).
Proof.
  intros pbkdf2 p1 p2 g1 g2 H1 H2.
  assert (Hfix : forall p, hex32 p = false ->
                   _derive_aes_key_stm32_compatible p None = kdf_fixed_key).
  { intros p Hp. rewrite derive_is_kdf_embedded. unfold kdf_embedded.
    rewrite Hp. apply kdf_rounds_fixed. }
  split; [now apply Hfix|]. split.
  - now rewrite !Hfix.
  - intros N1 N2. destruct p1 as [|c1 p1]; [congruence|].
    destruct p2 as [|c2 p2]; [congruence|].
    unfold generate_key. cbn [fst]. now rewrite !Hfix.
Qed.

Lemma derived_key_independent_of_password_witness :
  hex32 (s "test") = false /\ hex32 (s "another password") = false
  /\ _derive_aes_key_stm32_compatible (s "test") None
     = _derive_aes_key_stm32_compatible (s "another password") None.
Proof.
  split; [reflexivity|]. split; [reflexivity|].
  exact (proj1 (proj2
    (derived_key_independent_of_password (fun _ _ _ p => p)
       (s "test") (s "another password")
       {| source := fun _ => 0; consumed := 0 |}
       {| source := fun _ => 1; consumed := 0 |}
       eq_refl eq_refl))).
Defined.

End KeyDerivation.

(** ** The AES-128 firmware image *)

Section FirmwareHeader.
Import Py Crypto Reference.

Lemma pack_I_ok (n : Z) :
  0 <= n <= 4294967295 -> pack_I n = Ok (le_bytes 4 n).
Proof.
  intros H. unfold pack_I.
  destruct (Z.leb_spec 0 n); [|lia].
  destruct (Z.leb_spec n 4294967295); [reflexivity | lia].
Qed.

Lemma pack_H_ok (n : Z) :
  0 <= n <= 65535 -> pack_H n = Ok (le_bytes 2 n).
Proof.
  intros H. unfold pack_H.
  destruct (Z.leb_spec 0 n); [|lia].
  destruct (Z.leb_spec n 65535); [reflexivity | lia].
Qed.

Lemma pack_H_raises (n : Z) :
  ~ 0 <= n <= 65535 -> pack_H n = Raise StructError.
Proof.
  intros H. unfold pack_H.
  destruct (Z.leb_spec 0 n); [|reflexivity].
  destruct (Z.leb_spec n 65535); [lia | reflexivity].
Qed.

(** The checksum fits the 32-bit field, whatever the data. *)
Lemma crc32_stm32_range (data : bytes) :
  0 <= _calculate_crc32_stm32 data <= 4294967295.
Proof.
  unfold _calculate_crc32_stm32.
  set (c := fold_left crc_update data 0xFFFFFFFF).
  change (0 <= Z.land (Z.lnot c) (Z.ones 32) <= 4294967295).
  rewrite Z.land_ones by lia.
  change (2 ^ 32) with 4294967296.
  pose proof (Z.mod_pos_bound (Z.lnot c) 4294967296).
  lia.
Qed.

Lemma pad4_firstn_length (parts : list Z) :
  length (firstn 4 (pad4 parts)) = 4%nat.
Proof.
  unfold pad4. rewrite length_firstn, length_app, repeat_length. lia.
Qed.

(** The parsed version always has four components. *)
Lemma parse_firmware_version_length (v : option str) :
  length (_parse_firmware_version v) = 4%nat.
Proof.
  unfold _parse_firmware_version.
  destruct (truthy v); [|reflexivity].
  destruct v as [v|]; [|reflexivity].
  destruct (ints (split "." (lstrip "v" v))); [|reflexivity].
  apply pad4_firstn_length.
Qed.

Section WithPrimitives.

Variable md5 : bytes -> bytes.
Variable aes_cbc : bytes -> bytes -> bytes -> bytes.
Variable pbkdf2 : bytes -> Z -> nat -> bytes -> bytes.
Hypothesis md5_length : forall x, length (md5 x) = 16%nat.

Lemma stm32_header_length (data ct iv : bytes) (k : bytes)
  (ver : option str) :
  length iv = 16%nat ->
  length (stm32_header data ct iv (md5 k) (_parse_firmware_version ver))
  = 64%nat.
Proof.
  intros Hiv. unfold stm32_header.
  pose proof (parse_firmware_version_length ver) as Hv.
  destruct (_parse_firmware_version ver) as [|a [|b [|c [|d [|]]]]];
    try discriminate.
  cbn [flat_map].
  rewrite !length_app, !le_bytes_length, Hiv, md5_length.
  reflexivity.
Qed.

(** C1 (as amended).  For a plaintext [P] shorter than 2^32 bytes, a
    16-byte key [K] and a firmware version whose four parsed
    components fit 16 bits, [encrypt_firmware] with AES-128-CBC
    returns [header ++ ciphertext], where the ciphertext is the
    AES-CBC image of the PKCS7-padded plaintext under a fresh 16-byte
    IV (assumed shorter than 2^32 bytes), and the header has exactly
    64 bytes: magic [0x41455331], header version 1, [len P],
    [len ciphertext], the CRC-32 of [P], the CRC-32 of the
    ciphertext, the IV, the MD5 of [K] and the four version
    components as 16-bit values, all little-endian.  The metadata
    records the IV in hexadecimal, [firmware_size], [encrypted_size]
    and [header_size = 64]. *)
Theorem aes128_image_has_stm32_header :
  forall (P K : bytes) (ver password : option str) (g : entropy),
    length K = 16%nat ->
    Z.of_nat (length P) <= 4294967295 ->
    Z.of_nat (length (aes_cbc K (fst (urandom 16 g)) (pkcs7_pad P)))
    <= 4294967295 ->
    Forall uint16 (_parse_firmware_version ver) ->
    let iv := fst (urandom 16 g) in
    let ciphertext := aes_cbc K iv (pkcs7_pad P) in
    let header :=
      stm32_header P ciphertext iv (md5 K) (_parse_firmware_version ver) in
    exists meta,
      encrypt_firmware md5 aes_cbc pbkdf2 P AES_128_CBC (Some K)
        password ver g
      = Ok ((header ++ ciphertext, meta), snd (urandom 16 g))
      /\ length header = 64%nat
      /\ length iv = 16%nat
      /\ dict_get meta (s "iv") = Some (AStr (hex iv))
      /\ dict_get meta (s "firmware_size")
         = Some (AInt (Z.of_nat (length P)))
      /\ dict_get meta (s "encrypted_size")
         = Some (AInt (Z.of_nat (length ciphertext)))
      /\ dict_get meta (s "header_size") = Some (AInt 64).
Proof.
  intros P K ver password g HK HP HC Hver iv ciphertext header.
  assert (Hiv : length iv = 16%nat).
  { unfold iv, urandom. cbn [fst]. now rewrite length_map, length_seq. }
  assert (Hh : length header = 64%nat)
    by (apply stm32_header_length; exact Hiv).
  change (Z.of_nat (length ciphertext) <= 4294967295) in HC.
  unfold encrypt_firmware, _aes_encrypt_stm32_format.
  rewrite (surjective_pairing (urandom 16 g)).
  change (fst (urandom 16 g)) with iv.
  unfold cbc_encryptor. rewrite HK. cbn [Nat.eqb orb bind].
  change (aes_cbc K iv (pkcs7_pad P)) with ciphertext.
  rewrite (pack_I_ok 0x41455331), (pack_I_ok 1) by lia.
  rewrite (pack_I_ok (Z.of_nat (length P))) by lia.
  rewrite (pack_I_ok (Z.of_nat (length ciphertext))) by lia.
  rewrite !pack_I_ok by apply crc32_stm32_range.
  cbn [bind].
  pose proof (parse_firmware_version_length ver) as Hv.
  subst header. unfold stm32_header in *.
  destruct (_parse_firmware_version ver) as [|a [|b [|c [|d [|]]]]];
    try discriminate.
  inversion Hver as [|? ? Ha Hver1]; subst.
  inversion Hver1 as [|? ? Hb Hver2]; subst.
  inversion Hver2 as [|? ? Hc Hver3]; subst.
  inversion Hver3 as [|? ? Hd _]; subst.
  rewrite (pack_H_ok a), (pack_H_ok b), (pack_H_ok c), (pack_H_ok d)
    by assumption.
  cbn [bind flat_map] in *. rewrite app_nil_r in *.
  rewrite <- !app_assoc in *. rewrite Hh.
  eexists. split; [reflexivity|].
  split; [reflexivity|]. split; [exact Hiv|].
  repeat split; reflexivity.
Qed.

(** A version with a component that does not fit 16 bits makes the
    AES-128 path raise [struct.error]. *)
Lemma aes128_rejects_wide_version :
  forall (P K : bytes) (ver password : option str) (g : entropy),
    length K = 16%nat ->
    Z.of_nat (length P) <= 4294967295 ->
    Z.of_nat (length (aes_cbc K (fst (urandom 16 g)) (pkcs7_pad P)))
    <= 4294967295 ->
    ~ Forall uint16 (_parse_firmware_version ver) ->
    encrypt_firmware md5 aes_cbc pbkdf2 P AES_128_CBC (Some K)
      password ver g
    = Raise StructError.
Proof.
  intros P K ver password g HK HP HC Hver.
  unfold encrypt_firmware, _aes_encrypt_stm32_format.
  unfold urandom in *. cbn [fst snd] in *.
  unfold cbc_encryptor. rewrite HK. cbn [Nat.eqb orb bind].
  rewrite (pack_I_ok 0x41455331), (pack_I_ok 1) by lia.
  rewrite (pack_I_ok (Z.of_nat (length P))) by lia.
  rewrite (pack_I_ok (Z.of_nat (length _))) by lia.
  rewrite !pack_I_ok by apply crc32_stm32_range.
  cbn [bind].
  pose proof (parse_firmware_version_length ver) as Hv.
  destruct (_parse_firmware_version ver) as [|a [|b [|c [|d [|]]]]];
    try discriminate.
  destruct (Z.le_gt_cases 0 a), (Z.le_gt_cases a 65535);
    try (rewrite (pack_H_raises a) by lia; reflexivity).
  rewrite (pack_H_ok a) by lia. cbn [bind].
  destruct (Z.le_gt_cases 0 b), (Z.le_gt_cases b 65535);
    try (rewrite (pack_H_raises b) by lia; reflexivity).
  rewrite (pack_H_ok b) by lia. cbn [bind].
  destruct (Z.le_gt_cases 0 c), (Z.le_gt_cases c 65535);
    try (rewrite (pack_H_raises c) by lia; reflexivity).
  rewrite (pack_H_ok c) by lia. cbn [bind].
  destruct (Z.le_gt_cases 0 d), (Z.le_gt_cases d 65535);
    try (rewrite (pack_H_raises d) by lia; reflexivity).
  exfalso. apply Hver.
  repeat apply Forall_cons; try apply Forall_nil; unfold uint16; lia.
Qed.

End WithPrimitives.

Lemma aes128_image_has_stm32_header_witness :
  exists meta,
    encrypt_firmware zero_digest null_cipher null_kdf [1; 2; 3] AES_128_CBC
      (Some (repeat 0 16)) None (Some (s "v1.2.3.45")) zero_entropy
    = Ok ((stm32_header [1; 2; 3] (pkcs7_pad [1; 2; 3]) (repeat 0 16)
             (repeat 0 16) [1; 2; 3; 45] ++ pkcs7_pad [1; 2; 3], meta),
          snd (urandom 16 zero_entropy)).
Proof.
  destruct (aes128_image_has_stm32_header zero_digest null_cipher null_kdf
              (fun _ => eq_refl) [1; 2; 3] (repeat 0 16)
              (Some (s "v1.2.3.45")) None zero_entropy)
    as (meta & H & _).
  - reflexivity.
  - simpl; lia.
  - simpl; lia.
  - change (Forall uint16 [1; 2; 3; 45]).
    repeat apply Forall_cons; try apply Forall_nil; unfold uint16; lia.
  - exists meta. exact H.
Defined.

(** C1, counterexample: the version ["1.0.0.65536"] with an empty
    plaintext and a 16-byte key.  The call raises [struct.error] and
    returns no image. *)
Lemma aes128_image_has_stm32_header_counterexample :
  encrypt_firmware zero_digest null_cipher null_kdf [] AES_128_CBC
    (Some (repeat 0 16)) None (Some (s "1.0.0.65536")) zero_entropy
  = Raise StructError.
Proof. vm_compute. reflexivity. Qed.

End FirmwareHeader.

(** ** Version inference from a file name *)

Section VersionInference.
Import Py Crypto Regex FirmwareManager Reference.

(** *** The matcher only accepts words of the pattern *)

Lemma one_sound {A} (p : ascii -> bool) (k : str -> option A) t a :
  one p k t = Some a ->
  exists c r, t = c :: r /\ p c = true /\ k r = Some a.
Proof.
  destruct t as [|c r]; simpl; [discriminate|].
  destruct (p c) eqn:Hp; [|discriminate].
  intros H. now exists c, r.
Qed.

Lemma star_sound {A} (p : ascii -> bool) (k : str -> option A) t a :
  star p k t = Some a ->
  exists w r, t = w ++ r /\ forallb p w = true /\ k r = Some a.
Proof.
  induction t as [|c t IH]; simpl; intros H.
  - now exists [], [].
  - destruct (p c) eqn:Hp.
    + destruct (star p k t) as [a'|] eqn:Hs; simpl in H.
      * injection H as ->. destruct (IH eq_refl) as (w & r & -> & Hw & Hk).
        exists (c :: w), r. simpl. now rewrite Hp, Hw.
      * now exists [], (c :: t).
    + now exists [], (c :: t).
Qed.

Lemma exactly_sound {A} (n : nat) (p : ascii -> bool)
  (k : str -> option A) :
  forall t a,
    exactly n p k t = Some a ->
    exists w r,
      t = w ++ r /\ length w = n /\ forallb p w = true /\ k r = Some a.
Proof.
  induction n as [|n IH]; intros t a H; simpl in H.
  - now exists [], t.
  - apply one_sound in H as (c & r & -> & Hc & H).
    apply IH in H as (w & r' & -> & Hl & Hw & Hk).
    exists (c :: w), r'. simpl. now rewrite Hc, Hw, Hl.
Qed.

Lemma match_atoms_sound {A} (atoms : list atom) :
  forall (k : str -> option A) t a,
    match_atoms atoms k t = Some a ->
    exists w r, t = w ++ r /\ atoms_lang atoms w /\ k r = Some a.
Proof.
  induction atoms as [|x atoms IH]; intros k t a H.
  - now exists [], t.
  - cbn [match_atoms] in H. cbn [atoms_lang]. unfold atom_lang.
    destruct (quant x) eqn:Q.
    + apply one_sound in H as (c & r & -> & Hc & H).
      apply IH in H as (w & r' & -> & Hw & Hk).
      exists (c :: w), r'. split; [reflexivity|]. split; [|exact Hk].
      exists [c], w. split; [reflexivity|]. split; [|exact Hw].
      now exists c.
    + destruct (one (class x) (match_atoms atoms k) t) as [a'|] eqn:H1;
        simpl in H.
      * injection H as ->.
        apply one_sound in H1 as (c & r & -> & Hc & H).
        apply IH in H as (w & r' & -> & Hw & Hk).
        exists (c :: w), r'. split; [reflexivity|]. split; [|exact Hk].
        exists [c], w. split; [reflexivity|]. split; [|exact Hw].
        right. now exists c.
      * apply IH in H as (w & r' & -> & Hw & Hk).
        exists w, r'. split; [reflexivity|]. split; [|exact Hk].
        exists [], w. split; [reflexivity|]. split; [|exact Hw].
        now left.
    + apply one_sound in H as (c & r & -> & Hc & H).
      apply star_sound in H as (w1 & r1 & -> & Hw1 & H).
      apply IH in H as (w & r' & -> & Hw & Hk).
      exists ((c :: w1) ++ w), r'.
      split; [now rewrite <- !app_assoc|]. split; [|exact Hk].
      exists (c :: w1), w. split; [reflexivity|]. split; [|exact Hw].
      split; [discriminate|]. simpl. now rewrite Hc, Hw1.
    + apply exactly_sound in H as (w1 & r1 & -> & Hl & Hw1 & H).
      apply IH in H as (w & r' & -> & Hw & Hk).
      exists (w1 ++ w), r'.
      split; [now rewrite <- !app_assoc|]. split; [|exact Hk].
      exists w1, w. auto.
Qed.

Lemma match_here_sound (p : pattern) (t g : str) :
  match_here p t = Some g ->
  exists w0 r,
    t = w0 ++ g ++ r /\ atoms_lang (before p) w0
    /\ atoms_lang (group1 p) g.
Proof.
  unfold match_here. intros H.
  apply match_atoms_sound in H as (w0 & tg & -> & H0 & H).
  apply match_atoms_sound in H as (w & r & -> & Hw & H).
  injection H as <-.
  rewrite length_app, Nat.add_sub, firstn_app, Nat.sub_diag, firstn_O,
    app_nil_r, firstn_all.
  now exists w0, r.
Qed.

(** What [re.search] returns is a substring in the language of the
    group. *)
Lemma search_sound (p : pattern) (t g : str) :
  search p t = Some g ->
  atoms_lang (group1 p) g /\ exists pre post, t = pre ++ g ++ post.
Proof.
  induction t as [|c t IH]; cbn [search]; intros H.
  - destruct (match_here p []) as [g'|] eqn:Hm; [|discriminate].
    injection H as ->.
    apply match_here_sound in Hm as (w0 & r & Ht & _ & Hg).
    split; [exact Hg|]. now exists w0, r.
  - destruct (match_here p (c :: t)) as [g'|] eqn:Hm.
    + injection H as ->.
      apply match_here_sound in Hm as (w0 & r & Ht & _ & Hg).
      split; [exact Hg|]. now exists w0, r.
    + destruct (IH H) as (Hg & pre & post & ->).
      split; [exact Hg|]. now exists (c :: pre), post.
Qed.

(** *** Digit runs *)

Lemma numeric_digits (w : str) :
  numeric w = true -> forallb is_digit w = true.
Proof. destruct w; [discriminate | exact (fun H => H)]. Qed.

Lemma digits_lang (w : str) : atom_lang digits w -> numeric w = true.
Proof.
  unfold atom_lang, digits; cbn [quant class]. intros [Hne Hw].
  destruct w; [congruence | exact Hw].
Qed.

Lemma dot_lang (w : str) : atom_lang dot w -> w = ["."%char].
Proof.
  unfold atom_lang, dot; cbn [quant class]. intros (c & -> & Hc).
  unfold chr in Hc. apply Ascii.eqb_eq in Hc. now subst.
Qed.

Lemma digit_not_dot (c : ascii) :
  is_digit c = true -> Ascii.eqb c "." = false.
Proof.
  intros H. destruct (Ascii.eqb_spec c "."); [|reflexivity].
  subst. discriminate.
Qed.

Lemma split_digits (d : str) :
  forallb is_digit d = true -> split "." d = [d].
Proof.
  induction d as [|c d IH]; simpl; intros H; [reflexivity|].
  apply andb_prop in H as [Hc Hd].
  now rewrite (digit_not_dot c Hc), (IH Hd).
Qed.

Lemma split_digits_dot (d rest : str) :
  forallb is_digit d = true ->
  split "." (d ++ "."%char :: rest) = d :: split "." rest.
Proof.
  induction d as [|c d IH]; simpl; intros H; [reflexivity|].
  apply andb_prop in H as [Hc Hd].
  now rewrite (digit_not_dot c Hc), (IH Hd).
Qed.

Lemma decimal_digit (d : Z) :
  0 <= d < 10 -> is_digit (ascii_of_N (Z.to_N (48 + d))) = true.
Proof.
  intros H.
  assert (E : d = 0 \/ d = 1 \/ d = 2 \/ d = 3 \/ d = 4 \/ d = 5
              \/ d = 6 \/ d = 7 \/ d = 8 \/ d = 9) by lia.
  repeat destruct E as [-> | E]; try reflexivity. now subst.
Qed.

Lemma dec_digits_step (fuel : nat) (n : Z) (acc : str) :
  dec_digits (S fuel) n acc
  = if n / 10 =? 0 then ascii_of_N (Z.to_N (48 + n mod 10)) :: acc
    else dec_digits fuel (n / 10)
           (ascii_of_N (Z.to_N (48 + n mod 10)) :: acc).
Proof. reflexivity. Qed.

Lemma dec_digits_numeric (fuel : nat) :
  forall n acc,
    forallb is_digit acc = true ->
    numeric (dec_digits (S fuel) n acc) = true.
Proof.
  induction fuel as [|fuel IH]; intros n acc Hacc;
    rewrite dec_digits_step;
    assert (Hd : is_digit (ascii_of_N (Z.to_N (48 + n mod 10))) = true)
      by (apply decimal_digit, Z.mod_pos_bound; lia);
    set (c := ascii_of_N (Z.to_N (48 + n mod 10))) in *;
    assert (Hc : forallb is_digit (c :: acc) = true)
      by (cbn [forallb]; now rewrite Hd, Hacc).
  - destruct (n / 10 =? 0); exact Hc.
  - destruct (n / 10 =? 0); [exact Hc | now apply IH].
Qed.

(** [str(n)] of a non-negative integer is a run of digits. *)
Lemma str_of_int_numeric (n : Z) :
  0 <= n -> numeric (str_of_int n) = true.
Proof.
  intros H. unfold str_of_int.
  destruct (Z.ltb_spec n 0); [lia|].
  now apply dec_digits_numeric.
Qed.

Lemma build_number_numeric (now : Z) :
  numeric (str_of_int (now mod 10000)) = true.
Proof. apply str_of_int_numeric, Z.mod_pos_bound. lia. Qed.

(** *** The shape of the four matches *)

Lemma pattern4_shape (g : str) :
  atoms_lang (group1 pattern4) g ->
  exists a b c d,
    numeric a = true /\ numeric b = true /\ numeric c = true
    /\ numeric d = true
    /\ g = a ++ "."%char :: b ++ "."%char :: c ++ "."%char :: d.
Proof.
  cbn [group1 pattern4 atoms_lang].
  intros (a & u1 & -> & Ha & x1 & u2 & -> & Hx1 & b & u3 & -> & Hb
          & x2 & u4 & -> & Hx2 & c & u5 & -> & Hc & x3 & u6 & -> & Hx3
          & d & u7 & -> & Hd & ->).
  apply dot_lang in Hx1, Hx2, Hx3. subst.
  apply digits_lang in Ha, Hb, Hc, Hd.
  exists a, b, c, d. rewrite app_nil_r. cbn [app]. auto 6.
Qed.

Lemma pattern3_shape (g : str) :
  atoms_lang (group1 pattern3) g ->
  exists a b c,
    numeric a = true /\ numeric b = true /\ numeric c = true
    /\ g = a ++ "."%char :: b ++ "."%char :: c.
Proof.
  cbn [group1 pattern3 atoms_lang].
  intros (a & u1 & -> & Ha & x1 & u2 & -> & Hx1 & b & u3 & -> & Hb
          & x2 & u4 & -> & Hx2 & c & u5 & -> & Hc & ->).
  apply dot_lang in Hx1, Hx2. subst.
  apply digits_lang in Ha, Hb, Hc.
  exists a, b, c. rewrite app_nil_r. cbn [app]. auto 6.
Qed.

Lemma pattern2_shape (g : str) :
  atoms_lang (group1 pattern2) g ->
  exists a b,
    numeric a = true /\ numeric b = true /\ g = a ++ "."%char :: b.
Proof.
  cbn [group1 pattern2 atoms_lang].
  intros (a & u1 & -> & Ha & x1 & u2 & -> & Hx1 & b & u3 & -> & Hb & ->).
  apply dot_lang in Hx1. subst.
  apply digits_lang in Ha, Hb.
  exists a, b. rewrite app_nil_r. cbn [app]. auto 6.
Qed.

Lemma pattern1_shape (g : str) :
  atoms_lang (group1 pattern1) g -> numeric g = true.
Proof.
  cbn [group1 pattern1 atoms_lang].
  intros (a & u1 & -> & Ha & ->).
  apply digits_lang in Ha. now rewrite app_nil_r.
Qed.

(** *** Normalisation of each shape *)

Lemma split_dotted4 (a b c d : str) :
  numeric a = true -> numeric b = true -> numeric c = true ->
  numeric d = true ->
  split "." (a ++ "."%char :: b ++ "."%char :: c ++ "."%char :: d)
  = [a; b; c; d].
Proof.
  intros Ha Hb Hc Hd.
  rewrite !split_digits_dot by now apply numeric_digits.
  now rewrite split_digits by now apply numeric_digits.
Qed.

Lemma normalize_4 (now : Z) (a b c d : str) :
  numeric a = true -> numeric b = true -> numeric c = true ->
  numeric d = true ->
  _normalize_version now
    (a ++ "."%char :: b ++ "."%char :: c ++ "."%char :: d)
  = a ++ "."%char :: b ++ "."%char :: c ++ "."%char :: d.
Proof.
  intros Ha Hb Hc Hd. unfold _normalize_version.
  rewrite split_dotted4 by assumption. reflexivity.
Qed.

Lemma normalize_3 (now : Z) (a b c : str) :
  numeric a = true -> numeric b = true -> numeric c = true ->
  _normalize_version now (a ++ "."%char :: b ++ "."%char :: c)
  = (a ++ "."%char :: b ++ "."%char :: c)
    ++ s "." ++ str_of_int (now mod 10000).
Proof.
  intros Ha Hb Hc. unfold _normalize_version.
  rewrite !split_digits_dot by now apply numeric_digits.
  rewrite split_digits by now apply numeric_digits.
  cbn [length Nat.sub fill_parts Nat.eqb firstn join].
  cbn [s String.list_ascii_of_string].
  repeat (rewrite <- app_assoc; cbn [app]). reflexivity.
Qed.

Lemma normalize_2 (now : Z) (a b : str) :
  numeric a = true -> numeric b = true ->
  _normalize_version now (a ++ "."%char :: b)
  = (a ++ "."%char :: b) ++ s ".0." ++ str_of_int (now mod 10000).
Proof.
  intros Ha Hb. unfold _normalize_version.
  rewrite !split_digits_dot by now apply numeric_digits.
  rewrite split_digits by now apply numeric_digits.
  cbn [length Nat.sub fill_parts Nat.eqb firstn join].
  cbn [s String.list_ascii_of_string].
  repeat (rewrite <- app_assoc; cbn [app]). reflexivity.
Qed.

Lemma normalize_1 (now : Z) (a : str) :
  numeric a = true ->
  _normalize_version now a
  = a ++ s ".0.0." ++ str_of_int (now mod 10000).
Proof.
  intros Ha. unfold _normalize_version.
  rewrite split_digits by now apply numeric_digits.
  reflexivity.
Qed.

(** *** The date branch cannot be reached *)

Lemma star_total {A} (p : ascii -> bool) (k : str -> option A) :
  (forall t, k t <> None) -> forall t, star p k t <> None.
Proof.
  intros Hk t. induction t as [|c t IH]; simpl; [apply Hk|].
  destruct (p c); [|apply Hk].
  destruct (star p k t); simpl; [discriminate | apply Hk].
Qed.

Lemma digit_head_matches_pattern1 (c : ascii) (t : str) :
  is_digit c = true -> match_here pattern1 (c :: t) <> None.
Proof.
  intros Hc. unfold match_here. cbn [before group1 pattern1 match_atoms].
  cbn [quant opt_v digits class].
  assert (H : one is_digit
                (star is_digit
                   (fun rest : str =>
                      Some (firstn (length (c :: t) - length rest)
                              (c :: t))))
                (c :: t) <> None).
  { cbn [one]. rewrite Hc. apply star_total. discriminate. }
  destruct (one v_nocase _ (c :: t)); simpl; [discriminate | exact H].
Qed.

Lemma search_none_here (p : pattern) (t : str) :
  search p t = None -> match_here p t = None.
Proof.
  destruct t; cbn [search]; destruct (match_here p _);
    congruence.
Qed.

(** Where the single-number pattern finds nothing there is no digit,
    so the eight-digit search finds nothing either. *)
Lemma timestamp_branch_unreachable (filename : str) :
  search pattern1 filename = None ->
  search timestamp_pattern filename = None.
Proof.
  induction filename as [|c t IH]; intros H.
  - reflexivity.
  - pose proof (search_none_here _ _ H) as Hh.
    cbn [search] in H. rewrite Hh in H. specialize (IH H).
    cbn [search]. rewrite IH.
    destruct (match_here timestamp_pattern (c :: t)) as [g|] eqn:Hm;
      [|reflexivity].
    exfalso. unfold match_here in Hm.
    cbn [before group1 timestamp_pattern match_atoms quant class] in Hm.
    cbn [exactly] in Hm.
    apply one_sound in Hm as (c' & r & E & Hc & _).
    injection E as <- <-.
    now apply (digit_head_matches_pattern1 c t).
Qed.

Lemma extract_by_priority (now : Z) (filename : str) :
  _extract_version_from_filename now filename
  = match search pattern4 filename with
    | Some v => v
    | None =>
    match search pattern3 filename with
    | Some v => v ++ s "." ++ str_of_int (now mod 10000)
    | None =>
    match search pattern2 filename with
    | Some v => v ++ s ".0." ++ str_of_int (now mod 10000)
    | None =>
    match search pattern1 filename with
    | Some v => v ++ s ".0.0." ++ str_of_int (now mod 10000)
    | None =>
    match search timestamp_pattern filename with
    | Some t => s "1.0.0." ++ t
    | None => s "1.0.0.0"
    end end end end end.
Proof.
  unfold _extract_version_from_filename, patterns.
  cbn [first_match].
  destruct (search pattern4 filename) as [v|] eqn:H4.
  { apply search_sound in H4 as [H4 _].
    apply pattern4_shape in H4 as (a & b & c & d & ? & ? & ? & ? & ->).
    now apply normalize_4. }
  destruct (search pattern3 filename) as [v|] eqn:H3.
  { apply search_sound in H3 as [H3 _].
    apply pattern3_shape in H3 as (a & b & c & ? & ? & ? & ->).
    now apply normalize_3. }
  destruct (search pattern2 filename) as [v|] eqn:H2.
  { apply search_sound in H2 as [H2 _].
    apply pattern2_shape in H2 as (a & b & ? & ? & ->).
    now apply normalize_2. }
  destruct (search pattern1 filename) as [v|] eqn:H1.
  { apply search_sound in H1 as [H1 _].
    apply pattern1_shape in H1. now apply normalize_1. }
  reflexivity.
Qed.


(** C9.  Without an explicit version the version is inferred from the
    file name by the first pattern that matches, tried in the order
    four dotted numbers, three, two, one: a four-part match is the
    version itself, a shorter match is completed to four parts (zeros,
    and the clock's [now % 10000] as the last part).  When no pattern
    matches, an eight-digit token [t] gives ["1.0.0." ++ t], and
    otherwise the version is ["1.0.0.0"].  The file name
    ["motor_ctrl_v1.2.3.45.bin"] gives ["1.2.3.45"]. *)
Theorem inferred_version_follows_pattern_priority :
  forall (now : Z) (filename : str),
    _extract_version_from_filename now filename
    = match search pattern4 filename with
      | Some v => v
      | None =>
      match search pattern3 filename with
      | Some v => v ++ s "." ++ str_of_int (now mod 10000)
      | None =>
      match search pattern2 filename with
      | Some v => v ++ s ".0." ++ str_of_int (now mod 10000)
      | None =>
      match search pattern1 filename with
      | Some v => v ++ s ".0.0." ++ str_of_int (now mod 10000)
      | None =>
      match search timestamp_pattern filename with
      | Some t => s "1.0.0." ++ t
      | None => s "1.0.0.0"
      end end end end end
    /\ _extract_version_from_filename now (s "motor_ctrl_v1.2.3.45.bin")
       = s "1.2.3.45".
Proof.
  intros now filename. split; [|reflexivity].
  unfold _extract_version_from_filename, patterns.
  cbn [first_match].
  destruct (search pattern4 filename) as [v|] eqn:H4.
  { apply search_sound in H4 as [H4 _].
    apply pattern4_shape in H4 as (a & b & c & d & ? & ? & ? & ? & ->).
    now apply normalize_4. }
  destruct (search pattern3 filename) as [v|] eqn:H3.
  { apply search_sound in H3 as [H3 _].
    apply pattern3_shape in H3 as (a & b & c & ? & ? & ? & ->).
    now apply normalize_3. }
  destruct (search pattern2 filename) as [v|] eqn:H2.
  { apply search_sound in H2 as [H2 _].
    apply pattern2_shape in H2 as (a & b & ? & ? & ->).
    now apply normalize_2. }
  destruct (search pattern1 filename) as [v|] eqn:H1.
  { apply search_sound in H1 as [H1 _].
    apply pattern1_shape in H1. now apply normalize_1. }
  reflexivity.
Qed.

(** The inferred version always consists of four numeric components. *)
Lemma inferred_version_four_components (now : Z) (filename : str) :
  four_components (_extract_version_from_filename now filename) = true.
Proof.
  rewrite extract_by_priority.
  pose proof (build_number_numeric now) as HT.
  unfold four_components.
  destruct (search pattern4 filename) as [v|] eqn:H4.
  { apply search_sound in H4 as [H4 _].
    apply pattern4_shape in H4 as (a & b & c & d & Ha & Hb & Hc & Hd & ->).
    rewrite split_dotted4 by assumption. now rewrite Ha, Hb, Hc, Hd. }
  destruct (search pattern3 filename) as [v|] eqn:H3.
  { apply search_sound in H3 as [H3 _].
    apply pattern3_shape in H3 as (a & b & c & Ha & Hb & Hc & ->).
    cbn [s String.list_ascii_of_string].
    repeat (rewrite <- app_assoc; cbn [app]).
    rewrite split_dotted4 by assumption. now rewrite Ha, Hb, Hc, HT. }
  destruct (search pattern2 filename) as [v|] eqn:H2.
  { apply search_sound in H2 as [H2 _].
    apply pattern2_shape in H2 as (a & b & Ha & Hb & ->).
    cbn [s String.list_ascii_of_string].
    repeat (rewrite <- app_assoc; cbn [app]).
    pose proof (split_dotted4 a b ["0"%char] _ Ha Hb eq_refl HT) as E.
    cbn [app] in E. rewrite E. now rewrite Ha, Hb, HT. }
  destruct (search pattern1 filename) as [v|] eqn:H1.
  { apply search_sound in H1 as [H1 _].
    apply pattern1_shape in H1.
    cbn [s String.list_ascii_of_string app].
    pose proof (split_dotted4 v ["0"%char] ["0"%char] _
                  H1 eq_refl eq_refl HT) as E.
    cbn [app] in E. rewrite E. now rewrite H1, HT. }
  rewrite (timestamp_branch_unreachable filename H1). reflexivity.
Qed.

End VersionInference.

(** ** Listing and the latest firmware *)

Section Listing.
Import Py Crypto Regex FirmwareManager Reference.

Lemma insert_desc_perm (x : FirmwareInfo) (l : list FirmwareInfo) :
  Permutation (insert_desc x l) (x :: l).
Proof.
  induction l as [|y l IH]; cbn [insert_desc]; [reflexivity|].
  destruct (key_compare (version_sort_key y) (version_sort_key x));
    try reflexivity.
  rewrite IH. apply perm_swap.
Qed.

Lemma sort_reverse_perm (l : list FirmwareInfo) :
  Permutation (sort_reverse l) l.
Proof.
  induction l as [|x l IH]; cbn [sort_reverse fold_right]; [reflexivity|].
  fold (sort_reverse l). rewrite insert_desc_perm. now constructor.
Qed.

Lemma lex_compare_antisym {A} (cmp : A -> A -> comparison) :
  (forall x y, cmp y x = CompOpp (cmp x y)) ->
  forall a b, lex_compare cmp b a = CompOpp (lex_compare cmp a b).
Proof.
  intros Hc. induction a as [|x a IH]; intros [|y b]; cbn [lex_compare];
    try reflexivity.
  rewrite (Hc x y). destruct (cmp x y); cbn [CompOpp]; auto.
Qed.

Lemma key_compare_antisym (a b : list Z * str) :
  key_compare b a = CompOpp (key_compare a b).
Proof.
  unfold key_compare, str_compare.
  rewrite (lex_compare_antisym Z.compare Z.compare_antisym (fst a) (fst b)).
  destruct (lex_compare Z.compare (fst a) (fst b)); cbn [CompOpp];
    try reflexivity.
  apply lex_compare_antisym. intros x y. apply Z.compare_antisym.
Qed.

Lemma insert_desc_sorted (x : FirmwareInfo) (l : list FirmwareInfo) :
  Sorted key_ge l -> Sorted key_ge (insert_desc x l).
Proof.
  induction l as [|y l IH]; intros Hs; cbn [insert_desc].
  - repeat constructor.
  - apply Sorted_inv in Hs as [Hs Hhd].
    destruct (key_compare (version_sort_key y) (version_sort_key x))
      eqn:Hc.
    + constructor; [now constructor|]. constructor. unfold key_ge.
      rewrite key_compare_antisym, Hc. discriminate.
    + constructor; [now constructor|]. constructor. unfold key_ge.
      rewrite key_compare_antisym, Hc. discriminate.
    + constructor; [now apply IH|].
      destruct l as [|z l]; cbn [insert_desc].
      * constructor. unfold key_ge. rewrite Hc. discriminate.
      * destruct (key_compare (version_sort_key z) (version_sort_key x)).
        -- constructor. unfold key_ge. rewrite Hc. discriminate.
        -- constructor. unfold key_ge. rewrite Hc. discriminate.
        -- constructor. now apply HdRel_inv in Hhd.
Qed.

Lemma sort_reverse_sorted (l : list FirmwareInfo) :
  Sorted key_ge (sort_reverse l).
Proof.
  induction l as [|x l IH]; cbn [sort_reverse fold_right].
  - constructor.
  - now apply insert_desc_sorted.
Qed.


End Listing.

(** ** Encryption in place *)

Section EncryptInPlace.
Import Py Crypto Regex FirmwareManager Reference.

Variable md5 : bytes -> bytes.
Variable aes_cbc : bytes -> bytes -> bytes -> bytes.
Variable pbkdf2 : bytes -> Z -> nat -> bytes -> bytes.

Ltac settle :=
  repeat match goal with
    | |- _ /\ _ => split
    | |- _ -> _ => intro
    | |- forall _, _ => intro
    | H : _ \/ _ |- _ => destruct H
    end;
  cbn [firmwares files metadata_file files_after_write] in *;
  try reflexivity; try congruence.

Lemma manager_eta (m : manager) :
  {| firmwares := firmwares m;
     files := files m;
     metadata_file := metadata_file m |} = m.
Proof. now destruct m. Qed.

(** C6 (as amended).  On a record that is already encrypted and whose
    backing file can be read and is not empty, [encrypt_firmware]
    returns [True]; whatever the file, the call changes nothing: the
    catalog with all its records, the files and the sidecar are the ones
    before the call, and no randomness is consumed.  With a missing,
    unreadable or empty file the result is [False]. *)
Theorem encrypt_already_encrypted_changes_nothing :
  forall (m : manager) (firmware_id : str) (fw : FirmwareInfo)
         (algorithm : EncryptionType) (password : option str)
         (key : option bytes) (read_ok : bool) (w : write_outcome)
         (g : entropy),
    get_firmware m firmware_id = Some fw ->
    is_encrypted fw = true ->
    exists b,
      encrypt_firmware md5 aes_cbc pbkdf2 m firmware_id algorithm password
        key read_ok w g = (b, m, g)
      /\ (b = true <->
          exists content,
            read_firmware_content m read_ok firmware_id = Some content
            /\ content <> []).
Proof.
  intros m fid fw alg pw key read_ok w g Hget Henc.
  unfold encrypt_firmware, encrypt_firmware_body. rewrite Hget.
  destruct (read_firmware_content m read_ok fid) as [[|c content]|].
  - exists false. split; [reflexivity|]. split; [discriminate|].
    intros (content & E & Hne). injection E as <-. congruence.
  - rewrite Henc. exists true. split; [reflexivity|].
    split; [|reflexivity]. intros _. exists (c :: content).
    split; [reflexivity | discriminate].
  - exists false. split; [reflexivity|]. split; [discriminate|].
    intros (content & E & _). discriminate.
Qed.

(** C7 (as amended).  [encrypt_firmware] returns [False] on an unknown
    id, on a file that is missing, unreadable or empty, on an error of
    the cipher and on a failed write.  In the first three cases the
    manager is left as it was.  On a failed write the records and the
    sidecar are as before; the file is as before when it could not be
    opened, and holds the bytes written so far when the write failed
    after the file was truncated.  Whenever the result is [False] the
    records and the sidecar are unchanged. *)
Theorem encrypt_failure_keeps_records :
  forall (m : manager) (firmware_id : str)
         (algorithm : EncryptionType) (password : option str)
         (key : option bytes) (read_ok : bool) (w : write_outcome)
         (g : entropy) (b : bool) (m' : manager) (g' : entropy),
    encrypt_firmware md5 aes_cbc pbkdf2 m firmware_id algorithm password
        key read_ok w g
    = (b, m', g') ->
    (get_firmware m firmware_id = None -> b = false /\ m' = m)
    /\ (read_firmware_content m read_ok firmware_id = None
        \/ read_firmware_content m read_ok firmware_id = Some []
        -> b = false /\ m' = m)
    /\ (forall fw content e,
          get_firmware m firmware_id = Some fw ->
          is_encrypted fw = false ->
          read_firmware_content m read_ok firmware_id = Some content ->
          content <> [] ->
          Crypto.encrypt_firmware md5 aes_cbc pbkdf2 content algorithm key
            password (Some (version fw)) g
          = Raise e ->
          b = false /\ m' = m)
    /\ (forall fw content out meta g1,
          get_firmware m firmware_id = Some fw ->
          is_encrypted fw = false ->
          read_firmware_content m read_ok firmware_id = Some content ->
          content <> [] ->
          Crypto.encrypt_firmware md5 aes_cbc pbkdf2 content algorithm key
            password (Some (version fw)) g
          = Ok ((out, meta), g1) ->
          w <> Written ->
          b = false
          /\ firmwares m' = firmwares m
          /\ metadata_file m' = metadata_file m
          /\ files m' = files_after_write (files m) (filename fw) out w
          /\ (w = OpenFailed -> m' = m))
    /\ (b = false ->
        firmwares m' = firmwares m
        /\ metadata_file m' = metadata_file m).
Proof.
  intros m fid alg pw key read_ok w g b m' g' H.
  unfold encrypt_firmware, encrypt_firmware_body in H.
  destruct (get_firmware m fid) as [fw|] eqn:Hget.
  2:{ injection H as <- <- <-. settle. }
  destruct (read_firmware_content m read_ok fid) as [[|c content]|]
    eqn:Hread.
  1,3: injection H as <- <- <-; settle.
  destruct (is_encrypted fw) eqn:Henc.
  { injection H as <- <- <-. settle. }
  destruct (Crypto.encrypt_firmware md5 aes_cbc pbkdf2 (c :: content)
              alg key pw (Some (version fw)) g)
    as [[[out meta] g1]|e] eqn:Hc.
  2:{ injection H as <- <- <-. settle. }
  destruct w as [| |n]; cbn [write_file files_after_write] in H;
    injection H as <- <- <-.
  - settle.
  - rewrite manager_eta. settle.
  - settle.
Qed.

End EncryptInPlace.

Section EncryptInPlaceExamples.
Import Py Crypto Regex FirmwareManager Reference.

Lemma encrypt_already_encrypted_changes_nothing_witness :
  exists b,
    encrypt_firmware zero_digest null_cipher null_kdf
      (manager_of [sample_record (s "a") (s "1.0.0.0") (s "t") true]
         [(s "a.bin", [7])])
      (s "fw_1_a") XOR (Some (s "pw")) None true Written zero_entropy
    = (b,
       manager_of [sample_record (s "a") (s "1.0.0.0") (s "t") true]
         [(s "a.bin", [7])],
       zero_entropy).
Proof.
  destruct (encrypt_already_encrypted_changes_nothing
              zero_digest null_cipher null_kdf
              (manager_of
                 [sample_record (s "a") (s "1.0.0.0") (s "t") true]
                 [(s "a.bin", [7])])
              (s "fw_1_a")
              (sample_record (s "a") (s "1.0.0.0") (s "t") true)
              XOR (Some (s "pw")) None true Written zero_entropy
              eq_refl eq_refl) as (b & H & _).
  exists b. exact H.
Defined.

(** C6, counterexample: an encrypted record whose backing file is
    missing.  The call returns [False]. *)
Lemma encrypt_already_encrypted_counterexample :
  option_map is_encrypted
    (get_firmware encrypted_without_file (s "fw_1_a")) = Some true
  /\ fst (fst (encrypt_firmware zero_digest null_cipher null_kdf
                 encrypted_without_file (s "fw_1_a") XOR
                 (Some (s "pw")) None true Written zero_entropy))
     = false.
Proof. vm_compute. split; reflexivity. Qed.

Lemma encrypt_failure_keeps_records_witness :
  firmwares
    (snd (fst (encrypt_firmware zero_digest null_cipher null_kdf
                 plain_with_file (s "fw_1_a") NONE None None true
                 (WriteFailed 0) zero_entropy)))
  = firmwares plain_with_file.
Proof.
  destruct (encrypt_firmware zero_digest null_cipher null_kdf
              plain_with_file (s "fw_1_a") NONE None None true
              (WriteFailed 0) zero_entropy) as [[b m'] g'] eqn:E.
  destruct (encrypt_failure_keeps_records
              zero_digest null_cipher null_kdf _ _ _ _ _ _ _ _ _ _ _ E)
    as (_ & _ & _ & _ & H).
  cbn [fst snd]. apply H.
  vm_compute in E. now injection E as <- _ _.
Defined.

(** C7, counterexample: the write fails after the file was truncated.
    The call returns [False] and the backing file, which held three
    bytes, is empty. *)
Lemma encrypt_failure_counterexample :
  let r := encrypt_firmware zero_digest null_cipher null_kdf
             plain_with_file (s "fw_1_a") NONE None None true
             (WriteFailed 0) zero_entropy in
  fst (fst r) = false
  /\ dict_get (files plain_with_file) (s "a.bin") = Some [1; 2; 3]
  /\ dict_get (files (snd (fst r))) (s "a.bin") = Some [].
Proof. vm_compute. repeat split; reflexivity. Qed.

End EncryptInPlaceExamples.

(** ** Catalog invariants *)

Section Dictionaries.
Import Py.

Lemma str_eqb_eq (a b : str) : str_eqb a b = true <-> a = b.
Proof.
  unfold str_eqb. destruct (list_eq_dec ascii_dec a b); split;
    congruence.
Qed.

Lemma str_eqb_refl (a : str) : str_eqb a a = true.
Proof. now apply str_eqb_eq. Qed.

Lemma str_eqb_neq (a b : str) : str_eqb a b = false <-> a <> b.
Proof.
  unfold str_eqb. destruct (list_eq_dec ascii_dec a b); split;
    congruence.
Qed.

Context {V : Type}.

Lemma dict_set_keys (d : dict V) (k : str) (v : V) (k' : str) :
  In k' (map fst (dict_set d k v)) <-> k' = k \/ In k' (map fst d).
Proof.
  induction d as [|[k0 v0] d IH]; cbn [dict_set map fst In].
  - intuition.
  - destruct (str_eqb k0 k) eqn:E; cbn [map fst In].
    + apply str_eqb_eq in E. subst. intuition.
    + rewrite IH. intuition.
Qed.

Lemma dict_set_NoDup (d : dict V) (k : str) (v : V) :
  NoDup (map fst d) -> NoDup (map fst (dict_set d k v)).
Proof.
  induction d as [|[k0 v0] d IH]; cbn [dict_set map fst]; intros H.
  - repeat constructor. intros [].
  - apply NoDup_cons_iff in H as [Hn Hd].
    destruct (str_eqb k0 k) eqn:E; cbn [map fst].
    + now constructor.
    + constructor; [|now apply IH].
      rewrite dict_set_keys. intros [->|Hin]; [|contradiction].
      apply str_eqb_neq in E. congruence.
Qed.

Lemma dict_set_Forall (P : str * V -> Prop) (d : dict V) (k : str)
  (v : V) :
  Forall P d -> P (k, v) -> Forall P (dict_set d k v).
Proof.
  induction d as [|[k0 v0] d IH]; cbn [dict_set]; intros H Hp.
  - now repeat constructor.
  - apply Forall_cons_iff in H as [H0 Hd].
    destruct (str_eqb k0 k) eqn:E.
    + apply str_eqb_eq in E. subst. now constructor.
    + constructor; [exact H0 | now apply IH].
Qed.

Lemma dict_del_keys (d : dict V) (k k' : str) :
  In k' (map fst (dict_del d k)) -> In k' (map fst d).
Proof.
  induction d as [|[k0 v0] d IH]; cbn [dict_del map fst In]; [auto|].
  destruct (str_eqb k0 k); cbn [map fst In]; intuition.
Qed.

Lemma dict_del_NoDup (d : dict V) (k : str) :
  NoDup (map fst d) -> NoDup (map fst (dict_del d k)).
Proof.
  induction d as [|[k0 v0] d IH]; cbn [dict_del map fst]; intros H;
    [constructor|].
  apply NoDup_cons_iff in H as [Hn Hd].
  destruct (str_eqb k0 k); cbn [map fst]; [exact Hd|].
  constructor; [|now apply IH].
  intros Hin. apply Hn. now apply dict_del_keys in Hin.
Qed.

Lemma dict_del_Forall (P : str * V -> Prop) (d : dict V) (k : str) :
  Forall P d -> Forall P (dict_del d k).
Proof.
  induction d as [|[k0 v0] d IH]; cbn [dict_del]; intros H;
    [constructor|].
  apply Forall_cons_iff in H as [H0 Hd].
  destruct (str_eqb k0 k); [exact Hd|].
  constructor; [exact H0 | now apply IH].
Qed.

Lemma dict_get_In (d : dict V) (k : str) (v : V) :
  dict_get d k = Some v -> In (k, v) d.
Proof.
  induction d as [|[k0 v0] d IH]; cbn [dict_get]; [discriminate|].
  destruct (str_eqb k0 k) eqn:E.
  - intros H. injection H as ->. apply str_eqb_eq in E. subst.
    now left.
  - intros H. right. now apply IH.
Qed.

Lemma dict_set_fresh (d : dict V) (k : str) (v : V) :
  ~ In k (map fst d) -> dict_set d k v = d ++ [(k, v)].
Proof.
  induction d as [|[k0 v0] d IH]; cbn [dict_set map fst In app];
    intros H; [reflexivity|].
  destruct (str_eqb k0 k) eqn:E.
  - apply str_eqb_eq in E. subst. tauto.
  - rewrite IH by tauto. reflexivity.
Qed.

Lemma dict_get_set_same (d : dict V) (k : str) (v : V) :
  dict_get (dict_set d k v) k = Some v.
Proof.
  induction d as [|[k0 v0] d IH]; cbn [dict_set dict_get].
  - now rewrite str_eqb_refl.
  - destruct (str_eqb k0 k) eqn:E; cbn [dict_get]; now rewrite E.
Qed.

(** Reading a dictionary back entry by entry rebuilds it. *)
Lemma dict_rebuild (d : dict V) :
  forall acc,
    NoDup (map fst (acc ++ d)) ->
    fold_left (fun a kv => dict_set a (fst kv) (snd kv)) d acc = acc ++ d.
Proof.
  induction d as [|[k v] d IH]; intros acc H; cbn [fold_left fst snd].
  - now rewrite app_nil_r.
  - rewrite dict_set_fresh.
    + rewrite IH; rewrite <- app_assoc; [reflexivity | exact H].
    + rewrite map_app in H. apply NoDup_remove_2 in H.
      intros Hin. apply H. apply in_or_app. now left.
Qed.

End Dictionaries.

Section CatalogInvariants.
Import Py Crypto Regex FirmwareManager Reference.

Variable md5 : bytes -> bytes.
Variable aes_cbc : bytes -> bytes -> bytes -> bytes.
Variable pbkdf2 : bytes -> Z -> nat -> bytes -> bytes.

(** What a successful [add_firmware] stores. *)
Lemma add_firmware_result m file_path original_filename version
  target_device metadata now now_iso fw m' :
  add_firmware md5 m file_path original_filename version target_device
    metadata now now_iso = Ok (fw, m') ->
  firmwares m' = dict_set (firmwares m) (id fw) fw
  /\ metadata_file m' = Some (firmwares m')
  /\ files m' = files m
  /\ id fw = s "fw_" ++ str_of_int now ++ s "_" ++ stem file_path
  /\ FirmwareManager.version fw
     = match version with
       | Some (c :: v) => c :: v
       | _ => _extract_version_from_filename now original_filename
       end.
Proof.
  unfold add_firmware.
  destruct (dict_get (files m) file_path); [|discriminate].
  intros H. injection H as <- <-. cbn. auto.
Qed.

(** What [encrypt_firmware] does to the catalog: nothing, or one entry
    replaced by a record of the same id and version. *)
Lemma encrypt_firmware_catalog m fid alg pw key read_ok w g :
  let m' := snd (fst (encrypt_firmware md5 aes_cbc pbkdf2 m fid alg pw
                        key read_ok w g)) in
  (firmwares m' = firmwares m /\ metadata_file m' = metadata_file m)
  \/ (exists fw fw',
        dict_get (firmwares m) fid = Some fw
        /\ id fw' = id fw
        /\ FirmwareManager.version fw' = FirmwareManager.version fw
        /\ is_encrypted fw' = true
        /\ firmwares m' = dict_set (firmwares m) fid fw'
        /\ metadata_file m' = Some (firmwares m')).
Proof.
  unfold encrypt_firmware, encrypt_firmware_body, get_firmware.
  destruct (dict_get (firmwares m) fid) as [fw|] eqn:Hget;
    [|left; auto].
  destruct (read_firmware_content m read_ok fid) as [[|c content]|];
    try (left; now auto).
  destruct (is_encrypted fw); [left; now auto|].
  destruct (Crypto.encrypt_firmware md5 aes_cbc pbkdf2 (c :: content)
              alg key pw (Some (FirmwareManager.version fw)) g)
    as [[[out meta] g1]|e]; [|left; now auto].
  destruct w; cbn [write_file]; try (left; now auto).
  right. eexists fw, _. split; [reflexivity|].
  cbn [fst snd _save_metadata firmwares metadata_file].
  refine (conj _ (conj _ (conj _ (conj _ _)))).
  4: reflexivity. all: reflexivity.
Qed.

Section EntryProperty.

Variable E : str * FirmwareInfo -> Prop.

(** [E] looks at the key, the id and the version only. *)
Hypothesis E_stable :
  forall k fw fw',
    E (k, fw) -> id fw' = id fw ->
    FirmwareManager.version fw' = FirmwareManager.version fw ->
    E (k, fw').

(** [E] holds for the records start-up creates. *)
Hypothesis E_created :
  forall m name now ctime scan_time fw,
    _create_firmware_from_file md5 m name now ctime scan_time = Ok fw ->
    E (id fw, fw).

Lemma scan_all m now ctime scan_time :
  catalog_all E m ->
  catalog_all E (_scan_existing_files md5 m now ctime scan_time).
Proof.
  unfold _scan_existing_files.
  generalize (filter is_bin (map fst (files m))) as names.
  intros names Hm.
  assert (H : catalog_all E
                (fold_left
                   (fun m name =>
                      if str_eqb name (s "metadata.json") then m
                      else
                        match _create_firmware_from_file md5 m name
                                (now name) (ctime name) scan_time with
                        | Ok firmware =>
                            {| firmwares :=
                                 dict_set (firmwares m) (id firmware)
                                   firmware;
                               files := files m;
                               metadata_file := metadata_file m |}
                        | Raise _ => m
                        end) names m)).
  { revert m Hm. induction names as [|n names IH]; intros m Hm;
      cbn [fold_left]; [exact Hm|].
    apply IH. destruct (str_eqb n (s "metadata.json")); [exact Hm|].
    destruct (_create_firmware_from_file md5 m n (now n) (ctime n)
                scan_time) as [fw|] eqn:Hc; [|exact Hm].
    destruct Hm as [Hf Hs]. split; cbn [firmwares metadata_file].
    - apply dict_set_Forall; [exact Hf|]. eapply E_created, Hc.
    - exact Hs. }
  match goal with
  | |- catalog_all E (match firmwares ?x with _ => _ end) =>
      set (X := x) in *
  end.
  destruct (firmwares X) eqn:Ef; [exact H|].
  destruct H as [Hf Hs].
  unfold _save_metadata. split; cbn [firmwares metadata_file]; exact Hf.
Qed.

Lemma perform_all m op :
  (forall fp ofn v td md now iso fw m',
     op = Add fp ofn v td md now iso ->
     add_firmware md5 m fp ofn v td md now iso = Ok (fw, m') ->
     E (id fw, fw)) ->
  catalog_all E m ->
  catalog_all E (perform md5 aes_cbc pbkdf2 m op).
Proof.
  intros Hadd Hm. destruct op as [fp ofn v td md now iso|fid
                                 |fid alg pw key read_ok w g
                                 |now ctime scan_time];
    cbn [perform].
  - destruct (add_firmware md5 m fp ofn v td md now iso)
      as [[fw m']|e] eqn:Ha; [|exact Hm].
    pose proof (Hadd _ _ _ _ _ _ _ _ _ eq_refl Ha) as HE.
    apply add_firmware_result in Ha as (Hf & Hs & _).
    destruct Hm as [Hm _].
    split; [|rewrite Hs]; rewrite Hf; now apply dict_set_Forall.
  - unfold remove_firmware.
    destruct (dict_get (firmwares m) fid); [|exact Hm].
    destruct Hm as [Hm _]. cbn [snd _save_metadata].
    split; cbn [firmwares metadata_file]; now apply dict_del_Forall.
  - destruct (encrypt_firmware_catalog m fid alg pw key read_ok w g)
      as [[Hf Hs]|(fw & fw' & Hget & Hid & Hv & _ & Hf & Hs)].
    + unfold catalog_all. rewrite Hf, Hs. exact Hm.
    + destruct Hm as [Hm _].
      assert (HE : E (fid, fw')).
      { apply (E_stable fid fw fw'); [|exact Hid|exact Hv].
        apply dict_get_In in Hget.
        rewrite Forall_forall in Hm. now apply Hm. }
      split; [|rewrite Hs]; rewrite Hf; now apply dict_set_Forall.
  - destruct Hm as [_ Hs]. unfold _load_metadata.
    destruct (metadata_file m) as [data|].
    + assert (H : forall acc,
                Forall E acc ->
                Forall E (fold_left
                            (fun a kv => dict_set a (fst kv) (snd kv))
                            data acc)).
      { induction data as [|[k x] data IH]; intros acc Ha;
          cbn [fold_left fst snd]; [exact Ha|].
        apply Forall_cons_iff in Hs as [Hk Hs].
        apply (IH Hs). now apply dict_set_Forall. }
      split; cbn [firmwares metadata_file]; [apply H; constructor|].
      exact Hs.
    + apply scan_all. split; cbn; [constructor | exact I].
Qed.

End EntryProperty.

Lemma scan_nodup m now ctime scan_time :
  catalog_nodup m ->
  catalog_nodup (_scan_existing_files md5 m now ctime scan_time).
Proof.
  unfold _scan_existing_files.
  generalize (filter is_bin (map fst (files m))) as names.
  intros names Hm.
  assert (H : catalog_nodup
                (fold_left
                   (fun m name =>
                      if str_eqb name (s "metadata.json") then m
                      else
                        match _create_firmware_from_file md5 m name
                                (now name) (ctime name) scan_time with
                        | Ok firmware =>
                            {| firmwares :=
                                 dict_set (firmwares m) (id firmware)
                                   firmware;
                               files := files m;
                               metadata_file := metadata_file m |}
                        | Raise _ => m
                        end) names m)).
  { revert m Hm. induction names as [|n names IH]; intros m Hm;
      cbn [fold_left]; [exact Hm|].
    apply IH. destruct (str_eqb n (s "metadata.json")); [exact Hm|].
    destruct (_create_firmware_from_file md5 m n (now n) (ctime n)
                scan_time) as [fw|]; [|exact Hm].
    destruct Hm as [Hf Hs]. split; cbn [firmwares metadata_file].
    - now apply dict_set_NoDup.
    - exact Hs. }
  match goal with
  | |- catalog_nodup (match firmwares ?x with _ => _ end) =>
      set (X := x) in *
  end.
  destruct (firmwares X) eqn:Ef; [exact H|].
  destruct H as [Hf Hs].
  unfold _save_metadata. split; cbn [firmwares metadata_file]; exact Hf.
Qed.

Lemma perform_nodup m op :
  catalog_nodup m -> catalog_nodup (perform md5 aes_cbc pbkdf2 m op).
Proof.
  intros Hm. destruct op as [fp ofn v td md now iso|fid
                            |fid alg pw key read_ok w g
                            |now ctime scan_time];
    cbn [perform].
  - destruct (add_firmware md5 m fp ofn v td md now iso)
      as [[fw m']|e] eqn:Ha; [|exact Hm].
    apply add_firmware_result in Ha as (Hf & Hs & _).
    destruct Hm as [Hm _].
    split; [|rewrite Hs]; rewrite Hf; now apply dict_set_NoDup.
  - unfold remove_firmware.
    destruct (dict_get (firmwares m) fid); [|exact Hm].
    destruct Hm as [Hm _]. cbn [snd _save_metadata].
    split; cbn [firmwares metadata_file]; now apply dict_del_NoDup.
  - destruct (encrypt_firmware_catalog m fid alg pw key read_ok w g)
      as [[Hf Hs]|(fw & fw' & Hget & Hid & Hv & _ & Hf & Hs)].
    + unfold catalog_nodup. rewrite Hf, Hs. exact Hm.
    + destruct Hm as [Hm _].
      split; [|rewrite Hs]; rewrite Hf; now apply dict_set_NoDup.
  - destruct Hm as [_ Hs]. unfold _load_metadata.
    destruct (metadata_file m) as [data|].
    + assert (H : forall acc,
                NoDup (map fst acc) ->
                NoDup (map fst
                         (fold_left
                            (fun a kv => dict_set a (fst kv) (snd kv))
                            data acc))).
      { clear. induction data as [|[k x] data IH]; intros acc Ha;
          cbn [fold_left fst snd]; [exact Ha|].
        apply IH. now apply dict_set_NoDup. }
      split; cbn [firmwares metadata_file]; [apply H; constructor|].
      exact Hs.
    + apply scan_nodup. split; cbn; [constructor | exact I].
Qed.

Lemma created_stored_under_id m name now ctime scan_time fw :
  _create_firmware_from_file md5 m name now ctime scan_time = Ok fw ->
  stored_under_id (id fw, fw).
Proof. reflexivity. Qed.

Lemma created_version_four m name now ctime scan_time fw :
  _create_firmware_from_file md5 m name now ctime scan_time = Ok fw ->
  version_four (id fw, fw).
Proof.
  unfold _create_firmware_from_file.
  destruct (dict_get (files m) name); [|discriminate].
  intros H. injection H as <-. unfold version_four. cbn.
  apply inferred_version_four_components.
Qed.

Lemma run_nodup (ops : list operation) :
  forall m,
    catalog_nodup m ->
    catalog_nodup (fold_left (perform md5 aes_cbc pbkdf2) ops m).
Proof.
  induction ops as [|op ops IH]; intros m Hm; cbn [fold_left];
    [exact Hm|].
  now apply IH, perform_nodup.
Qed.

Lemma run_stored_under_id (ops : list operation) :
  forall m,
    catalog_all stored_under_id m ->
    catalog_all stored_under_id
      (fold_left (perform md5 aes_cbc pbkdf2) ops m).
Proof.
  induction ops as [|op ops IH]; intros m Hm; cbn [fold_left];
    [exact Hm|].
  apply IH, perform_all; try assumption.
  - unfold stored_under_id. cbn [fst snd]. congruence.
  - apply created_stored_under_id.
  - reflexivity.
Qed.

Lemma run_version_four (ops : list operation) :
  Forall explicit_version_ok ops ->
  forall m,
    catalog_all version_four m ->
    catalog_all version_four
      (fold_left (perform md5 aes_cbc pbkdf2) ops m).
Proof.
  induction 1 as [|op ops Hop Hops IH]; intros m Hm; cbn [fold_left];
    [exact Hm|].
  apply IH, perform_all; try assumption.
  - unfold version_four. cbn [fst snd]. congruence.
  - apply created_version_four.
  - intros fp ofn v td md now iso fw m' -> Ha.
    apply add_firmware_result in Ha as (_ & _ & _ & _ & Hv).
    unfold version_four. cbn [snd]. rewrite Hv.
    cbn [explicit_version_ok] in Hop.
    destruct v as [[|c v]|]; try exact Hop;
      apply inferred_version_four_components.
Qed.


End CatalogInvariants.

Section CatalogExamples.
Import Py Crypto Regex FirmwareManager Reference.



End CatalogExamples.

(** ** Orders on versions and sort keys *)

Section LexicographicOrder.
Import Py.

Context {A : Type} (cmp : A -> A -> comparison).
Hypothesis cmp_eq : forall x y, cmp x y = Eq -> x = y.
Hypothesis cmp_refl : forall x, cmp x x = Eq.
Hypothesis cmp_lt_trans :
  forall x y z, cmp x y = Lt -> cmp y z = Lt -> cmp x z = Lt.

Lemma lex_compare_eq (a : list A) :
  forall b, lex_compare cmp a b = Eq -> a = b.
Proof.
  induction a as [|x a IH]; intros [|y b]; cbn [lex_compare];
    try discriminate; [reflexivity|].
  destruct (cmp x y) eqn:E; try discriminate.
  intros H. apply cmp_eq in E. apply IH in H. now subst.
Qed.

Lemma lex_compare_refl (a : list A) : lex_compare cmp a a = Eq.
Proof.
  induction a as [|x a IH]; cbn [lex_compare]; [reflexivity|].
  now rewrite cmp_refl.
Qed.

Lemma lex_compare_lt_trans (a : list A) :
  forall b c,
    lex_compare cmp a b = Lt -> lex_compare cmp b c = Lt ->
    lex_compare cmp a c = Lt.
Proof.
  induction a as [|x a IH]; intros [|y b] [|z c]; cbn [lex_compare];
    try discriminate; try reflexivity.
  destruct (cmp x y) eqn:Exy; try discriminate;
    destruct (cmp y z) eqn:Eyz; try discriminate; intros H1 H2.
  - apply cmp_eq in Exy, Eyz. subst. rewrite cmp_refl. now apply (IH b).
  - apply cmp_eq in Exy. subst. now rewrite Eyz.
  - apply cmp_eq in Eyz. subst. now rewrite Exy.
  - now rewrite (cmp_lt_trans x y z).
Qed.

End LexicographicOrder.

Section SortKeys.
Import Py Crypto Regex FirmwareManager Reference Checks.

Lemma Zcompare_lt_trans (x y z : Z) :
  (x ?= y) = Lt -> (y ?= z) = Lt -> (x ?= z) = Lt.
Proof. rewrite !Z.compare_lt_iff. lia. Qed.

Lemma code_injective (x y : ascii) : code x = code y -> x = y.
Proof.
  unfold code. intros H. apply N2Z.inj in H.
  rewrite <- (ascii_N_embedding x), <- (ascii_N_embedding y).
  now rewrite H.
Qed.

Lemma str_compare_eq (a b : str) : str_compare a b = Eq -> a = b.
Proof.
  apply lex_compare_eq. intros x y H.
  apply Z.compare_eq in H. now apply code_injective.
Qed.

Lemma str_compare_lt_trans (a b c : str) :
  str_compare a b = Lt -> str_compare b c = Lt -> str_compare a c = Lt.
Proof.
  apply lex_compare_lt_trans.
  - intros x y H. apply Z.compare_eq in H. now apply code_injective.
  - intros x. apply Z.compare_refl.
  - intros x y z. apply Zcompare_lt_trans.
Qed.

Lemma tuple_compare_lt_trans (a b c : list Z) :
  lex_compare Z.compare a b = Lt -> lex_compare Z.compare b c = Lt ->
  lex_compare Z.compare a c = Lt.
Proof.
  apply lex_compare_lt_trans;
    [apply Z.compare_eq | apply Z.compare_refl | apply Zcompare_lt_trans].
Qed.

Lemma key_compare_lt_trans (a b c : list Z * str) :
  key_compare a b = Lt -> key_compare b c = Lt -> key_compare a c = Lt.
Proof.
  unfold key_compare.
  destruct (lex_compare Z.compare (fst a) (fst b)) eqn:Eab;
    try discriminate;
    destruct (lex_compare Z.compare (fst b) (fst c)) eqn:Ebc;
    try discriminate; intros H1 H2.
  - apply lex_compare_eq in Eab, Ebc; try apply Z.compare_eq.
    rewrite Eab, Ebc, lex_compare_refl by apply Z.compare_refl.
    now apply (str_compare_lt_trans _ (snd b)).
  - apply lex_compare_eq in Eab; try apply Z.compare_eq.
    now rewrite Eab, Ebc.
  - apply lex_compare_eq in Ebc; try apply Z.compare_eq.
    now rewrite <- Ebc, Eab.
  - now rewrite (tuple_compare_lt_trans _ _ _ Eab Ebc).
Qed.

Lemma key_compare_eq (a b : list Z * str) :
  key_compare a b = Eq -> a = b.
Proof.
  unfold key_compare. destruct a as [a1 a2], b as [b1 b2]. cbn [fst snd].
  destruct (lex_compare Z.compare a1 b1) eqn:E; try discriminate.
  intros H. apply lex_compare_eq in E; try apply Z.compare_eq.
  apply str_compare_eq in H. now subst.
Qed.

Lemma key_ge_trans (x y z : FirmwareInfo) :
  key_ge x y -> key_ge y z -> key_ge x z.
Proof.
  unfold key_ge. intros Hxy Hyz Hxz.
  destruct (key_compare (version_sort_key x) (version_sort_key y)) eqn:E.
  - apply key_compare_eq in E. rewrite E in Hxz. contradiction.
  - contradiction.
  - apply Hyz.
    apply (key_compare_lt_trans _ (version_sort_key x)); [|exact Hxz].
    rewrite key_compare_antisym, E. reflexivity.
Qed.

Lemma sort_reverse_strongly_sorted (l : list FirmwareInfo) :
  StronglySorted key_ge (sort_reverse l).
Proof.
  apply Sorted_StronglySorted; [|apply sort_reverse_sorted].
  intros x y z. apply key_ge_trans.
Qed.

Lemma filter_filter {B} (f g : B -> bool) (l : list B) :
  filter g (filter f l) = filter (fun x => f x && g x) l.
Proof.
  induction l as [|x l IH]; cbn [filter]; [reflexivity|].
  destruct (f x); cbn [filter andb]; [|exact IH].
  destruct (g x); now rewrite IH.
Qed.

Lemma filter_true {B} (l : list B) : filter (fun _ => true) l = l.
Proof.
  induction l as [|x l IH]; cbn [filter]; [reflexivity | now rewrite IH].
Qed.

Lemma list_firmwares_sort_filter m td eo :
  list_firmwares m td eo
  = sort_reverse (filter (selected td eo) (map snd (firmwares m))).
Proof.
  unfold list_firmwares. f_equal.
  set (l := map snd (firmwares m)).
  destruct td as [[|c d]|]; destruct eo as [e|]; unfold selected;
    cbn [truthy]; try rewrite filter_filter;
    try (apply filter_ext; intros x; cbn [andb];
         now rewrite ?andb_true_r);
    (rewrite <- (filter_true l) at 1; apply filter_ext; intros x;
     reflexivity).
Qed.

(** X1.  [list_firmwares] returns exactly the records that pass the two
    filters (an empty device filter selects every device), each once, in
    descending order of the key (version padded or cut to four numbers,
    then upload time): every record stands before all records whose key
    is smaller or equal. *)
Theorem list_firmwares_sorted_selection :
  forall (m : manager) (target_device_filter : option str)
         (encrypted_only : option bool),
    Permutation (list_firmwares m target_device_filter encrypted_only)
      (filter (selected target_device_filter encrypted_only)
         (map snd (firmwares m)))
    /\ StronglySorted key_ge
         (list_firmwares m target_device_filter encrypted_only).
Proof.
  intros m td eo. rewrite list_firmwares_sort_filter. split.
  - apply sort_reverse_perm.
  - apply sort_reverse_strongly_sorted.
Qed.

End SortKeys.

(** ** Parsing versions *)

Section VersionReaders.
Import Py Crypto Regex FirmwareManager Reference Checks.

Lemma digit_not_space (c : ascii) : is_digit c = true -> is_space c = false.
Proof.
  unfold is_digit, is_space. intros H.
  apply andb_prop in H as [H1 H2].
  apply Z.leb_le in H1. apply Z.leb_le in H2.
  destruct (Z.eqb_spec (code c) 32); [lia|].
  destruct (Z.leb_spec 9 (code c)); [|reflexivity].
  destruct (Z.leb_spec (code c) 13); [lia | reflexivity].
Qed.

Lemma digit_not_sign (c : ascii) :
  is_digit c = true -> Ascii.eqb c "-" = false /\ Ascii.eqb c "+" = false
                       /\ Ascii.eqb c "_" = false.
Proof.
  intros H. repeat split.
  - destruct (Ascii.eqb_spec c "-"); [subst; discriminate | reflexivity].
  - destruct (Ascii.eqb_spec c "+"); [subst; discriminate | reflexivity].
  - destruct (Ascii.eqb_spec c "_"); [subst; discriminate | reflexivity].
Qed.

Lemma strip_digits (w : str) : forallb is_digit w = true -> strip w = w.
Proof.
  intros H. unfold strip. destruct w as [|c w]; [reflexivity|].
  assert (Hc : is_space c = false).
  { apply digit_not_space. cbn [forallb] in H.
    now apply andb_prop in H as [H _]. }
  rewrite Hc.
  assert (Hr : forallb is_digit (rev (c :: w)) = true).
  { rewrite forallb_forall in *. intros x Hx. apply H.
    now apply in_rev. }
  remember (rev (c :: w)) as u eqn:Eu.
  destruct u as [|d r].
  - apply (f_equal (@rev ascii)) in Eu. rewrite rev_involutive in Eu.
    now rewrite <- Eu.
  - assert (Hd : is_space d = false).
    { apply digit_not_space. cbn [forallb] in Hr.
      now apply andb_prop in Hr as [Hr _]. }
    rewrite Hd, Eu. apply rev_involutive.
Qed.

Lemma int_digits_total (w : str) :
  forall acc prev,
    forallb is_digit w = true -> 0 <= acc ->
    (w <> [] \/ prev = true) ->
    exists n, int_digits w acc prev = Some n /\ 0 <= n.
Proof.
  induction w as [|c w IH]; intros acc prev Hw Hacc Hne.
  - destruct Hne as [Hne| ->]; [congruence|]. now exists acc.
  - cbn [forallb] in Hw. apply andb_prop in Hw as [Hc Hw].
    cbn [int_digits]. rewrite Hc.
    apply IH; [exact Hw | | now right].
    unfold is_digit in Hc. apply andb_prop in Hc as [H1 _].
    apply Z.leb_le in H1. lia.
Qed.

Lemma filter_all {B} (f : B -> bool) (l : list B) :
  forallb f l = true -> filter f l = l.
Proof.
  induction l as [|x l IH]; cbn [forallb filter]; [reflexivity|].
  intros H. apply andb_prop in H as [-> H]. now rewrite IH.
Qed.

(** [int] accepts every run of digits within its limit. *)
Lemma int_numeric (w : str) :
  numeric w = true -> Z.of_nat (length w) <= int_max_str_digits ->
  exists n, int w = Some n /\ 0 <= n.
Proof.
  intros H Hlen. pose proof (numeric_digits w H) as Hd.
  unfold int. rewrite (filter_all _ _ Hd).
  destruct (Z.ltb_spec int_max_str_digits (Z.of_nat (length w))); [lia|].
  rewrite (strip_digits w Hd).
  destruct w as [|c w]; [discriminate|].
  assert (Hc : is_digit c = true)
    by (cbn [forallb] in Hd; now apply andb_prop in Hd as [Hd _]).
  destruct (digit_not_sign c Hc) as (-> & -> & _).
  apply int_digits_total; [exact Hd | lia | left; discriminate].
Qed.

Lemma ints_length (l : list str) :
  forall ns, ints l = Some ns -> length ns = length l.
Proof.
  induction l as [|w l IH]; intros ns H; cbn [ints] in H.
  - now injection H as <-.
  - destruct (int w); [|discriminate].
    destruct (ints l) as [ms|]; [|discriminate].
    injection H as <-. cbn [length]. f_equal. now apply IH.
Qed.

Lemma well_formed_numbers (v : str) :
  well_formed_version v = true -> within_int_limit v = true ->
  exists a b c d,
    ints (split "." (lstrip "v" v)) = Some [a; b; c; d]
    /\ 0 <= a /\ 0 <= b /\ 0 <= c /\ 0 <= d.
Proof.
  unfold well_formed_version, four_components, within_int_limit.
  intros H L.
  destruct (split "." (lstrip "v" v)) as [|wa [|wb [|wc [|wd [|]]]]];
    try discriminate.
  apply andb_prop in H as [H Hd]. apply andb_prop in H as [H Hc].
  apply andb_prop in H as [Ha Hb].
  cbn [forallb] in L.
  apply andb_prop in L as [La L]. apply andb_prop in L as [Lb L].
  apply andb_prop in L as [Lc L]. apply andb_prop in L as [Ld _].
  apply Z.leb_le in La, Lb, Lc, Ld.
  destruct (int_numeric wa Ha La) as (a & Ea & ?).
  destruct (int_numeric wb Hb Lb) as (b & Eb & ?).
  destruct (int_numeric wc Hc Lc) as (c & Ec & ?).
  destruct (int_numeric wd Hd Ld) as (d & Ed & ?).
  exists a, b, c, d. cbn [ints]. rewrite Ea, Eb, Ec, Ed. auto.
Qed.

Lemma well_formed_nonempty (v : str) :
  well_formed_version v = true -> v <> [].
Proof. intros H ->. discriminate. Qed.

(** X2.  On a version of four numeric components, with or without
    leading [v], none of them longer than the digit limit of [int], the
    three readers of versions agree: the tuple compared by
    [_compare_versions], the first part of the sort key of
    [list_firmwares] and the tuple [_parse_firmware_version] packs into
    the AES header are the same four non-negative numbers, and none of
    the readers falls back to its default. *)
Theorem version_readers_agree :
  forall (fw : FirmwareInfo),
    well_formed_version (version fw) = true ->
    within_int_limit (version fw) = true ->
    exists a b c d,
      ints (split "." (lstrip "v" (version fw))) = Some [a; b; c; d]
      /\ 0 <= a /\ 0 <= b /\ 0 <= c /\ 0 <= d
      /\ version_tuple (version fw) = [a; b; c; d]
      /\ version_sort_key fw = ([a; b; c; d], upload_time fw)
      /\ _parse_firmware_version (Some (version fw)) = [a; b; c; d].
Proof.
  intros fw H L.
  destruct (well_formed_numbers _ H L) as (a & b & c & d & E & Hr).
  exists a, b, c, d. split; [exact E|].
  destruct Hr as (Ha & Hb & Hc & Hd). repeat (split; [assumption|]).
  unfold version_tuple, version_sort_key, _parse_firmware_version.
  rewrite E. repeat split.
  pose proof (well_formed_nonempty _ H) as Hne.
  destruct (version fw) as [|x v]; [congruence|].
  reflexivity.
Qed.

Lemma version_readers_agree_witness :
  well_formed_version (version long_version) = true
  /\ within_int_limit (version long_version) = true
  /\ exists a b c d,
       version_tuple (version long_version) = [a; b; c; d]
       /\ version_sort_key long_version
          = ([a; b; c; d], upload_time long_version).
Proof.
  split; [reflexivity|]. split; [reflexivity|].
  destruct (version_readers_agree long_version eq_refl eq_refl)
    as (a & b & c & d & _ & _ & _ & _ & _ & H1 & H2 & _).
  now exists a, b, c, d.
Defined.

(** *** The latest firmware *)

Lemma key_ge_tuple (x y : FirmwareInfo) :
  key_ge x y ->
  lex_compare Z.compare (fst (version_sort_key y)) (fst (version_sort_key x))
  <> Gt.
Proof.
  unfold key_ge, key_compare. intros H Hgt.
  rewrite (lex_compare_antisym Z.compare Z.compare_antisym) in Hgt.
  destruct (lex_compare Z.compare (fst (version_sort_key x))
              (fst (version_sort_key y))); try discriminate.
  now apply H.
Qed.

(** On a well-formed version the two readers give the same tuple, also
    where [int] refuses a component: both fall back to (0,0,0,0). *)
Lemma well_formed_key (fw : FirmwareInfo) :
  well_formed_version (version fw) = true ->
  fst (version_sort_key fw) = version_tuple (version fw).
Proof.
  unfold well_formed_version, four_components, version_sort_key,
    version_tuple.
  intros H.
  destruct (ints (split "." (lstrip "v" (version fw)))) as [ns|] eqn:E;
    [|reflexivity].
  apply ints_length in E.
  destruct (split "." (lstrip "v" (version fw)))
    as [|wa [|wb [|wc [|wd [|]]]]]; try discriminate.
  destruct ns as [|a [|b [|c [|d [|]]]]]; try discriminate.
  reflexivity.
Qed.

Lemma latest_loop_keeps_first (first : FirmwareInfo)
  (rest : list FirmwareInfo) :
  well_formed_version (version first) = true ->
  Forall (fun fw => well_formed_version (version fw) = true) rest ->
  Forall (key_ge first) rest ->
  fold_left
    (fun latest_firmware firmware =>
       if _compare_versions (version firmware) (version latest_firmware)
          >? 0
       then firmware else latest_firmware)
    rest first = first.
Proof.
  intros Hf. induction rest as [|fw rest IH]; intros Hw Hge;
    cbn [fold_left]; [reflexivity|].
  apply Forall_cons_iff in Hw as [Hw Hws].
  apply Forall_cons_iff in Hge as [Hge Hges].
  replace (_compare_versions (version fw) (version first) >? 0)
    with false; [now apply IH|].
  symmetry. unfold _compare_versions.
  rewrite <- (well_formed_key fw Hw), <- (well_formed_key first Hf).
  pose proof (key_ge_tuple first fw Hge) as Hn.
  destruct (lex_compare Z.compare (fst (version_sort_key fw))
              (fst (version_sort_key first))); try reflexivity.
  congruence.
Qed.

Lemma list_firmwares_sorted_selection_aux m td :
  True /\ StronglySorted key_ge (list_firmwares m td None).
Proof.
  split; [exact I|]. rewrite list_firmwares_sort_filter.
  apply sort_reverse_strongly_sorted.
Qed.

Lemma key_compare_refl_eq (k : list Z * str) : key_compare k k = Eq.
Proof.
  unfold key_compare, str_compare.
  rewrite !lex_compare_refl; try reflexivity.
  - intros x. apply Z.compare_refl.
  - apply Z.compare_refl.
Qed.

(** X3.  When every listed record of the device has a version of four
    numeric components (with or without leading [v]),
    [get_latest_version_firmware] returns the first record of
    [list_firmwares], which stands before all the others in the listing
    order; it returns nothing exactly when the listing is empty. *)
Theorem latest_is_head_of_listing :
  forall (m : manager) (target_device_filter : option str),
    Forall (fun fw => well_formed_version (version fw) = true)
      (list_firmwares m target_device_filter None) ->
    get_latest_version_firmware m target_device_filter
    = hd_error (list_firmwares m target_device_filter None)
    /\ (forall latest,
          get_latest_version_firmware m target_device_filter = Some latest ->
          Forall (key_ge latest)
            (list_firmwares m target_device_filter None))
    /\ (get_latest_version_firmware m target_device_filter = None <->
        list_firmwares m target_device_filter None = []).
Proof.
  intros m td Hw. unfold get_latest_version_firmware.
  destruct (list_firmwares_sorted_selection_aux m td) as [_ Hs].
  destruct (list_firmwares m td None) as [|first rest] eqn:El.
  - repeat split; try reflexivity. discriminate.
  - apply Forall_cons_iff in Hw as [Hf Hr].
    apply StronglySorted_inv in Hs as [_ Hge].
    rewrite (latest_loop_keeps_first first rest Hf Hr Hge).
    cbn [hd_error]. split; [reflexivity|]. split.
    + intros latest E. injection E as <-. constructor; [|exact Hge].
      unfold key_ge. rewrite key_compare_refl_eq. discriminate.
    + split; discriminate.
Qed.

Lemma latest_is_head_of_listing_witness :
  Forall (fun fw => well_formed_version (version fw) = true)
    (list_firmwares two_releases None None)
  /\ get_latest_version_firmware two_releases None
     = hd_error (list_firmwares two_releases None None).
Proof.
  assert (H : Forall (fun fw => well_formed_version (version fw) = true)
                (list_firmwares two_releases None None)).
  { vm_compute. repeat constructor. }
  split; [exact H|].
  exact (proj1 (latest_is_head_of_listing two_releases None H)).
Defined.

End VersionReaders.

(** ** Keys, hexadecimal text and AES *)

Section HexText.
Import Py Crypto Reference Checks.

Lemma hexdigit_value_nat (k : nat) :
  (k < 16)%nat ->
  hexval (hexdigit (Z.of_nat k)) = Some (Z.of_nat k)
  /\ is_space (hexdigit (Z.of_nat k)) = false.
Proof.
  intros Hk.
  do 16 (destruct k as [|k]; [split; reflexivity|]).
  lia.
Qed.

Lemma hexdigit_value (n : Z) :
  0 <= n < 16 ->
  hexval (hexdigit n) = Some n /\ is_space (hexdigit n) = false.
Proof.
  intros H. rewrite <- (Z2Nat.id n) by lia.
  apply hexdigit_value_nat. lia.
Qed.

(** [bytes.fromhex] undoes [bytes.hex]. *)
Lemma fromhex_hex (b : bytes) :
  Forall is_byte b ->
  fromhex (hex b) = Some b /\ length (hex b) = (2 * length b)%nat.
Proof.
  induction 1 as [|x b Hx Hb [IH IHl]]; [split; reflexivity|].
  unfold hex in *. cbn [flat_map app length].
  unfold is_byte in Hx.
  assert (H1 : 0 <= x / 16 < 16)
    by (split; [apply Z.div_pos | apply Z.div_lt_upper_bound]; lia).
  assert (H2 : 0 <= x mod 16 < 16) by (apply Z.mod_pos_bound; lia).
  destruct (hexdigit_value _ H1) as [V1 S1].
  destruct (hexdigit_value _ H2) as [V2 _].
  split; [|lia].
  cbn [fromhex]. rewrite S1, V1, V2, IH.
  do 2 f_equal. pose proof (Z.div_mod x 16). lia.
Qed.

Lemma derive_from_hex_key (key : bytes) :
  length key = 16%nat -> Forall is_byte key ->
  _derive_aes_key_stm32_compatible (hex key) None = key.
Proof.
  intros Hl Hb. destruct (fromhex_hex key Hb) as [Hf Hlen].
  unfold _derive_aes_key_stm32_compatible, raw_hex_key.
  rewrite Hlen, Hl, Hf, Hl. reflexivity.
Qed.

(** X4.  The hexadecimal text of a raw 16-byte key, which
    [encrypt_firmware] of the catalog stores as the record's password
    when a key is supplied, derives that same key again: both
    [_derive_aes_key_stm32_compatible] and [generate_key] for AES-128-CBC
    return the key, without touching the random source. *)
Theorem hex_of_key_derives_the_key :
  forall (pbkdf2 : bytes -> Z -> nat -> bytes -> bytes)
         (key : bytes) (g : entropy),
    length key = 16%nat -> Forall is_byte key ->
    _derive_aes_key_stm32_compatible (hex key) None = key
    /\ generate_key pbkdf2 AES_128_CBC (Some (hex key)) g = (key, g)
    /\ fromhex (hex key) = Some key.
Proof.
  intros pbkdf2 key g Hl Hb.
  pose proof (derive_from_hex_key key Hl Hb) as Hd.
  destruct (fromhex_hex key Hb) as [Hf Hlen].
  split; [exact Hd|]. split; [|exact Hf].
  unfold generate_key.
  destruct (hex key) as [|c p] eqn:E; [rewrite Hl in Hlen; discriminate|].
  now rewrite Hd.
Qed.

Lemma hex_of_key_derives_the_key_witness :
  _derive_aes_key_stm32_compatible
    (hex [0; 1; 2; 3; 4; 5; 6; 7; 8; 9; 10; 11; 12; 13; 14; 255]) None
  = [0; 1; 2; 3; 4; 5; 6; 7; 8; 9; 10; 11; 12; 13; 14; 255].
Proof.
  apply (hex_of_key_derives_the_key null_kdf _ zero_entropy).
  - reflexivity.
  - repeat apply Forall_cons; try apply Forall_nil; unfold is_byte; lia.
Defined.

Lemma derive_length (password : str) :
  length (_derive_aes_key_stm32_compatible password None) = 16%nat.
Proof.
  rewrite derive_is_kdf_embedded. unfold kdf_embedded.
  destruct (hex32 password) eqn:Hh.
  - unfold hex32 in Hh. apply andb_prop in Hh as [Hl Hall].
    apply Nat.eqb_eq in Hl.
    apply (fromhex_all_hex 16); [lia | exact Hall].
  - rewrite kdf_rounds_fixed. reflexivity.
Qed.

(** X5.  A generated key has a length [get_supported_algorithms] allows
    for its algorithm: empty for no encryption, 1 to 32 bytes for XOR,
    16 bytes for AES-128, 32 bytes for AES-256 (PBKDF2 being asked for 32
    bytes).  With a non-empty password the key is a function of the
    password and the random source is left alone; without one, 16 or 32
    random bytes are drawn (none for no encryption). *)
Theorem generated_key_length_allowed :
  forall (pbkdf2 : bytes -> Z -> nat -> bytes -> bytes)
         (algorithm : EncryptionType) (password : option str) (g : entropy),
    (forall salt n len pw, length (pbkdf2 salt n len pw) = len) ->
    key_length_allowed algorithm
      (length (fst (generate_key pbkdf2 algorithm password g)))
    /\ (truthy password = true ->
        snd (generate_key pbkdf2 algorithm password g) = g)
    /\ (truthy password = false ->
        consumed (snd (generate_key pbkdf2 algorithm password g))
        = (consumed g
           + length (fst (generate_key pbkdf2 algorithm password g)))%nat).
Proof.
  intros pbkdf2 alg pw g Hp.
  destruct alg; cbn [generate_key key_length_allowed].
  - cbn. repeat split; auto.
  - destruct pw as [[|c p]|]; cbn [truthy fst snd urandom consumed];
      rewrite ?length_map, ?length_seq;
      repeat split; try lia; try discriminate; try reflexivity.
    + cbn [encode_utf8 map firstn length]. lia.
    + rewrite length_firstn. lia.
  - destruct pw as [[|c p]|]; cbn [truthy fst snd urandom consumed];
      rewrite ?length_map, ?length_seq, ?derive_length;
      repeat split; try lia; try discriminate; try reflexivity.
  - destruct pw as [[|c p]|]; cbn [truthy fst snd urandom consumed];
      rewrite ?length_map, ?length_seq, ?Hp;
      repeat split; try lia; try discriminate; try reflexivity.
Qed.

Lemma generated_key_length_allowed_witness :
  key_length_allowed AES_128_CBC
    (length (fst (generate_key (fun _ _ n _ => repeat 0 n) AES_128_CBC
                    (Some (s "secret")) zero_entropy))).
Proof.
  exact (proj1 (generated_key_length_allowed (fun _ _ n _ => repeat 0 n)
                  AES_128_CBC (Some (s "secret")) zero_entropy
                  (fun _ _ n _ => repeat_length 0 n))).
Defined.

End HexText.

Section AesRoundTrip.
Import Py Crypto Reference Checks.

Lemma pkcs7_pad_length (data : bytes) :
  (length (pkcs7_pad data) mod 16 = 0)%nat
  /\ (length data < length (pkcs7_pad data) <= length data + 16)%nat.
Proof.
  unfold pkcs7_pad. cbv zeta. rewrite length_app, repeat_length.
  pose proof (Nat.mod_upper_bound (length data) 16 ltac:(lia)) as Hm.
  pose proof (Nat.div_mod_eq (length data) 16) as Hd.
  split; [|lia].
  replace (length data + (16 - length data mod 16))%nat
    with ((length data / 16 + 1) * 16)%nat by lia.
  apply Nat.Div0.mod_mul.
Qed.

Lemma rev_repeat {B} (x : B) (n : nat) : rev (repeat x n) = repeat x n.
Proof.
  induction n as [|n IH]; [reflexivity|].
  cbn [repeat rev]. rewrite IH. clear IH.
  induction n as [|n IH]; [reflexivity|].
  cbn [repeat app]. now rewrite IH.
Qed.

Lemma rev_padded (x : Z) (n : nat) (data : bytes) :
  (1 <= n)%nat ->
  rev (data ++ repeat x n) = x :: (repeat x (n - 1) ++ rev data).
Proof.
  intros Hn. rewrite rev_app_distr, rev_repeat.
  destruct n as [|k]; [lia|].
  replace (S k - 1)%nat with k by lia. reflexivity.
Qed.

Lemma pkcs7_unpad_pad (data : bytes) :
  pkcs7_unpad (pkcs7_pad data) = Ok data.
Proof.
  unfold pkcs7_unpad, pkcs7_pad. cbv zeta.
  pose proof (Nat.mod_upper_bound (length data) 16 ltac:(lia)) as Hm.
  set (n := (16 - length data mod 16)%nat) in *.
  assert (Hn : (1 <= n <= 16)%nat) by (unfold n; lia).
  clearbody n.
  rewrite rev_padded by lia.
  rewrite Nat2Z.id, length_app, repeat_length.
  replace (length data + n - n)%nat with (length data) by lia.
  rewrite skipn_app, Nat.sub_diag, skipn_all, skipn_O.
  rewrite firstn_app, Nat.sub_diag, firstn_all, firstn_O, app_nil_r.
  cbn [app].
  assert (Hall : forallb (Z.eqb (Z.of_nat n)) (repeat (Z.of_nat n) n) = true).
  { apply forallb_forall. intros x Hx. apply repeat_spec in Hx.
    subst. apply Z.eqb_refl. }
  rewrite Hall.
  destruct (Z.leb_spec 1 (Z.of_nat n)); [|lia].
  destruct (Z.leb_spec (Z.of_nat n) 16); [|lia].
  destruct (Nat.leb_spec n (length data + n)); [|lia].
  reflexivity.
Qed.

Variable md5 : bytes -> bytes.
Variable aes_cbc aes_cbc_inv : bytes -> bytes -> bytes -> bytes.
Variable pbkdf2 : bytes -> Z -> nat -> bytes -> bytes.

(** Decryption undoes encryption under the same key and IV. *)
Hypothesis aes_inverse :
  forall key iv data, aes_cbc_inv key iv (aes_cbc key iv data) = data.

(** X6.  AES-256-CBC round trip: what [encrypt_firmware] returns for a
    32-byte key, decrypted by [decrypt_firmware] with the same key and
    the returned metadata, is the original data; the IV travels in the
    metadata as hexadecimal text.  Without metadata, or with metadata
    that has no [iv] entry, decryption raises [ValueError]. *)
Theorem aes256_encrypt_decrypt_roundtrip :
  forall (data key : bytes) (password version : option str) (g : entropy),
    length key = 32%nat ->
    (exists ciphertext meta g',
       encrypt_firmware md5 aes_cbc pbkdf2 data AES_256_CBC (Some key)
         password version g = Ok ((ciphertext, meta), g')
       /\ dict_get meta (s "iv") = Some (AStr (hex (fst (urandom 16 g))))
       /\ decrypt_firmware aes_cbc_inv ciphertext AES_256_CBC key (Some meta)
          = Ok data)
    /\ (forall c meta,
          dict_get meta (s "iv") = None ->
          decrypt_firmware aes_cbc_inv c AES_256_CBC key (Some meta)
          = Raise ValueError)
    /\ (forall c,
          decrypt_firmware aes_cbc_inv c AES_256_CBC key None
          = Raise ValueError).
Proof.
  intros data key password version g Hk. split; [|split].
  - unfold encrypt_firmware, _aes_encrypt, cbc_encryptor.
    rewrite (surjective_pairing (urandom 16 g)).
    rewrite Hk. cbn [Nat.eqb orb bind].
    eexists _, _, _. split; [reflexivity|]. split; [reflexivity|].
    unfold decrypt_firmware.
    change (dict_get _ (s "iv"))
      with (Some (AStr (hex (fst (urandom 16 g))))).
    assert (Hiv : Forall is_byte (fst (urandom 16 g))).
    { unfold urandom. cbn [fst]. apply Forall_forall. intros x Hx.
      apply in_map_iff in Hx as (i & <- & _).
      change 255 with (Z.ones 8). rewrite Z.land_ones by lia.
      unfold is_byte. apply Z.mod_pos_bound. lia. }
    destruct (fromhex_hex _ Hiv) as [-> _].
    unfold _aes_decrypt. rewrite Hk. cbn [Nat.eqb orb].
    rewrite aes_inverse. apply pkcs7_unpad_pad.
  - intros c meta Hm. unfold decrypt_firmware.
    destruct meta as [|kv meta]; [reflexivity|]. now rewrite Hm.
  - reflexivity.
Qed.

End AesRoundTrip.

Section AesExamples.
Import Py Crypto Reference Checks.

Lemma aes256_encrypt_decrypt_roundtrip_witness :
  exists ciphertext meta g',
    encrypt_firmware zero_digest null_cipher null_kdf [1; 2; 3] AES_256_CBC
      (Some (repeat 7 32)) None None zero_entropy
    = Ok ((ciphertext, meta), g')
    /\ decrypt_firmware null_cipher ciphertext AES_256_CBC (repeat 7 32)
         (Some meta) = Ok [1; 2; 3].
Proof.
  destruct (aes256_encrypt_decrypt_roundtrip zero_digest null_cipher
              null_cipher null_kdf (fun _ _ _ => eq_refl)
              [1; 2; 3] (repeat 7 32) None None zero_entropy eq_refl)
    as ((c & meta & g' & H1 & _ & H2) & _).
  now exists c, meta, g'.
Defined.

End AesExamples.

(** ** Catalog operations *)

Section DictionaryLookups.
Import Py.
Context {V : Type}.

Lemma dict_get_set_other (d : dict V) (k k' : str) (v : V) :
  k' <> k -> dict_get (dict_set d k v) k' = dict_get d k'.
Proof.
  intros Hne. induction d as [|[k0 v0] d IH]; cbn [dict_set dict_get].
  - destruct (str_eqb k k') eqn:E; [|reflexivity].
    apply str_eqb_eq in E. congruence.
  - destruct (str_eqb k0 k) eqn:E; cbn [dict_get].
    + apply str_eqb_eq in E. subst k0.
      destruct (str_eqb k k') eqn:E'; [|reflexivity].
      apply str_eqb_eq in E'. congruence.
    + now rewrite IH.
Qed.

Lemma dict_get_none (d : dict V) (k : str) :
  ~ In k (map fst d) -> dict_get d k = None.
Proof.
  induction d as [|[k0 v0] d IH]; cbn [dict_get map fst In]; intros H;
    [reflexivity|].
  destruct (str_eqb k0 k) eqn:E.
  - apply str_eqb_eq in E. tauto.
  - apply IH. tauto.
Qed.

Lemma dict_get_del_same (d : dict V) (k : str) :
  NoDup (map fst d) -> dict_get (dict_del d k) k = None.
Proof.
  induction d as [|[k0 v0] d IH]; cbn [dict_del map fst]; intros H;
    [reflexivity|].
  apply NoDup_cons_iff in H as [Hn Hd].
  destruct (str_eqb k0 k) eqn:E.
  - apply str_eqb_eq in E. subst. now apply dict_get_none.
  - cbn [dict_get]. rewrite E. now apply IH.
Qed.

Lemma dict_get_del_other (d : dict V) (k k' : str) :
  k' <> k -> dict_get (dict_del d k) k' = dict_get d k'.
Proof.
  intros Hne. induction d as [|[k0 v0] d IH]; cbn [dict_del dict_get];
    [reflexivity|].
  destruct (str_eqb k0 k) eqn:E; cbn [dict_get].
  - apply str_eqb_eq in E. subst k0.
    destruct (str_eqb k k') eqn:E'; [|reflexivity].
    apply str_eqb_eq in E'. congruence.
  - now rewrite IH.
Qed.

End DictionaryLookups.

Section AddAndRemove.
Import Py Crypto Regex FirmwareManager Reference Checks.

Variable md5 : bytes -> bytes.




End AddAndRemove.

Section AddExamples.
Import Py Crypto Regex FirmwareManager Reference Checks.


End AddExamples.

(** ** Encryption in place: the successful path *)

Section EncryptSuccess.
Import Py Crypto Regex FirmwareManager Reference Checks.

Variable md5 : bytes -> bytes.
Variable aes_cbc : bytes -> bytes -> bytes -> bytes.
Variable pbkdf2 : bytes -> Z -> nat -> bytes -> bytes.

(** What the successful path computes, spelled out. *)
Lemma encrypt_firmware_success m fid alg pw key read_ok g fw content out
  meta g1 :
  get_firmware m fid = Some fw ->
  is_encrypted fw = false ->
  read_firmware_content m read_ok fid = Some content ->
  content <> [] ->
  Crypto.encrypt_firmware md5 aes_cbc pbkdf2 content alg key pw
    (Some (version fw)) g = Ok ((out, meta), g1) ->
  exists fw',
    encrypt_firmware md5 aes_cbc pbkdf2 m fid alg pw key read_ok Written g
    = (true,
       _save_metadata
         {| firmwares := dict_set (firmwares m) fid fw';
            files := dict_set (files m) (filename fw) out;
            metadata_file := metadata_file m |},
       g1)
    /\ id fw' = id fw /\ filename fw' = filename fw
    /\ version fw' = version fw
    /\ original_filename fw' = original_filename fw
    /\ upload_time fw' = upload_time fw
    /\ is_encrypted fw' = true
    /\ encryption_algorithm fw' = value alg
    /\ size fw' = Z.of_nat (length out)
    /\ checksum fw' = hex (md5 out)
    /\ (forall p, pw = Some p -> p <> [] ->
          dict_get (encryption_metadata fw') (s "password") = Some (AStr p))
    /\ (forall k, truthy pw = false -> key = Some k -> k <> [] ->
          dict_get (encryption_metadata fw') (s "password")
          = Some (AStr (hex k))).
Proof.
  intros Hget Henc Hread Hne Hc.
  unfold encrypt_firmware, encrypt_firmware_body.
  rewrite Hget, Hread.
  destruct content as [|c content]; [congruence|].
  rewrite Henc, Hc. cbn [write_file].
  eexists. split; [reflexivity|].
  cbn [id filename version original_filename upload_time is_encrypted
       encryption_algorithm size checksum encryption_metadata].
  repeat split; try reflexivity.
  - intros p -> Hp. destruct p as [|x p]; [congruence|].
    cbn [truthy]. apply dict_get_set_same.
  - intros k Hpw -> Hk. rewrite Hpw.
    destruct k as [|x k]; [congruence|].
    cbn [truthy]. apply dict_get_set_same.
Qed.


Lemma xor_stream_length (data key : bytes) :
  _xor_encrypt data key = data
  \/ length (_xor_encrypt data key) = length data.
Proof.
  destruct key as [|k key]; [now left | right].
  rewrite xor_encrypt_stream by discriminate. apply xor_from_length.
Qed.

(** Only AES-256 depends on the cipher for the size of its output. *)
Hypothesis aes_length :
  forall key iv data, length (aes_cbc key iv data) = length data.

Lemma cipher_output_nonempty content alg key pw ver g out meta g1 :
  content <> [] ->
  Crypto.encrypt_firmware md5 aes_cbc pbkdf2 content alg key pw ver g
  = Ok ((out, meta), g1) ->
  out <> [].
Proof.
  intros Hne H. intros ->.
  assert (Hlen : forall l : bytes, l = [] -> length l = 0%nat)
    by (intros l ->; reflexivity).
  unfold Crypto.encrypt_firmware in H.
  destruct alg.
  - injection H as -> _ _. congruence.
  - destruct (match key with
              | Some k => (k, g)
              | None => generate_key pbkdf2 XOR pw g
              end) as [k g'].
    injection H as H _ _. apply Hlen in H.
    destruct (xor_stream_length content k) as [E|E]; rewrite E in H;
      destruct content; try congruence; discriminate.
  - destruct (match key with
              | Some k => (k, g)
              | None => generate_key pbkdf2 AES_128_CBC pw g
              end) as [k g'].
    unfold _aes_encrypt_stm32_format in H.
    rewrite (surjective_pairing (urandom 16 g')) in H.
    destruct (cbc_encryptor aes_cbc k _ _) as [ct|]; [|discriminate].
    cbn [bind] in H.
    rewrite (pack_I_ok 0x41455331), (pack_I_ok 1) in H by lia.
    cbn [bind] in H.
    destruct (pack_I (Z.of_nat (length content))) as [q1|]; [|discriminate].
    cbn [bind] in H.
    destruct (pack_I (Z.of_nat (length ct))) as [q2|]; [|discriminate].
    cbn [bind] in H.
    rewrite !pack_I_ok in H by apply crc32_stm32_range.
    cbn [bind] in H.
    destruct (_parse_firmware_version ver) as [|va [|vb [|vc [|vd [|]]]]];
      try discriminate.
    destruct (pack_H va) as [ha|]; [|discriminate]. cbn [bind] in H.
    destruct (pack_H vb) as [hb|]; [|discriminate]. cbn [bind] in H.
    destruct (pack_H vc) as [hc|]; [|discriminate]. cbn [bind] in H.
    destruct (pack_H vd) as [hd|]; [|discriminate]. cbn [bind] in H.
    cbv zeta in H. injection H as H _ _. apply Hlen in H.
    cbn [length] in H. discriminate H.
  - destruct (match key with
              | Some k => (k, g)
              | None => generate_key pbkdf2 AES_256_CBC pw g
              end) as [k g'].
    unfold _aes_encrypt, cbc_encryptor in H.
    rewrite (surjective_pairing (urandom 16 g')) in H.
    destruct (_ || _)%bool; [|discriminate].
    cbn [bind] in H. injection H as H _ _. apply Hlen in H.
    rewrite aes_length in H.
    pose proof (pkcs7_pad_length content). lia.
Qed.

(** X10.  Encrypting twice is encrypting once: after a successful
    [encrypt_firmware], a second call on the same id, with any algorithm,
    password, key and write outcome, returns [True] and changes nothing,
    provided the file can still be read.  (The cipher is assumed to keep
    the length of its padded input, as AES-CBC does.) *)
Theorem encrypt_in_place_second_call_is_noop :
  forall (m : manager) (firmware_id : str) (algorithm : EncryptionType)
         (password : option str) (key : option bytes) (read_ok : bool)
         (g : entropy) (fw : FirmwareInfo) (content out : bytes)
         (meta : dict any) (g1 : entropy)
         (algorithm2 : EncryptionType) (password2 : option str)
         (key2 : option bytes) (w2 : write_outcome) (g2 : entropy),
    get_firmware m firmware_id = Some fw ->
    is_encrypted fw = false ->
    read_firmware_content m read_ok firmware_id = Some content ->
    content <> [] ->
    Crypto.encrypt_firmware md5 aes_cbc pbkdf2 content algorithm key
      password (Some (version fw)) g = Ok ((out, meta), g1) ->
    let m1 := snd (fst (encrypt_firmware md5 aes_cbc pbkdf2 m firmware_id
                          algorithm password key read_ok Written g)) in
    encrypt_firmware md5 aes_cbc pbkdf2 m1 firmware_id algorithm2 password2
      key2 true w2 g2 = (true, m1, g2).
Proof.
  intros m fid alg pw key read_ok g fw content out meta g1 alg2 pw2 key2
    w2 g2 Hget Henc Hread Hne Hc m1.
  destruct (encrypt_firmware_success m fid alg pw key read_ok g fw content
              out meta g1 Hget Henc Hread Hne Hc)
    as (fw' & E & _ & Hfn & _ & _ & _ & He & _).
  pose proof (cipher_output_nonempty _ _ _ _ _ _ _ _ _ Hne Hc) as Hout.
  subst m1. rewrite E. cbn [fst snd].
  unfold encrypt_firmware, encrypt_firmware_body, read_firmware_content,
    get_firmware_path, get_firmware.
  cbn [_save_metadata firmwares files metadata_file].
  rewrite dict_get_set_same, Hfn, dict_get_set_same.
  destruct out as [|x out]; [congruence|].
  now rewrite He.
Qed.

(** X11.  A record whose version has a component above 65535 (such as
    the version ["20240902.0.0.<n>"] inferred from a dated file name)
    cannot be encrypted with AES-128-CBC: the cipher raises
    [struct.error] when it packs the version into the header, and
    [encrypt_firmware] of the catalog returns [False] and leaves the
    manager as it was, whatever the write would have done. *)
Theorem aes128_fails_on_wide_version :
  forall (m : manager) (firmware_id : str) (fw : FirmwareInfo)
         (content K : bytes) (password : option str) (read_ok : bool)
         (w : write_outcome) (g : entropy),
    get_firmware m firmware_id = Some fw ->
    is_encrypted fw = false ->
    read_firmware_content m read_ok firmware_id = Some content ->
    content <> [] ->
    length K = 16%nat ->
    Z.of_nat (length content) <= 4294967295 ->
    Z.of_nat (length (aes_cbc K (fst (urandom 16 g)) (pkcs7_pad content)))
    <= 4294967295 ->
    ~ Forall uint16 (_parse_firmware_version (Some (version fw))) ->
    Crypto.encrypt_firmware md5 aes_cbc pbkdf2 content AES_128_CBC (Some K)
      password (Some (version fw)) g = Raise StructError
    /\ encrypt_firmware md5 aes_cbc pbkdf2 m firmware_id AES_128_CBC
         password (Some K) read_ok w g = (false, m, g).
Proof.
  intros m fid fw content K pw read_ok w g Hget Henc Hread Hne HK HP HC Hv.
  pose proof (aes128_rejects_wide_version md5 aes_cbc pbkdf2 content K
                (Some (version fw)) pw g HK HP HC Hv) as Hr.
  split; [exact Hr|].
  unfold encrypt_firmware, encrypt_firmware_body.
  rewrite Hget, Hread. destruct content as [|c content]; [congruence|].
  now rewrite Henc, Hr.
Qed.

End EncryptSuccess.

Section EncryptSuccessExamples.
Import Py Crypto Regex FirmwareManager Reference Checks.


Lemma encrypt_in_place_second_call_is_noop_witness :
  let m1 := snd (fst (encrypt_firmware zero_digest null_cipher null_kdf
                        plain_with_file (s "fw_1_a") XOR None (Some [255])
                        true Written zero_entropy)) in
  encrypt_firmware zero_digest null_cipher null_kdf m1 (s "fw_1_a")
    AES_256_CBC (Some (s "other")) None true (WriteFailed 0) zero_entropy
  = (true, m1, zero_entropy).
Proof.
  exact (encrypt_in_place_second_call_is_noop zero_digest null_cipher
           null_kdf (fun _ _ _ => eq_refl)
           plain_with_file (s "fw_1_a") XOR None (Some [255]) true
           zero_entropy
           (sample_record (s "a") (s "1.0.0.0")
              (s "2024-01-01T00:00:00") false)
           [1; 2; 3] [254; 253; 252] _ zero_entropy
           AES_256_CBC (Some (s "other")) None (WriteFailed 0) zero_entropy
           eq_refl eq_refl eq_refl ltac:(discriminate) eq_refl).
Defined.

Lemma aes128_fails_on_wide_version_witness :
  encrypt_firmware zero_digest null_cipher null_kdf dated_release
    (s "fw_1_a") AES_128_CBC None (Some (repeat 0 16)) true Written
    zero_entropy
  = (false, dated_release, zero_entropy).
Proof.
  apply (aes128_fails_on_wide_version zero_digest null_cipher null_kdf
           dated_release (s "fw_1_a")
           (sample_record (s "a") (s "20240902.0.0.1234")
              (s "2024-09-02T00:00:00") false)
           [1; 2; 3]).
  - reflexivity.
  - reflexivity.
  - reflexivity.
  - discriminate.
  - reflexivity.
  - simpl; lia.
  - simpl; lia.
  - change (~ Forall uint16 [20240902; 0; 0; 1234]).
    intros H. apply Forall_inv in H. unfold uint16 in H. lia.
Defined.

End EncryptSuccessExamples.

(** ** Normalising and comparing versions *)

Section Normalisation.
Import Py Crypto Regex FirmwareManager Reference Checks.

Lemma split_nonempty (t : str) : split "." t <> [].
Proof.
  destruct t as [|c t]; cbn [split]; [discriminate|].
  destruct (Ascii.eqb c "."); [discriminate|].
  destruct (split "." t); discriminate.
Qed.

Lemma split_parts_no_dot (t : str) :
  Forall (fun w => no_dot w = true) (split "." t).
Proof.
  induction t as [|c t IH]; cbn [split]; [now repeat constructor|].
  destruct (Ascii.eqb c ".") eqn:E; [now constructor|].
  destruct (split "." t) as [|w ws].
  - repeat constructor. unfold no_dot. cbn [forallb]. now rewrite E.
  - apply Forall_cons_iff in IH as [Hw Hws]. constructor; [|exact Hws].
    unfold no_dot in *. cbn [forallb]. now rewrite E, Hw.
Qed.

Lemma split_no_dot (w : str) : no_dot w = true -> split "." w = [w].
Proof.
  induction w as [|c w IH]; intros H; [reflexivity|].
  unfold no_dot in H. cbn [forallb] in H.
  apply andb_prop in H as [Hc Hw]. apply negb_true_iff in Hc.
  cbn [split]. now rewrite Hc, (IH Hw).
Qed.

Lemma split_no_dot_sep (w rest : str) :
  no_dot w = true -> split "." (w ++ "."%char :: rest) = w :: split "." rest.
Proof.
  induction w as [|c w IH]; intros H; [reflexivity|].
  unfold no_dot in H. cbn [forallb] in H.
  apply andb_prop in H as [Hc Hw]. apply negb_true_iff in Hc.
  cbn [split app]. now rewrite Hc, (IH Hw).
Qed.

(** Splitting undoes joining. *)
Lemma split_join (parts : list str) :
  parts <> [] -> Forall (fun w => no_dot w = true) parts ->
  split "." (join "." parts) = parts.
Proof.
  induction parts as [|w parts IH]; intros Hne H; [congruence|].
  apply Forall_cons_iff in H as [Hw Hws].
  destruct parts as [|w' parts].
  - cbn [join]. now apply split_no_dot.
  - change (join "." (w :: w' :: parts))
      with (w ++ "."%char :: join "." (w' :: parts)).
    rewrite split_no_dot_sep by exact Hw.
    now rewrite IH by (discriminate || assumption).
Qed.

Lemma numeric_no_dot (w : str) : numeric w = true -> no_dot w = true.
Proof.
  intros H. apply numeric_digits in H. unfold no_dot.
  rewrite forallb_forall in *. intros c Hc.
  now rewrite (digit_not_dot c (H c Hc)).
Qed.

Lemma fill_parts_spec (now : Z) (n : nat) :
  forall parts,
    exists extra,
      fill_parts now n parts = parts ++ extra
      /\ length extra = n
      /\ Forall (fun w => no_dot w = true) extra.
Proof.
  induction n as [|n IH]; intros parts; cbn [fill_parts].
  - exists []. now rewrite app_nil_r.
  - destruct (length parts =? 3)%nat.
    + destruct (IH (parts ++ [str_of_int (now mod 10000)]))
        as (extra & -> & Hl & Hf).
      exists (str_of_int (now mod 10000) :: extra).
      rewrite <- app_assoc. cbn [app length]. repeat split; [lia|].
      constructor; [|exact Hf].
      apply numeric_no_dot, build_number_numeric.
    + destruct (IH (parts ++ [s "0"])) as (extra & -> & Hl & Hf).
      exists (s "0" :: extra).
      rewrite <- app_assoc. cbn [app length]. repeat split; [lia|].
      now constructor.
Qed.

Lemma in_firstn {B} (n : nat) (l : list B) (x : B) :
  In x (firstn n l) -> In x l.
Proof.
  revert l; induction n as [|n IH]; intros [|y l]; cbn [firstn In];
    try tauto.
  intros [->|H]; [now left | right; now apply IH].
Qed.

Lemma normalized_parts (now : Z) (v : str) :
  exists P,
    _normalize_version now v = join "." P
    /\ length P = 4%nat
    /\ Forall (fun w => no_dot w = true) P
    /\ firstn (Nat.min 4 (length (split "." v))) P = firstn 4 (split "." v).
Proof.
  unfold _normalize_version.
  destruct (fill_parts_spec now (4 - length (split "." v)) (split "." v))
    as (extra & -> & Hl & Hf).
  exists (firstn 4 (split "." v ++ extra)).
  split; [reflexivity|]. split; [|split].
  - rewrite length_firstn, length_app. lia.
  - apply Forall_forall. intros w Hw. apply in_firstn in Hw.
    apply in_app_or in Hw as [Hw|Hw].
    + pose proof (split_parts_no_dot v) as Hs.
      rewrite Forall_forall in Hs. now apply Hs.
    + rewrite Forall_forall in Hf. now apply Hf.
  - rewrite firstn_firstn.
    replace (Nat.min (Nat.min 4 (length (split "." v))) 4)
      with (Nat.min 4 (length (split "." v))) by lia.
    rewrite firstn_app.
    replace (Nat.min 4 (length (split "." v)) - length (split "." v))%nat
      with 0%nat by lia.
    rewrite firstn_O, app_nil_r.
    destruct (Nat.le_ge_cases 4 (length (split "." v))) as [H|H].
    + now rewrite Nat.min_l by exact H.
    + rewrite Nat.min_r by exact H.
      now rewrite !firstn_all2 by lia.
Qed.

(** X12.  [_normalize_version] always returns a version of exactly four
    dot-separated components, whatever the text it is given: the first
    components (at most four) are those of the input, missing ones are
    filled in, further ones are dropped.  Normalising again, at any
    time, changes nothing. *)
Theorem normalized_version_has_four_parts :
  forall (now now' : Z) (v : str),
    length (split "." (_normalize_version now v)) = 4%nat
    /\ firstn (Nat.min 4 (length (split "." v)))
         (split "." (_normalize_version now v))
       = firstn 4 (split "." v)
    /\ _normalize_version now' (_normalize_version now v)
       = _normalize_version now v.
Proof.
  intros now now' v.
  destruct (normalized_parts now v) as (P & E & Hl & Hf & Hp).
  assert (Hne : P <> []) by (destruct P; [discriminate | discriminate]).
  assert (Hs : split "." (_normalize_version now v) = P)
    by (rewrite E; now apply split_join).
  rewrite Hs. split; [exact Hl|]. split; [exact Hp|].
  unfold _normalize_version at 1. rewrite Hs, Hl.
  cbn [Nat.sub fill_parts]. rewrite firstn_all2 by lia.
  now rewrite E.
Qed.

End Normalisation.

Section ComparingVersions.
Import Py Crypto Regex FirmwareManager Reference Checks.

Lemma tuple_compare_gt_trans (a b c : list Z) :
  lex_compare Z.compare a b = Gt -> lex_compare Z.compare b c = Gt ->
  lex_compare Z.compare a c = Gt.
Proof.
  intros H1 H2.
  rewrite (lex_compare_antisym Z.compare Z.compare_antisym c a).
  rewrite (tuple_compare_lt_trans c b a); [reflexivity| |].
  - rewrite (lex_compare_antisym Z.compare Z.compare_antisym b c), H2.
    reflexivity.
  - rewrite (lex_compare_antisym Z.compare Z.compare_antisym a b), H1.
    reflexivity.
Qed.

(** X13.  [_compare_versions] is a consistent three-way comparison of
    the parsed tuples: its result is -1, 0 or 1; swapping the arguments
    negates it; a version equals itself; "greater" is transitive; the
    result is 0 exactly when the two tuples are equal; and a leading [v]
    makes no difference. *)
Theorem compare_versions_is_consistent :
  forall (a b c : str),
    (_compare_versions a b = -1 \/ _compare_versions a b = 0
     \/ _compare_versions a b = 1)
    /\ _compare_versions a b = - _compare_versions b a
    /\ _compare_versions a a = 0
    /\ (_compare_versions a b = 1 -> _compare_versions b c = 1 ->
        _compare_versions a c = 1)
    /\ (_compare_versions a b = 0 <-> version_tuple a = version_tuple b)
    /\ _compare_versions ("v"%char :: a) b = _compare_versions a b.
Proof.
  intros a b c. unfold _compare_versions.
  split; [|split; [|split; [|split; [|split]]]].
  - destruct (lex_compare Z.compare (version_tuple a) (version_tuple b));
      auto.
  - rewrite (lex_compare_antisym Z.compare Z.compare_antisym
               (version_tuple b) (version_tuple a)).
    destruct (lex_compare Z.compare (version_tuple b) (version_tuple a));
      reflexivity.
  - now rewrite lex_compare_refl by apply Z.compare_refl.
  - destruct (lex_compare Z.compare (version_tuple a) (version_tuple b))
      eqn:E1; try discriminate.
    destruct (lex_compare Z.compare (version_tuple b) (version_tuple c))
      eqn:E2; try discriminate.
    now rewrite (tuple_compare_gt_trans _ _ _ E1 E2).
  - split.
    + destruct (lex_compare Z.compare (version_tuple a) (version_tuple b))
        eqn:E; try discriminate.
      intros _. apply lex_compare_eq in E; [exact E | apply Z.compare_eq].
    + intros ->. now rewrite lex_compare_refl by apply Z.compare_refl.
  - unfold version_tuple. cbn [lstrip]. reflexivity.
Qed.

Lemma compare_versions_is_consistent_witness :
  _compare_versions (s "v2.1.5.2024") (s "v2.1.5.100") = 1
  /\ _compare_versions (s "v2.1.5.100") (s "1.9") = 1
  /\ _compare_versions (s "v2.1.5.2024") (s "1.9") = 1.
Proof.
  assert (H1 : _compare_versions (s "v2.1.5.2024") (s "v2.1.5.100") = 1)
    by reflexivity.
  assert (H2 : _compare_versions (s "v2.1.5.100") (s "1.9") = 1)
    by reflexivity.
  split; [exact H1|]. split; [exact H2|].
  destruct (compare_versions_is_consistent
              (s "v2.1.5.2024") (s "v2.1.5.100") (s "1.9"))
    as (_ & _ & _ & H & _).
  exact (H H1 H2).
Defined.

End ComparingVersions.

(** ** Start-up *)

Section StartUp.
Import Py Crypto Regex FirmwareManager Reference Checks.

Variable md5 : bytes -> bytes.

(** X14.  A new manager started on the files and the sidecar of a
    manager whose catalog was saved (as it is after every successful
    add, remove or encryption) holds the same catalog: the same records
    under the same ids in the same order, and it does not scan the
    directory. *)
Theorem restart_restores_saved_catalog :
  forall (m : manager) (now : str -> Z) (ctime : str -> str)
         (scan_time : str),
    NoDup (map fst (firmwares m)) ->
    metadata_file m = Some (firmwares m) ->
    _load_metadata md5 (files m) (metadata_file m) now ctime scan_time = m.
Proof.
  intros m now ctime scan_time Hnd Hs. rewrite Hs. unfold _load_metadata.
  rewrite (dict_rebuild (firmwares m) []) by exact Hnd.
  cbn [app]. rewrite <- Hs. now destruct m.
Qed.

(** The scan loop keeps whatever each step keeps. *)
Lemma scan_loop_invariant (P : manager -> Prop) m now ctime scan_time :
  P m ->
  (forall m name fw,
     P m ->
     _create_firmware_from_file md5 m name (now name) (ctime name) scan_time
     = Ok fw ->
     P {| firmwares := dict_set (firmwares m) (id fw) fw;
          files := files m;
          metadata_file := metadata_file m |}) ->
  (forall m, P m -> firmwares m <> [] -> P (_save_metadata m)) ->
  P (_scan_existing_files md5 m now ctime scan_time).
Proof.
  intros Hm Hstep Hsave. unfold _scan_existing_files.
  generalize (filter is_bin (map fst (files m))) as names. intros names.
  assert (H : P (fold_left
                   (fun m name =>
                      if str_eqb name (s "metadata.json") then m
                      else
                        match _create_firmware_from_file md5 m name
                                (now name) (ctime name) scan_time with
                        | Ok firmware =>
                            {| firmwares :=
                                 dict_set (firmwares m) (id firmware)
                                   firmware;
                               files := files m;
                               metadata_file := metadata_file m |}
                        | Raise _ => m
                        end) names m)).
  { revert m Hm. induction names as [|n names IH]; intros m Hm;
      cbn [fold_left]; [exact Hm|].
    apply IH. destruct (str_eqb n (s "metadata.json")); [exact Hm|].
    destruct (_create_firmware_from_file md5 m n (now n) (ctime n)
                scan_time) as [fw|] eqn:Hc; [|exact Hm].
    now apply (Hstep m n fw). }
  match goal with
  | |- P (match firmwares ?x with _ => _ end) => set (X := x) in *
  end.
  destruct (firmwares X) eqn:Ef; [exact H|].
  apply Hsave; [exact H|]. rewrite Ef. discriminate.
Qed.

Lemma created_scanned_entry m name now ctime scan_time fw :
  _create_firmware_from_file md5 m name now ctime scan_time = Ok fw ->
  scanned_entry (id fw, fw)
  /\ four_components (version fw) = true.
Proof.
  unfold _create_firmware_from_file.
  destruct (dict_get (files m) name); [|discriminate].
  intros H. injection H as <-. unfold scanned_entry. cbn.
  repeat split. apply inferred_version_four_components.
Qed.


End StartUp.

Section StartUpExamples.
Import Py Crypto Regex FirmwareManager Reference Checks.

Lemma restart_restores_saved_catalog_witness :
  _load_metadata zero_digest (files plain_with_file)
    (metadata_file plain_with_file) (fun _ => 0) (fun _ => []) []
  = plain_with_file.
Proof.
  apply (restart_restores_saved_catalog zero_digest plain_with_file).
  - repeat constructor. intros [].
  - reflexivity.
Defined.


End StartUpExamples.

(** ** Looking a firmware up by version *)

Section ByVersion.
Import Py Crypto Regex FirmwareManager Reference Checks Services.

Lemma split_head (t : str) (c : ascii) (w : str) (ws : list str) :
  split "." t = (c :: w) :: ws -> exists t', t = c :: t'.
Proof.
  destruct t as [|x t]; cbn [split]; [discriminate|].
  destruct (Ascii.eqb x "."); [discriminate|].
  destruct (split "." t); intros H; injection H as -> _; now exists t.
Qed.

Lemma four_components_head (v : str) :
  four_components v = true -> exists c t, v = c :: t /\ is_digit c = true.
Proof.
  unfold four_components. intros H.
  destruct (split "." v) as [|a [|b [|c [|d [|]]]]] eqn:E;
    try discriminate.
  apply andb_prop in H as [H _]. apply andb_prop in H as [H _].
  apply andb_prop in H as [Ha _].
  destruct a as [|x a]; [discriminate|].
  apply split_head in E as (t & ->). exists x, t. split; [reflexivity|].
  cbn [numeric forallb] in Ha. now apply andb_prop in Ha as [Ha _].
Qed.

(** X16.  The lookup of [get_firmware_by_version] only ever finds a
    listed record whose stored version begins with [v] and is the version
    asked for, with a [v] put in front if it had none.  A record whose
    version consists of four numeric components without [v] - every
    version inferred from a file name is one - is found under no
    version. *)
Theorem lookup_by_version_needs_v_prefix :
  forall (m : manager) (asked : str) (target_device_filter : option str)
         (fw : FirmwareInfo),
    matching_firmware m asked target_device_filter = Some fw ->
    In fw (list_firmwares m target_device_filter None)
    /\ (exists rest, version fw = "v"%char :: rest)
    /\ (version fw = asked \/ version fw = "v"%char :: asked)
    /\ four_components (version fw) = false.
Proof.
  intros m asked td fw H. unfold matching_firmware in H.
  apply find_some in H as [Hin Heq]. apply str_eqb_eq in Heq.
  split; [exact Hin|].
  assert (Hv : exists rest, version fw = "v"%char :: rest).
  { rewrite Heq. destruct asked as [|c t]; [now exists []|].
    destruct (Ascii.eqb_spec c "v"); [subst; now exists t|].
    now exists (c :: t). }
  split; [exact Hv|]. split.
  - rewrite Heq. destruct asked as [|c t]; [now right|].
    destruct (Ascii.eqb c "v"); [now left | now right].
  - destruct (four_components (version fw)) eqn:E; [|reflexivity].
    apply four_components_head in E as (c & t & E & Hc).
    destruct Hv as (rest & Hv). rewrite Hv in E. injection E as <- _.
    discriminate.
Qed.

Lemma lookup_by_version_needs_v_prefix_witness :
  matching_firmware two_releases (s "1.2.0.0") None
  = Some (sample_record (s "b") (s "v1.2.0.0") (s "2024-01-02T00:00:00")
            false)
  /\ four_components (s "v1.2.0.0") = false.
Proof.
  assert (H : matching_firmware two_releases (s "1.2.0.0") None
              = Some (sample_record (s "b") (s "v1.2.0.0")
                        (s "2024-01-02T00:00:00") false))
    by reflexivity.
  split; [exact H|].
  exact (proj2 (proj2 (proj2
    (lookup_by_version_needs_v_prefix two_releases (s "1.2.0.0") None _ H)))).
Defined.

End ByVersion.

(** ** File names without a version *)

Section Fallbacks.
Import Py Crypto Regex FirmwareManager Reference Checks.

Lemma search_found_below (p : pattern) (c : ascii) (t : str) :
  search p t <> None -> search p (c :: t) <> None.
Proof.
  intros H. cbn [search]. destruct (match_here p (c :: t));
    [discriminate | exact H].
Qed.

Lemma digit_found_by_pattern1 (filename : str) :
  existsb is_digit filename = true -> search pattern1 filename <> None.
Proof.
  induction filename as [|c t IH]; cbn [existsb]; [discriminate|].
  destruct (is_digit c) eqn:Hc; cbn [orb]; intros H.
  - cbn [search].
    pose proof (digit_head_matches_pattern1 c t Hc) as Hm.
    destruct (match_here pattern1 (c :: t)); [discriminate | congruence].
  - now apply search_found_below, IH.
Qed.

Lemma numeric_has_digit (w : str) : numeric w = true -> existsb is_digit w = true.
Proof.
  destruct w as [|c w]; [discriminate|]. cbn [numeric forallb existsb].
  intros H. apply andb_prop in H as [-> _]. reflexivity.
Qed.

Lemma existsb_app_l {B} (f : B -> bool) (a b : list B) :
  existsb f a = true -> existsb f (a ++ b) = true.
Proof. intros H. rewrite existsb_app, H. reflexivity. Qed.

Lemma existsb_middle {B} (f : B -> bool) (pre g post : list B) :
  existsb f g = true -> existsb f (pre ++ g ++ post) = true.
Proof.
  intros H. rewrite !existsb_app, H. now rewrite orb_true_r.
Qed.

Lemma match_needs_digit (p : pattern) (filename g : str) :
  In p patterns -> search p filename = Some g ->
  existsb is_digit filename = true.
Proof.
  intros Hp H. apply search_sound in H as [Hg (pre & post & ->)].
  apply existsb_middle.
  destruct Hp as [<-|[<-|[<-|[<-|[]]]]].
  - apply pattern4_shape in Hg as (a & b & c & d & Ha & _ & _ & _ & ->).
    now apply existsb_app_l, numeric_has_digit.
  - apply pattern3_shape in Hg as (a & b & c & Ha & _ & _ & ->).
    now apply existsb_app_l, numeric_has_digit.
  - apply pattern2_shape in Hg as (a & b & Ha & _ & ->).
    now apply existsb_app_l, numeric_has_digit.
  - apply pattern1_shape in Hg. now apply numeric_has_digit.
Qed.

(** X17.  The eight-digit date branch of
    [_extract_version_from_filename] is never taken: wherever the
    eight-digit search finds a token, the single-number pattern has
    matched before.  A file name with a decimal digit always gets its
    version from one of the four patterns, and a file name of ASCII text
    without one gets ["1.0.0.0"]. *)
Theorem date_branch_is_never_taken :
  forall (now : Z) (filename : str),
    (search timestamp_pattern filename <> None ->
     search pattern1 filename <> None)
    /\ _extract_version_from_filename now filename
       = match first_match now patterns filename with
         | Some v => v
         | None => s "1.0.0.0"
         end
    /\ (existsb is_digit filename = true ->
        first_match now patterns filename <> None)
    /\ (isascii filename = true ->
        existsb is_digit filename = false ->
        _extract_version_from_filename now filename = s "1.0.0.0").
Proof.
  intros now filename.
  assert (H1 : search timestamp_pattern filename <> None ->
               search pattern1 filename <> None).
  { intros Ht Hn. now apply Ht, timestamp_branch_unreachable. }
  assert (H2 : first_match now patterns filename = None ->
               search pattern1 filename = None).
  { unfold patterns. cbn [first_match].
    destruct (search pattern4 filename); [discriminate|].
    destruct (search pattern3 filename); [discriminate|].
    destruct (search pattern2 filename); [discriminate|].
    destruct (search pattern1 filename); [discriminate | reflexivity]. }
  assert (H3 : _extract_version_from_filename now filename
               = match first_match now patterns filename with
                 | Some v => v
                 | None => s "1.0.0.0"
                 end).
  { unfold _extract_version_from_filename.
    destruct (first_match now patterns filename) eqn:E; [reflexivity|].
    now rewrite (timestamp_branch_unreachable filename (H2 eq_refl)). }
  split; [exact H1|]. split; [exact H3|]. split.
  - intros Hd Hn. apply (digit_found_by_pattern1 filename Hd). auto.
  - intros _ Hd. rewrite H3.
    assert (Hnone : forall p, In p patterns -> search p filename = None).
    { intros p Hp. destruct (search p filename) as [g|] eqn:E;
        [|reflexivity].
      apply (match_needs_digit p filename g Hp) in E. congruence. }
    unfold patterns in *. cbn [first_match].
    rewrite (Hnone pattern4), (Hnone pattern3), (Hnone pattern2),
      (Hnone pattern1) by (cbn [In]; auto).
    reflexivity.
Qed.

Lemma date_branch_is_never_taken_witness :
  search timestamp_pattern (s "firmware_20240902.bin") <> None
  /\ search pattern1 (s "firmware_20240902.bin") <> None
  /\ isascii (s "firmware.bin") = true
  /\ _extract_version_from_filename 1700001234 (s "firmware.bin")
     = s "1.0.0.0".
Proof.
  assert (H : search timestamp_pattern (s "firmware_20240902.bin") <> None)
    by (vm_compute; discriminate).
  destruct (date_branch_is_never_taken 1700001234
              (s "firmware_20240902.bin")) as (H1 & _).
  destruct (date_branch_is_never_taken 1700001234 (s "firmware.bin"))
    as (_ & _ & _ & H4).
  split; [exact H|]. split; [exact (H1 H)|]. split; [reflexivity|].
  apply H4; reflexivity.
Defined.

End Fallbacks.

(** ** Lookups, listing and defaults *)

Section LookupsAndListing.
Import Py Crypto Regex FirmwareManager Reference Checks.

Variable md5 : bytes -> bytes.

Lemma dict_get_complete {V} (d : dict V) (k : str) (v : V) :
  NoDup (map fst d) -> In (k, v) d -> dict_get d k = Some v.
Proof.
  induction d as [|[k0 v0] d IH]; cbn [map fst In dict_get]; intros Hnd H;
    [contradiction|].
  apply NoDup_cons_iff in Hnd as [Hn Hd].
  destruct H as [H|H].
  - injection H as -> ->. now rewrite str_eqb_refl.
  - destruct (str_eqb k0 k) eqn:E; [|now apply IH].
    apply str_eqb_eq in E. subst. exfalso. apply Hn.
    apply in_map_iff. now exists (k, v).
Qed.

Lemma dict_del_set_fresh {V} (d : dict V) (k : str) (v : V) :
  ~ In k (map fst d) -> dict_del (dict_set d k v) k = d.
Proof.
  induction d as [|[k0 v0] d IH]; cbn [dict_set dict_del map fst In];
    intros H.
  - now rewrite str_eqb_refl.
  - destruct (str_eqb k0 k) eqn:E.
    + apply str_eqb_eq in E. tauto.
    + cbn [dict_del]. rewrite E, IH by tauto. reflexivity.
Qed.

Lemma dict_get_some_in_keys {V} (d : dict V) (k : str) :
  dict_get d k = None -> ~ In k (map fst d).
Proof.
  induction d as [|[k0 v0] d IH]; cbn [dict_get map fst In]; [tauto|].
  destruct (str_eqb k0 k) eqn:E; [discriminate|].
  intros H [->|Hin]; [|now apply IH].
  rewrite str_eqb_refl in E. discriminate.
Qed.


(** X19.  With unique ids, listing and lookup agree: a record is in the
    unfiltered listing exactly when [get_firmware] returns it for its
    id. *)
Theorem listing_and_lookup_agree :
  forall (m : manager) (fw : FirmwareInfo),
    ids_unique (firmwares m) ->
    (In fw (list_firmwares m None None) <->
     get_firmware m (id fw) = Some fw).
Proof.
  intros m fw [Hnd Hid].
  rewrite list_firmwares_sort_filter.
  assert (Hperm : forall x,
            In x (sort_reverse
                    (filter (selected None None) (map snd (firmwares m))))
            <-> In x (map snd (firmwares m))).
  { intros x. split; intros H.
    - apply (Permutation_in _ (sort_reverse_perm _)) in H.
      now apply filter_In in H as [H _].
    - apply (Permutation_in _ (Permutation_sym (sort_reverse_perm _))).
      apply filter_In. split; [exact H | reflexivity]. }
  rewrite Hperm. unfold get_firmware. split.
  - intros H. apply in_map_iff in H as ([k x] & E & Hin).
    cbn [snd] in E. subst x.
    rewrite Forall_forall in Hid. pose proof (Hid _ Hin) as Hk.
    cbn [fst snd] in Hk. rewrite Hk. now apply dict_get_complete.
  - intros H. apply dict_get_In in H.
    apply in_map_iff. now exists (id fw, fw).
Qed.

(** X20.  The fallbacks of the version readers differ: on a version with
    a component that is not an integer the sort key of [list_firmwares]
    and the tuple of [_compare_versions] are (0,0,0,0), while
    [_parse_firmware_version], which fills the AES header, gives
    (1,0,0,1).  The sort key and the header tuple always have four
    components; the tuple of [_compare_versions] has as many as the
    version has. *)
Theorem version_reader_fallbacks :
  forall (fw : FirmwareInfo),
    length (fst (version_sort_key fw)) = 4%nat
    /\ length (_parse_firmware_version (Some (version fw))) = 4%nat
    /\ (ints (split "." (lstrip "v" (version fw))) = None ->
        fst (version_sort_key fw) = [0; 0; 0; 0]
        /\ version_tuple (version fw) = [0; 0; 0; 0]
        /\ _parse_firmware_version (Some (version fw)) = [1; 0; 0; 1])
    /\ (forall parts,
          ints (split "." (lstrip "v" (version fw))) = Some parts ->
          version_tuple (version fw) = parts
          /\ length parts = length (split "." (lstrip "v" (version fw)))
          /\ fst (version_sort_key fw) = firstn 4 (pad4 parts)).
Proof.
  intros fw. split; [|split; [|split]].
  - unfold version_sort_key.
    destruct (ints (split "." (lstrip "v" (version fw)))); cbn [fst];
      [apply pad4_firstn_length | reflexivity].
  - apply parse_firmware_version_length.
  - intros H. unfold version_sort_key, version_tuple,
      _parse_firmware_version.
    rewrite H. repeat split.
    destruct (truthy (Some (version fw))); reflexivity.
  - intros parts H. unfold version_sort_key, version_tuple. rewrite H.
    repeat split.
    revert parts H.
    generalize (split "." (lstrip "v" (version fw))) as l.
    induction l as [|w l IH]; intros parts H; cbn [ints] in H.
    + now injection H as <-.
    + destruct (int w); [|discriminate].
      destruct (ints l) as [ns|] eqn:E; [|discriminate].
      injection H as <-. cbn [length]. f_equal. now apply IH.
Qed.

End LookupsAndListing.

Section LookupExamples.
Import Py Crypto Regex FirmwareManager Reference Checks.


Lemma listing_and_lookup_agree_witness :
  ids_unique (firmwares two_releases)
  /\ (In (sample_record (s "a") (s "1.0.0.0") (s "2024-01-01T00:00:00")
            false)
         (list_firmwares two_releases None None)
      <-> get_firmware two_releases
            (id (sample_record (s "a") (s "1.0.0.0")
                   (s "2024-01-01T00:00:00") false))
          = Some (sample_record (s "a") (s "1.0.0.0")
                    (s "2024-01-01T00:00:00") false)).
Proof.
  assert (H : ids_unique (firmwares two_releases)).
  { split.
    - cbn. repeat constructor; cbn; intuition discriminate.
    - repeat constructor. }
  split; [exact H|].
  apply (listing_and_lookup_agree two_releases _ H).
Defined.

End LookupExamples.
